(** * Net-Trim MNIST models: graph construction, masking and the run surface

    A shallow embedding of [mnist_lenet/BasicLenet.py] and
    [mnist_fc/PrunedFCnet.py].  Both files build a TensorFlow graph and
    drive a session.  The graph is embedded as the term the Python code
    builds ([tnode], [snode]); the model object is a record with the
    attributes of [__init__]; every method is a computation in a
    state-and-exception monad in which a raised exception keeps the
    attribute writes made before it, as a Python object does.

    Numbers are rationals: the rounding of float32 is not modelled.  The
    engine's kernels the code only calls (convolution, matrix product,
    activations, gradients) are the methods of the class [Engine].

    What the engine refuses is embedded where the control flow of the code
    meets it: a run that reads a variable without a value, a fetch of
    [None], a feed whose key is [None], the sum of no tensors.  The
    engine's checks of shapes -- of a fed batch against its placeholder,
    of the operands of a product -- and of the graph a tensor belongs to
    are not embedded: where the engine would raise on one of them, the
    embedded call returns.  What is proved about such calls is therefore
    stated for the calls that return, or is about what a call never
    writes. *)

From Stdlib Require Import List String ZArith QArith Qabs Qround Lia Bool Arith PeanoNat.
Import ListNotations.

Set Warnings "-register-all".
Local Open Scope nat_scope.
Local Open Scope list_scope.

(** ** Arrays *)

(** A numpy array or tensor value: its shape and its entries in row-major
    order. *)
Record ndarray : Type := mk_ndarray { shape : list nat; data : list Q }.

Definition scalar (q : Q) : ndarray := mk_ndarray [] [q].

Definition shape_eqb (s t : list nat) : bool :=
  if list_eq_dec Nat.eq_dec s t then true else false.

(** *** Entries that are not numbers *)

(** A float32 entry as the engine stores it: a number, an infinity or
    NaN.  The arrays above hold numbers only: they are the tensors all of
    whose entries are finite, and the rounding of the numbers is not
    modelled. *)
Inductive float32 : Type :=
| Finite (q : Q)
| Infinity (negative : bool)
| NotANumber.

(** The product of two float32 entries: NaN is absorbing, an infinity
    times zero is NaN, and an infinity times anything else is an
    infinity. *)
Definition float32_mul (a b : float32) : float32 :=
  match a, b with
  | NotANumber, _ => NotANumber
  | _, NotANumber => NotANumber
  | Finite x, Finite y => Finite (x * y)
  | Infinity s, Finite y =>
      if Qeq_bool y 0 then NotANumber
      else Infinity (if Qle_bool 0 y then s else negb s)
  | Finite x, Infinity s =>
      if Qeq_bool x 0 then NotANumber
      else Infinity (if Qle_bool 0 x then s else negb s)
  | Infinity s, Infinity t => Infinity (xorb s t)
  end.

Definition is_zero32 (a : float32) : Prop :=
  match a with
  | Finite q => (q == 0)%Q
  | _ => False
  end.

(** ** Python values and exceptions *)

Inductive exn : Type :=
| ValueError (msg : string)
| AttributeError
| IndexError
| TypeError
| EngineError.

(** [l[i]] of Python: a negative index counts from the end. *)
Definition py_getitem {A : Type} (l : list A) (i : Z) : exn + A :=
  let len := Z.of_nat (List.length l) in
  let j := if (i <? 0)%Z then (len + i)%Z else i in
  if (j <? 0)%Z then inl IndexError
  else match nth_error l (Z.to_nat j) with
       | Some a => inr a
       | None => inl IndexError
       end.

(** [l[i]] when [l] may be [None]: subscripting [None] is a TypeError. *)
Definition py_getitem_opt {A : Type} (l : option (list A)) (i : Z) : exn + A :=
  match l with
  | Some l' => py_getitem l' i
  | None => inl TypeError
  end.

(** ** The graph the code builds *)

Inductive placeholder : Type := PhInput | PhTarget | PhKeepProb.

Definition placeholder_eqb (p q : placeholder) : bool :=
  match p, q with
  | PhInput, PhInput | PhTarget, PhTarget | PhKeepProb, PhKeepProb => true
  | _, _ => false
  end.

(** Tensor-valued nodes. [Var id] is the [id]-th [tf.Variable] of the graph. *)
Inductive tnode : Type :=
| Placeholder (p : placeholder)
| Var (id : nat)
| Constant (c : ndarray)
| Reshape (x : tnode) (shp : list Z)
| Conv2d (x w : tnode)
| MaxPool (x : tnode) (k : nat)
| Add (x y : tnode)
| MatMul (x w : tnode)
| Relu (x : tnode)
| Softmax (x : tnode)
| Dropout (x kp : tnode)
| Multiply (x y : tnode)
| SoftmaxCrossEntropy (v2 : bool) (labels logits : tnode)
| ArgMax (x : tnode) (axis : nat)
| Equal (x y : tnode)
| Cast (x : tnode).

(** Scalar-valued nodes: the loss, the accuracy and the learning rate. *)
Inductive snode : Type :=
| SConst (q : Q)
| ReduceMean (x : tnode)
| Norm1 (x : tnode)
| L2Loss (x : tnode)
| Scale (s : Q) (x : snode)
| SAdd (x y : snode)
| AddN (xs : list snode)
| ExponentialDecay (lr : Q) (counter : tnode) (decay_step : Q) (decay_rate : Q).

Inductive algorithm : Type :=
| GradientDescent | RMSProp | Adam | AdaGrad | AdaDelta.

(** What [optimizer.minimize(loss, var_list, global_step)] returns. *)
Record train_op : Type := mk_train_op {
  op_algorithm : algorithm;
  op_learning_rate : snode;
  op_loss : snode;
  op_var_list : list tnode;
  op_global_step : tnode
}.

(** A [tf.Graph]: the initial values of its variables, in creation order,
    and the declared shapes of its placeholders ([None] is a free
    dimension). *)
Record graph : Type := mk_graph {
  g_variables : list ndarray;
  g_placeholders : list (placeholder * option (list (option nat)))
}.

Definition empty_graph : graph := mk_graph [] [].

(** A [tf.Session]: the current value of each variable ([None] while the
    variable is not initialised) and the accumulators the optimizer keeps
    for itself. *)
Record session : Type := mk_session {
  s_values : list (option ndarray);
  s_slots : list ndarray
}.

Definition feed_dict : Type := list (option placeholder * ndarray).

(** ** The model object *)

Record model : Type := mk_model {
  _graph : option graph;
  _sess : option session;
  _initializer : option (list ndarray);
  _accuracy : option snode;
  _trainOp : option train_op;
  _learning_rate : snode;
  _loss : option snode;
  _gradients : option (list (snode * tnode));
  _keep_prob : option placeholder;
  _input : option placeholder;
  _output : option tnode;
  _logit : option tnode;
  _target : option placeholder;
  _layer_types : list string;
  _nn_weights : list tnode;
  _nn_biases : list tnode;
  _fw_signals : list (option tnode)
}.

(** [__init__] *)
Definition BasicLenetModel : model :=
  mk_model None None None None None (SConst (1 # 100)) None None
           None None None None None [] [] [] [].

Definition set_graph (v : option graph) (m : model) : model :=
  mk_model v (_sess m) (_initializer m) (_accuracy m) (_trainOp m)
    (_learning_rate m) (_loss m) (_gradients m) (_keep_prob m) (_input m)
    (_output m) (_logit m) (_target m) (_layer_types m) (_nn_weights m)
    (_nn_biases m) (_fw_signals m).
Definition set_sess (v : option session) (m : model) : model :=
  mk_model (_graph m) v (_initializer m) (_accuracy m) (_trainOp m)
    (_learning_rate m) (_loss m) (_gradients m) (_keep_prob m) (_input m)
    (_output m) (_logit m) (_target m) (_layer_types m) (_nn_weights m)
    (_nn_biases m) (_fw_signals m).
Definition set_initializer (v : option (list ndarray)) (m : model) : model :=
  mk_model (_graph m) (_sess m) v (_accuracy m) (_trainOp m)
    (_learning_rate m) (_loss m) (_gradients m) (_keep_prob m) (_input m)
    (_output m) (_logit m) (_target m) (_layer_types m) (_nn_weights m)
    (_nn_biases m) (_fw_signals m).
Definition set_accuracy (v : option snode) (m : model) : model :=
  mk_model (_graph m) (_sess m) (_initializer m) v (_trainOp m)
    (_learning_rate m) (_loss m) (_gradients m) (_keep_prob m) (_input m)
    (_output m) (_logit m) (_target m) (_layer_types m) (_nn_weights m)
    (_nn_biases m) (_fw_signals m).
Definition set_trainOp (v : option train_op) (m : model) : model :=
  mk_model (_graph m) (_sess m) (_initializer m) (_accuracy m) v
    (_learning_rate m) (_loss m) (_gradients m) (_keep_prob m) (_input m)
    (_output m) (_logit m) (_target m) (_layer_types m) (_nn_weights m)
    (_nn_biases m) (_fw_signals m).
Definition set_learning_rate (v : snode) (m : model) : model :=
  mk_model (_graph m) (_sess m) (_initializer m) (_accuracy m) (_trainOp m)
    v (_loss m) (_gradients m) (_keep_prob m) (_input m)
    (_output m) (_logit m) (_target m) (_layer_types m) (_nn_weights m)
    (_nn_biases m) (_fw_signals m).
Definition set_loss (v : option snode) (m : model) : model :=
  mk_model (_graph m) (_sess m) (_initializer m) (_accuracy m) (_trainOp m)
    (_learning_rate m) v (_gradients m) (_keep_prob m) (_input m)
    (_output m) (_logit m) (_target m) (_layer_types m) (_nn_weights m)
    (_nn_biases m) (_fw_signals m).
Definition set_gradients (v : option (list (snode * tnode))) (m : model) : model :=
  mk_model (_graph m) (_sess m) (_initializer m) (_accuracy m) (_trainOp m)
    (_learning_rate m) (_loss m) v (_keep_prob m) (_input m)
    (_output m) (_logit m) (_target m) (_layer_types m) (_nn_weights m)
    (_nn_biases m) (_fw_signals m).
Definition set_keep_prob (v : option placeholder) (m : model) : model :=
  mk_model (_graph m) (_sess m) (_initializer m) (_accuracy m) (_trainOp m)
    (_learning_rate m) (_loss m) (_gradients m) v (_input m)
    (_output m) (_logit m) (_target m) (_layer_types m) (_nn_weights m)
    (_nn_biases m) (_fw_signals m).
Definition set_input (v : option placeholder) (m : model) : model :=
  mk_model (_graph m) (_sess m) (_initializer m) (_accuracy m) (_trainOp m)
    (_learning_rate m) (_loss m) (_gradients m) (_keep_prob m) v
    (_output m) (_logit m) (_target m) (_layer_types m) (_nn_weights m)
    (_nn_biases m) (_fw_signals m).
Definition set_output (v : option tnode) (m : model) : model :=
  mk_model (_graph m) (_sess m) (_initializer m) (_accuracy m) (_trainOp m)
    (_learning_rate m) (_loss m) (_gradients m) (_keep_prob m) (_input m)
    v (_logit m) (_target m) (_layer_types m) (_nn_weights m)
    (_nn_biases m) (_fw_signals m).
Definition set_logit (v : option tnode) (m : model) : model :=
  mk_model (_graph m) (_sess m) (_initializer m) (_accuracy m) (_trainOp m)
    (_learning_rate m) (_loss m) (_gradients m) (_keep_prob m) (_input m)
    (_output m) v (_target m) (_layer_types m) (_nn_weights m)
    (_nn_biases m) (_fw_signals m).
Definition set_target (v : option placeholder) (m : model) : model :=
  mk_model (_graph m) (_sess m) (_initializer m) (_accuracy m) (_trainOp m)
    (_learning_rate m) (_loss m) (_gradients m) (_keep_prob m) (_input m)
    (_output m) (_logit m) v (_layer_types m) (_nn_weights m)
    (_nn_biases m) (_fw_signals m).
Definition set_layer_types (v : list string) (m : model) : model :=
  mk_model (_graph m) (_sess m) (_initializer m) (_accuracy m) (_trainOp m)
    (_learning_rate m) (_loss m) (_gradients m) (_keep_prob m) (_input m)
    (_output m) (_logit m) (_target m) v (_nn_weights m)
    (_nn_biases m) (_fw_signals m).
Definition set_nn_weights (v : list tnode) (m : model) : model :=
  mk_model (_graph m) (_sess m) (_initializer m) (_accuracy m) (_trainOp m)
    (_learning_rate m) (_loss m) (_gradients m) (_keep_prob m) (_input m)
    (_output m) (_logit m) (_target m) (_layer_types m) v
    (_nn_biases m) (_fw_signals m).
Definition set_nn_biases (v : list tnode) (m : model) : model :=
  mk_model (_graph m) (_sess m) (_initializer m) (_accuracy m) (_trainOp m)
    (_learning_rate m) (_loss m) (_gradients m) (_keep_prob m) (_input m)
    (_output m) (_logit m) (_target m) (_layer_types m) (_nn_weights m)
    v (_fw_signals m).
Definition set_fw_signals (v : list (option tnode)) (m : model) : model :=
  mk_model (_graph m) (_sess m) (_initializer m) (_accuracy m) (_trainOp m)
    (_learning_rate m) (_loss m) (_gradients m) (_keep_prob m) (_input m)
    (_output m) (_logit m) (_target m) (_layer_types m) (_nn_weights m)
    (_nn_biases m) v.

(** ** Methods: state and exceptions *)

(** A method body: it reads and writes the attributes of [self] and either
    returns or raises; the attributes written before a raise stay written. *)
Definition M (A : Type) : Type := model -> (exn + A) * model.

Definition ret {A : Type} (a : A) : M A := fun m => (inr a, m).
Definition raise {A : Type} (e : exn) : M A := fun m => (inl e, m).
Definition bind {A B : Type} (c : M A) (k : A -> M B) : M B :=
  fun m => match c m with
           | (inr a, m') => k a m'
           | (inl e, m') => (inl e, m')
           end.
Definition get {A : Type} (f : model -> A) : M A := fun m => (inr (f m), m).
Definition modify (f : model -> model) : M unit := fun m => (inr tt, f m).
Definition lift {A : Type} (r : exn + A) : M A := fun m => (r, m).

Declare Scope method_scope.
Delimit Scope method_scope with method.
Notation "x <- c ;; k" := (bind c (fun x => k))
  (at level 61, c at next level, right associativity) : method_scope.
Notation "c ;; k" := (bind c (fun _ => k))
  (at level 61, right associativity) : method_scope.
Local Open Scope method_scope.

(** [for n in range(...)] with one loop-carried local. *)
Fixpoint for_each {I X : Type} (body : I -> X -> M X) (l : list I) (x : X) : M X :=
  match l with
  | [] => ret x
  | n :: l' => x' <- body n x ;; for_each body l' x'
  end.

Definition range (n : nat) : list nat := seq 0 n.

(** ** The engine *)

(** The kernels of the tensor engine that the code calls and does not
    define.  [tf_broadcast] is a binary entrywise operation on arrays of
    different shapes; [apply_gradients] is the value one optimizer step
    gives to a variable, [update_slots] the optimizer's own accumulators
    after the step; [truncnorm_rvs] is a random draw. *)
Class Engine : Type := {
  tf_reshape : ndarray -> list Z -> ndarray;
  tf_conv2d : ndarray -> ndarray -> ndarray;
  tf_max_pool : ndarray -> nat -> ndarray;
  tf_add : ndarray -> ndarray -> ndarray;
  tf_matmul : ndarray -> ndarray -> ndarray;
  tf_relu : ndarray -> ndarray;
  tf_softmax : ndarray -> ndarray;
  tf_dropout : ndarray -> ndarray -> ndarray;
  tf_softmax_cross_entropy : bool -> ndarray -> ndarray -> ndarray;
  tf_broadcast : (Q -> Q -> Q) -> ndarray -> ndarray -> ndarray;
  truncnorm_rvs : list nat -> ndarray;
  apply_gradients : train_op -> feed_dict -> session -> nat -> ndarray;
  update_slots : train_op -> feed_dict -> session -> list ndarray
}.

(** What a fetched scalar can be: the mean of no entries is not a number. *)
Inductive npfloat : Type := NaN | Num (q : Q).

Definition fadd (a b : npfloat) : npfloat :=
  match a, b with
  | Num x, Num y => Num (x + y)
  | _, _ => NaN
  end.

Definition fscale (s : Q) (a : npfloat) : npfloat :=
  match a with
  | Num x => Num (s * x)
  | NaN => NaN
  end.

Fixpoint zip_with {A B C : Type} (f : A -> B -> C) (l : list A) (l' : list B) : list C :=
  match l, l' with
  | a :: t, b :: t' => f a b :: zip_with f t t'
  | _, _ => []
  end.

Definition Qsum (l : list Q) : Q := fold_right Qplus 0%Q l.

(** Rows of a [b x c] matrix stored row-major. *)
Fixpoint rows (b c : nat) (d : list Q) : list (list Q) :=
  match b with
  | O => []
  | S b' => firstn c d :: rows b' c (skipn c d)
  end.

(** Index of the first largest entry of a row, after [best] at index [bi];
    [i] is the index of the head of [l]. *)
Fixpoint argmax_from (best : Q) (bi i : nat) (l : list Q) : nat :=
  match l with
  | [] => bi
  | q :: t => if Qle_bool q best then argmax_from best bi (S i) t
              else argmax_from q i (S i) t
  end.

Definition argmax_row (l : list Q) : nat :=
  match l with
  | [] => 0
  | q :: t => argmax_from q 0 1 t
  end.

Definition Q_of_nat (n : nat) : Q := inject_Z (Z.of_nat n).

(** The class of each example of a batch: [argmax(., 1)] of a matrix. *)
Definition classes (a : ndarray) : exn + list nat :=
  match shape a with
  | [b; S c] => inr (map argmax_row (rows b (S c) (data a)))
  | _ => inl EngineError
  end.

Definition tf_argmax (a : ndarray) (axis : nat) : exn + ndarray :=
  match axis with
  | 1 => match classes a with
         | inr cs => inr (mk_ndarray [List.length cs] (map Q_of_nat cs))
         | inl e => inl e
         end
  | _ => inl EngineError
  end.

Section WithEngine.
Context {E : Engine}.

Definition elementwise (f : Q -> Q -> Q) (a b : ndarray) : ndarray :=
  if shape_eqb (shape a) (shape b)
  then mk_ndarray (shape a) (zip_with f (data a) (data b))
  else tf_broadcast f a b.

Definition tf_multiply : ndarray -> ndarray -> ndarray := elementwise Qmult.

Definition tf_equal : ndarray -> ndarray -> ndarray :=
  elementwise (fun x y => if Qeq_bool x y then 1%Q else 0%Q).

Definition reduce_mean (a : ndarray) : npfloat :=
  match data a with
  | [] => NaN
  | _ :: _ => Num (Qsum (data a) / Q_of_nat (List.length (data a)))
  end.

Definition tf_norm1 (a : ndarray) : Q := Qsum (map Qabs (data a)).
Definition tf_l2_loss (a : ndarray) : Q := Qsum (map (fun q => q * q)%Q (data a)) / 2.

(** *** Running a node in a session *)

Definition ebind {A B : Type} (r : exn + A) (k : A -> exn + B) : exn + B :=
  match r with
  | inr a => k a
  | inl e => inl e
  end.

Fixpoint lookup_feed (fd : feed_dict) (p : placeholder) : option ndarray :=
  match fd with
  | [] => None
  | (Some q, v) :: fd' => if placeholder_eqb q p then Some v else lookup_feed fd' p
  | (None, _) :: fd' => lookup_feed fd' p
  end.

Definition read_variable (s : session) (id : nat) : exn + ndarray :=
  match nth_error (s_values s) id with
  | Some (Some v) => inr v
  | _ => inl EngineError
  end.

Fixpoint eval (s : session) (fd : feed_dict) (n : tnode) : exn + ndarray :=
  match n with
  | Placeholder p =>
      match lookup_feed fd p with
      | Some v => inr v
      | None => inl EngineError
      end
  | Var id => read_variable s id
  | Constant c => inr c
  | Reshape x shp => ebind (eval s fd x) (fun a => inr (tf_reshape a shp))
  | Conv2d x w =>
      ebind (eval s fd x) (fun a => ebind (eval s fd w) (fun b => inr (tf_conv2d a b)))
  | MaxPool x k => ebind (eval s fd x) (fun a => inr (tf_max_pool a k))
  | Add x y =>
      ebind (eval s fd x) (fun a => ebind (eval s fd y) (fun b => inr (tf_add a b)))
  | MatMul x w =>
      ebind (eval s fd x) (fun a => ebind (eval s fd w) (fun b => inr (tf_matmul a b)))
  | Relu x => ebind (eval s fd x) (fun a => inr (tf_relu a))
  | Softmax x => ebind (eval s fd x) (fun a => inr (tf_softmax a))
  | Dropout x kp =>
      ebind (eval s fd x) (fun a => ebind (eval s fd kp) (fun b => inr (tf_dropout a b)))
  | Multiply x y =>
      ebind (eval s fd x) (fun a => ebind (eval s fd y) (fun b => inr (tf_multiply a b)))
  | SoftmaxCrossEntropy v2 l x =>
      ebind (eval s fd l) (fun a =>
        ebind (eval s fd x) (fun b => inr (tf_softmax_cross_entropy v2 a b)))
  | ArgMax x axis => ebind (eval s fd x) (fun a => tf_argmax a axis)
  | Equal x y =>
      ebind (eval s fd x) (fun a => ebind (eval s fd y) (fun b => inr (tf_equal a b)))
  | Cast x => eval s fd x
  end.

Definition counter_value (a : ndarray) : Q :=
  match data a with
  | c :: _ => c
  | [] => 0%Q
  end.

Fixpoint eval_s (s : session) (fd : feed_dict) (n : snode) : exn + npfloat :=
  match n with
  | SConst q => inr (Num q)
  | ReduceMean x => ebind (eval s fd x) (fun a => inr (reduce_mean a))
  | Norm1 x => ebind (eval s fd x) (fun a => inr (Num (tf_norm1 a)))
  | L2Loss x => ebind (eval s fd x) (fun a => inr (Num (tf_l2_loss a)))
  | Scale q x => ebind (eval_s s fd x) (fun a => inr (fscale q a))
  | SAdd x y =>
      ebind (eval_s s fd x) (fun a => ebind (eval_s s fd y) (fun b => inr (fadd a b)))
  | AddN xs =>
      match xs with
      | [] => inl EngineError
      | _ :: _ =>
          (fix sum_all (l : list snode) : exn + npfloat :=
             match l with
             | [] => inr (Num 0)
             | x :: l' =>
                 ebind (eval_s s fd x) (fun a =>
                   ebind (sum_all l') (fun b => inr (fadd a b)))
             end) xs
      end
  | ExponentialDecay lr counter decay_step decay_rate =>
      ebind (eval s fd counter) (fun c =>
        inr (Num (lr * Qpower decay_rate (Qfloor (counter_value c / decay_step)))))
  end.

(** A feed dictionary whose key is [None] is refused. *)
Definition feed_ok (fd : feed_dict) : bool :=
  forallb (fun kv => match fst kv with Some _ => true | None => false end) fd.

(** [sess.run(fetch, feed_dict)] for a tensor. *)
Definition sess_run (s : session) (fetch : option tnode) (fd : feed_dict) : exn + ndarray :=
  if feed_ok fd
  then match fetch with
       | Some n => eval s fd n
       | None => inl TypeError
       end
  else inl TypeError.

(** [sess.run(fetches, feed_dict)] for a list of tensors. *)
Fixpoint sess_run_list (s : session) (fetches : list (option tnode)) (fd : feed_dict)
  : exn + list ndarray :=
  match fetches with
  | [] => if feed_ok fd then inr [] else inl TypeError
  | f :: fs =>
      ebind (sess_run s f fd) (fun a =>
        ebind (sess_run_list s fs fd) (fun l => inr (a :: l)))
  end.

(** [sess.run(fetch, feed_dict)] for a scalar. *)
Definition sess_run_scalar (s : session) (fetch : option snode) (fd : feed_dict)
  : exn + npfloat :=
  if feed_ok fd
  then match fetch with
       | Some n => eval_s s fd n
       | None => inl TypeError
       end
  else inl TypeError.

Fixpoint set_nth {A : Type} (i : nat) (a : A) (l : list A) : list A :=
  match i, l with
  | _, [] => []
  | O, _ :: t => a :: t
  | S i', h :: t => h :: set_nth i' a t
  end.

Definition initialised (s : session) (v : tnode) : bool :=
  match v with
  | Var id => match read_variable s id with inr _ => true | inl _ => false end
  | _ => false
  end.

Definition assign_add (a : ndarray) (d : Q) : ndarray :=
  mk_ndarray (shape a) (map (fun q => q + d)%Q (data a)).

(** One optimizer step: every variable of [var_list] takes the value the
    optimizer computes from the state before the step, then the step
    counter is incremented. *)
Definition update_var (op : train_op) (fd : feed_dict) (s : session)
    (vals : list (option ndarray)) (v : tnode) : list (option ndarray) :=
  match v with
  | Var id => set_nth id (Some (apply_gradients op fd s id)) vals
  | _ => vals
  end.

Definition apply_step (op : train_op) (fd : feed_dict) (s : session)
  : list (option ndarray) :=
  let updated := fold_left (update_var op fd s) (op_var_list op) (s_values s) in
  match op_global_step op with
  | Var id =>
      match nth_error updated id with
      | Some (Some c) => set_nth id (Some (assign_add c 1)) updated
      | _ => updated
      end
  | _ => updated
  end.

(** [sess.run(trainOp, feed_dict)] *)
Definition sess_run_train (s : session) (op : train_op) (fd : feed_dict) : exn + session :=
  if feed_ok fd
  then if forallb (initialised s) (op_global_step op :: op_var_list op)
       then inr (mk_session (apply_step op fd s) (update_slots op fd s))
       else inl EngineError
  else inl TypeError.

(** [sess.run(initializer)]: every variable the graph had when the
    initializer was made takes its initial value. *)
Definition sess_run_init (s : session) (inits : list ndarray) : session :=
  mk_session (map Some inits ++ skipn (List.length inits) (s_values s)) (s_slots s).

End WithEngine.

(** ** Graph primitives that touch the model's graph *)

(** [with self._graph.as_default():] *)
Definition as_default : M unit :=
  g <- get _graph ;;
  match g with
  | Some _ => ret tt
  | None => raise AttributeError
  end.

(** [tf.Variable(v)] inside [with self._graph.as_default()]: the variable
    gets the next free index of the model's graph. *)
Definition tf_Variable (v : ndarray) : M tnode :=
  g <- get _graph ;;
  match g with
  | Some g =>
      modify (set_graph (Some (mk_graph (g_variables g ++ [v]) (g_placeholders g)))) ;;
      ret (Var (List.length (g_variables g)))
  | None => raise EngineError
  end.

(** [tf.placeholder(tf.float32, shape)] *)
Definition tf_placeholder (p : placeholder) (shp : option (list (option nat)))
  : M placeholder :=
  g <- get _graph ;;
  match g with
  | Some g =>
      modify (set_graph (Some (mk_graph (g_variables g) (g_placeholders g ++ [(p, shp)])))) ;;
      ret p
  | None => raise EngineError
  end.

(** [tf.add_n(xs)]: refused on the empty list. *)
Definition tf_add_n (xs : list snode) : M snode :=
  match xs with
  | [] => raise EngineError
  | _ :: _ => ret (AddN xs)
  end.

(** ** mnist_lenet/BasicLenet.py *)

Definition _add_convolution_layer (x : tnode) (weight bias : ndarray) (pool : nat)
  : M tnode :=
  w <- tf_Variable weight ;;
  b <- tf_Variable bias ;;
  modify (fun m => set_fw_signals (_fw_signals m ++ [Some x]) m) ;;
  modify (fun m => set_nn_weights (_nn_weights m ++ [w]) m) ;;
  modify (fun m => set_nn_biases (_nn_biases m ++ [b]) m) ;;
  let output := Relu (Add (Conv2d x w) b) in
  ret (if 1 <? pool then MaxPool output pool else output).

Definition _add_fully_connected_layer (x : tnode) (weight bias : ndarray) (func : string)
  : M tnode :=
  w <- tf_Variable weight ;;
  b <- tf_Variable bias ;;
  modify (fun m => set_fw_signals (_fw_signals m ++ [Some x]) m) ;;
  modify (fun m => set_nn_weights (_nn_weights m ++ [w]) m) ;;
  modify (fun m => set_nn_biases (_nn_biases m ++ [b]) m) ;;
  let output := Add (MatMul x w) b in
  if String.eqb func "relu" then ret (Relu output)
  else if String.eqb func "softmax" then
    modify (set_logit (Some output)) ;;
    ret (Softmax output)
  else ret output.

(** The body of the loop of [_create_initialized_network]; [x] is the
    loop-carried signal. *)
Definition lenet_layer (initial_weights : list ndarray)
    (initial_biases : option (list ndarray)) (layer_types : list string)
    (num_layers : nat) (keep_prob : placeholder) (n : nat) (x : tnode) : M tnode :=
  ty <- lift (py_getitem layer_types (Z.of_nat n)) ;;
  if String.eqb ty "conv" then
    w <- lift (py_getitem initial_weights (Z.of_nat n)) ;;
    b <- lift (py_getitem_opt initial_biases (Z.of_nat n)) ;;
    _add_convolution_layer x w b 2
  else if String.eqb ty "fc" then
    prev <- lift (py_getitem layer_types (Z.of_nat n - 1)) ;;
    x1 <- (if String.eqb prev "conv" then
             w <- lift (py_getitem initial_weights (Z.of_nat n)) ;;
             num_x <- lift (py_getitem (shape w) 0) ;;
             ret (Reshape x [(-1)%Z; Z.of_nat num_x])
           else ret x) ;;
    let x2 := Dropout x1 (Placeholder keep_prob) in
    w <- lift (py_getitem initial_weights (Z.of_nat n)) ;;
    b <- lift (py_getitem_opt initial_biases (Z.of_nat n)) ;;
    if n =? num_layers - 1
    then _add_fully_connected_layer x2 w b "softmax"
    else _add_fully_connected_layer x2 w b "relu"
  else ret x.

(** The accuracy node both classes build. *)
Definition accuracy_node (target : placeholder) (logit : tnode) : snode :=
  ReduceMean (Cast (Equal (ArgMax (Placeholder target) 1) (ArgMax logit 1))).

(** The tail both network builders share: output, trace, loss, accuracy.
    [v2] tells which cross-entropy kernel is called. *)
Definition wire_outputs (v2 : bool) (target : placeholder) (x : tnode) : M unit :=
  modify (set_output (Some x)) ;;
  modify (fun m => set_fw_signals (_fw_signals m ++ [_logit m]) m) ;;
  modify (fun m => set_fw_signals (_fw_signals m ++ [_output m]) m) ;;
  logit <- get _logit ;;
  match logit with
  | Some l =>
      modify (set_loss (Some (ReduceMean (SoftmaxCrossEntropy v2 (Placeholder target) l)))) ;;
      modify (set_accuracy (Some (accuracy_node target l)))
  | None => raise EngineError
  end.

Definition _create_initialized_network (initial_weights : list ndarray)
    (initial_biases : option (list ndarray)) (layer_types : option (list string))
  : M unit :=
  match layer_types with
  | None => raise TypeError
  | Some layer_types =>
      modify (set_layer_types layer_types) ;;
      modify (set_nn_weights []) ;;
      modify (set_nn_biases []) ;;
      modify (set_graph (Some empty_graph)) ;;
      input <- tf_placeholder PhInput (Some [None; Some 784]) ;;
      modify (set_input (Some input)) ;;
      target <- tf_placeholder PhTarget (Some [None; Some 10]) ;;
      modify (set_target (Some target)) ;;
      keep_prob <- tf_placeholder PhKeepProb None ;;
      modify (set_keep_prob (Some keep_prob)) ;;
      modify (set_fw_signals []) ;;
      let num_layers := List.length layer_types in
      let x := Reshape (Placeholder input) [(-1)%Z; 28%Z; 28%Z; 1%Z] in
      x <- for_each
             (lenet_layer initial_weights initial_biases layer_types num_layers keep_prob)
             (range num_layers) x ;;
      wire_outputs true target x
  end.

Section Lenet.
Context {E : Engine}.

Definition _create_random_network
  : M (list ndarray * list ndarray * list string) :=
  let layer_shapes := [[5; 5; 1; 32]; [5; 5; 32; 64]; [7 * 7 * 64; 512]; [512; 10]] in
  let layer_types := ["conv"; "conv"; "fc"; "fc"]%string in
  let initial_weights := map truncnorm_rvs layer_shapes in
  let initial_biases :=
    map (fun shp => let k := last shp 0 in mk_ndarray [k] (repeat (1 # 10)%Q k))
        layer_shapes in
  _create_initialized_network initial_weights (Some initial_biases) (Some layer_types) ;;
  ret (initial_weights, initial_biases, layer_types).

Definition create_network (initial_weights initial_biases : option (list ndarray))
    (layer_types : option (list string)) : M unit :=
  match initial_weights with
  | None => _create_random_network ;; ret tt
  | Some ws => _create_initialized_network ws initial_biases layer_types
  end.

End Lenet.

(** An argument of [add_regulizer]: [None], a Python float, a list of
    floats, or a scalar whose type is not [float]: a Python int or a numpy
    scalar. *)
Inductive reg_weight : Type :=
| RNone
| RFloat (s : Q)
| RList (l : list Q)
| RInt (z : Z)
| RNumpyScalar (s : Q).

(** The two rewrites [add_regulizer] applies to a weight argument, in the
    order of the source: [None] becomes a list of zeros, then a value whose
    type is [float] becomes two zeros followed by copies of it.  Any other
    value stays as it is. *)
Definition per_tensor_weights (w : reg_weight) (num_parameters : nat) : reg_weight :=
  let w := match w with
           | RNone => RList (repeat 0%Q num_parameters)
           | _ => w
           end in
  match w with
  | RFloat s => RList (repeat 0%Q 2 ++ repeat s (num_parameters - 2))
  | _ => w
  end.

(** [zip(self._nn_weights, weight)]: only a list can be iterated. *)
Definition py_zip (ws : list tnode) (w : reg_weight) : exn + list (tnode * Q) :=
  match w with
  | RList l => inr (combine ws l)
  | _ => inl TypeError
  end.

Definition add_regulizer (l1_weight l2_weight : reg_weight) : M unit :=
  ws <- get _nn_weights ;;
  let num_parameters := List.length ws in
  let l1_weight := per_tensor_weights l1_weight num_parameters in
  let l2_weight := per_tensor_weights l2_weight num_parameters in
  as_default ;;
  z1 <- lift (py_zip ws l1_weight) ;;
  l1_loss <- tf_add_n (map (fun ws => Scale (snd ws) (Norm1 (fst ws))) z1) ;;
  z2 <- lift (py_zip ws l2_weight) ;;
  l2_loss <- tf_add_n (map (fun ws => Scale (snd ws) (L2Loss (fst ws))) z2) ;;
  loss <- get _loss ;;
  match loss with
  | Some l => modify (set_loss (Some (SAdd l (SAdd l1_loss l2_loss))))
  | None => raise EngineError
  end.

(** The [training_algorithm] argument: an ordinal or a name. *)
Inductive selector : Type :=
| SelInt (z : Z)
| SelStr (s : string).

(** [(training_algorithm == ordinal) or (training_algorithm == name)] *)
Definition selects (sel : selector) (ordinal : Z) (name : string) : bool :=
  match sel with
  | SelInt z => Z.eqb z ordinal
  | SelStr s => String.eqb s name
  end.

Definition choose_optimizer (sel : selector) : option algorithm :=
  if selects sel 0 "GD" then Some GradientDescent
  else if selects sel 1 "RMSProp" then Some RMSProp
  else if selects sel 2 "Adam" then Some Adam
  else if selects sel 3 "AdaGrad" then Some AdaGrad
  else if selects sel 4 "AdaDelta" then Some AdaDelta
  else None.

Definition create_optimizer (training_algorithm : selector)
    (learning_rate decay_rate decay_step : Q) : M unit :=
  as_default ;;
  train_counter <- tf_Variable (scalar 0) ;;
  modify (set_learning_rate
            (ExponentialDecay learning_rate train_counter decay_step decay_rate)) ;;
  lr <- get _learning_rate ;;
  match choose_optimizer training_algorithm with
  | None => raise (ValueError "Unknown training algorithm.")
  | Some alg =>
      ws <- get _nn_weights ;;
      bs <- get _nn_biases ;;
      let var_list := ws ++ bs in
      loss <- get _loss ;;
      match loss, var_list with
      | Some l, _ :: _ =>
          modify (set_trainOp (Some (mk_train_op alg lr l var_list train_counter))) ;;
          modify (set_gradients (Some (map (fun v => (l, v)) var_list)))
      | _, _ => raise EngineError
      end
  end.

Definition create_initializer : M unit :=
  as_default ;;
  g <- get _graph ;;
  modify (set_initializer (option_map g_variables g)) ;;
  modify (set_sess (Some (mk_session [] []))).

Definition the_session : M session :=
  s <- get _sess ;;
  match s with
  | Some s => ret s
  | None => raise AttributeError
  end.

Section Run.
Context {E : Engine}.

Definition initialize : M unit :=
  i <- get _initializer ;;
  match i with
  | Some inits =>
      s <- the_session ;;
      modify (set_sess (Some (sess_run_init s inits)))
  | None => raise (ValueError "Initializer has not been set.")
  end.

Definition compute_accuracy (x target : ndarray) : M npfloat :=
  s <- the_session ;;
  acc <- get _accuracy ;;
  i <- get _input ;;
  t <- get _target ;;
  k <- get _keep_prob ;;
  lift (sess_run_scalar s acc [(i, x); (t, target); (k, scalar 1)]).

Definition train (batch_x batch_y : ndarray) (keep_prob : Q) : M unit :=
  op <- get _trainOp ;;
  match op with
  | Some op =>
      s <- the_session ;;
      i <- get _input ;;
      t <- get _target ;;
      k <- get _keep_prob ;;
      s' <- lift (sess_run_train s op [(i, batch_x); (t, batch_y); (k, scalar keep_prob)]) ;;
      modify (set_sess (Some s'))
  | None => raise (ValueError "Training algorithm has not been set.")
  end.

Definition get_fw_signals (x : ndarray) : M (list ndarray) :=
  s <- get _sess ;;
  match s with
  | None => raise (ValueError "The model has not been created and initialized.")
  | Some s =>
      fw <- get _fw_signals ;;
      i <- get _input ;;
      k <- get _keep_prob ;;
      lift (sess_run_list s fw [(i, x); (k, scalar 1)])
  end.

Definition get_weights : M (list ndarray * list ndarray) :=
  s <- the_session ;;
  ws <- get _nn_weights ;;
  bs <- get _nn_biases ;;
  w <- lift (sess_run_list s (map Some ws) []) ;;
  b <- lift (sess_run_list s (map Some bs) []) ;;
  ret (w, b).

Definition get_layer_types : M (list string) := get _layer_types.

Definition learning_rate : M npfloat :=
  s <- the_session ;;
  lr <- get _learning_rate ;;
  lift (sess_run_scalar s (Some lr) []).

End Run.

(** ** mnist_fc/PrunedFCnet.py *)

(** [PrunedFCSoftmaxModel.__init__] only calls the base class's
    [__init__]; the attributes are those the methods of this file and the
    shared lifecycle use. *)
Definition PrunedFCSoftmaxModel : model := BasicLenetModel.

Definition _add_masked_fully_connected_layer (x : tnode) (weight bias : ndarray)
    (weight_mask bias_mask : ndarray) (func : string) : M tnode :=
  w <- tf_Variable weight ;;
  b <- tf_Variable bias ;;
  let mask_w := Constant weight_mask in
  let mask_b := Constant bias_mask in
  modify (fun m => set_fw_signals (_fw_signals m ++ [Some x]) m) ;;
  modify (fun m => set_nn_weights (_nn_weights m ++ [w]) m) ;;
  modify (fun m => set_nn_biases (_nn_biases m ++ [b]) m) ;;
  let w := Multiply w mask_w in
  let b := Multiply b mask_b in
  let output := Add (MatMul x w) b in
  if String.eqb func "relu" then ret (Relu output)
  else if String.eqb func "softmax" then
    modify (set_logit (Some output)) ;;
    ret (Softmax output)
  else ret output.

(** The body of the loop of [_create_masked_network]. *)
Definition masked_layer (initial_weights initial_biases : option (list ndarray))
    (weight_masks bias_masks : option (list ndarray))
    (num_layers : nat) (keep_prob : placeholder) (n : nat) (x : tnode) : M tnode :=
  let x := Dropout x (Placeholder keep_prob) in
  w <- lift (py_getitem_opt initial_weights (Z.of_nat n)) ;;
  b <- lift (py_getitem_opt initial_biases (Z.of_nat n)) ;;
  mw <- lift (py_getitem_opt weight_masks (Z.of_nat n)) ;;
  mb <- lift (py_getitem_opt bias_masks (Z.of_nat n)) ;;
  if n =? num_layers - 1
  then _add_masked_fully_connected_layer x w b mw mb "softmax"
  else _add_masked_fully_connected_layer x w b mw mb "relu".

Definition py_len {A : Type} (l : option (list A)) : exn + nat :=
  match l with
  | Some l => inr (List.length l)
  | None => inl TypeError
  end.

Definition _create_masked_network (initial_weights initial_biases : option (list ndarray))
    (weight_masks bias_masks : option (list ndarray)) : M unit :=
  modify (set_nn_weights []) ;;
  modify (set_nn_biases []) ;;
  w0 <- lift (py_getitem_opt initial_weights 0) ;;
  input_len <- lift (py_getitem (shape w0) 0) ;;
  wl <- lift (py_getitem_opt initial_weights (-1)) ;;
  output_len <- lift (py_getitem (shape wl) 1) ;;
  modify (set_graph (Some empty_graph)) ;;
  input <- tf_placeholder PhInput (Some [None; Some input_len]) ;;
  modify (set_input (Some input)) ;;
  target <- tf_placeholder PhTarget (Some [None; Some output_len]) ;;
  modify (set_target (Some target)) ;;
  keep_prob <- tf_placeholder PhKeepProb None ;;
  modify (set_keep_prob (Some keep_prob)) ;;
  num_layers <- lift (py_len initial_weights) ;;
  let x := Placeholder input in
  modify (set_fw_signals []) ;;
  x <- for_each
         (masked_layer initial_weights initial_biases weight_masks bias_masks
                       num_layers keep_prob)
         (range num_layers) x ;;
  wire_outputs false target x.

(** [PrunedFCSoftmaxModel.create_network].  [base_create_network] is
    [BasicFCSoftmaxModel.create_network], a function of the base class,
    which is not among the sources: it is a parameter here, applied to the
    two positional arguments the call passes, the first of which Python
    binds to the function's [self]. *)
Definition PrunedFCSoftmaxModel_create_network
    (base_create_network : option (list ndarray) -> option (list ndarray) -> exn + unit)
    (initial_weights initial_biases weight_masks bias_masks : option (list ndarray))
  : M unit :=
  match weight_masks with
  | None => lift (base_create_network initial_weights initial_biases)
  | Some _ => _create_masked_network initial_weights initial_biases weight_masks bias_masks
  end.

(** ** Sequences of calls *)

Section Sequences.
Context {E : Engine}.

(** A sequence of [train] calls, one per batch; a call that raises leaves
    the model as the raise left it and the next call goes on from there. *)
Fixpoint train_all (batches : list (ndarray * ndarray * Q)) (m : model) : model :=
  match batches with
  | [] => m
  | (batch_x, batch_y, keep_prob) :: rest =>
      train_all rest (snd (train batch_x batch_y keep_prob m))
  end.

End Sequences.

(** ** Reading the layers off a signal *)

Inductive layer_kind : Type := Convolutional | FullyConnected.

Inductive activation : Type := NoActivation | ReluActivation | SoftmaxActivation.

(** What a layer looks like from outside: its kind, the activation applied
    to it, and the keep-probability node of the dropout its input went
    through, if it went through one. *)
Record layer_view : Type := mk_layer_view {
  lv_kind : layer_kind;
  lv_activation : activation;
  lv_dropout : option tnode
}.

Definition dropout_of (x : tnode) : option tnode :=
  match x with
  | Dropout _ kp => Some kp
  | _ => None
  end.

Fixpoint set_last_activation (a : activation) (l : list layer_view) : list layer_view :=
  match l with
  | [] => []
  | v :: t =>
      match t with
      | [] => [mk_layer_view (lv_kind v) a (lv_dropout v)]
      | _ :: _ => v :: set_last_activation a t
      end
  end.

(** The layers a signal went through, first layer first: a matrix product
    is a fully-connected layer, a convolution a convolutional one, and an
    activation node belongs to the layer below it. *)
Fixpoint layers_of (n : tnode) : list layer_view :=
  match n with
  | Softmax x => set_last_activation SoftmaxActivation (layers_of x)
  | Relu x => set_last_activation ReluActivation (layers_of x)
  | MaxPool x _ => layers_of x
  | Add x _ => layers_of x
  | Dropout x _ => layers_of x
  | Reshape x _ => layers_of x
  | MatMul x _ => layers_of x ++ [mk_layer_view FullyConnected NoActivation (dropout_of x)]
  | Conv2d x _ => layers_of x ++ [mk_layer_view Convolutional NoActivation (dropout_of x)]
  | _ => []
  end.

(** The inputs of the layers a signal went through, first layer first:
    the first operand of each matrix product and of each convolution. *)
Fixpoint inputs_of (n : tnode) : list tnode :=
  match n with
  | Softmax x => inputs_of x
  | Relu x => inputs_of x
  | MaxPool x _ => inputs_of x
  | Add x _ => inputs_of x
  | Dropout x _ => inputs_of x
  | Reshape x _ => inputs_of x
  | MatMul x _ => inputs_of x ++ [x]
  | Conv2d x _ => inputs_of x ++ [x]
  | _ => []
  end.

(** The layer a layer-type string stands for; other strings build nothing. *)
Definition kind_of (ty : string) : option layer_kind :=
  if String.eqb ty "conv" then Some Convolutional
  else if String.eqb ty "fc" then Some FullyConnected
  else None.

Fixpoint kinds_of (layer_types : list string) : list layer_kind :=
  match layer_types with
  | [] => []
  | ty :: rest =>
      match kind_of ty with
      | Some k => k :: kinds_of rest
      | None => kinds_of rest
      end
  end.

(** The node the activation selector puts on top of a pre-activation. *)
Definition apply_activation (func : string) (pre : tnode) : tnode :=
  if String.eqb func "relu" then Relu pre
  else if String.eqb func "softmax" then Softmax pre
  else pre.

Section Values.
Context {E : Engine}.

(** The value the activation selector gives to a pre-activation value. *)
Definition activation_value (func : string) (v : ndarray) : ndarray :=
  if String.eqb func "relu" then tf_relu v
  else if String.eqb func "softmax" then tf_softmax v
  else v.

(** One optimizer step gives a variable a value of the shape it had:
    variables have a static shape. *)
Definition step_keeps_shapes : Prop :=
  forall op fd s id v,
    read_variable s id = inr v -> shape (apply_gradients op fd s id) = shape v.

End Values.

(** Every variable that has a value in [s] has one of the same shape in
    [s']. *)
Definition shapes_kept (s s' : session) : Prop :=
  forall id v,
    read_variable s id = inr v ->
    exists v', read_variable s' id = inr v' /\ shape v' = shape v.

(** [sum_i a_i * f(v_i)] over the tensors that have a weight. *)
Definition weighted_sum (f : ndarray -> Q) (vals : list ndarray) (a : list Q) : Q :=
  Qsum (zip_with (fun v s => s * f v)%Q vals a).


(** The values under construction during a step: every one that stood in
    [s] still stands, with its shape. *)
Definition values_keep_shapes (s : session) (vals : list (option ndarray)) : Prop :=
  forall id v, read_variable s id = inr v ->
    exists v', nth_error vals id = Some (Some v') /\ shape v' = shape v.

(** ** Readiness of a model *)

(** [train] can run: an optimizer is attached, a session exists, the three
    placeholders exist and every variable the step touches has a value. *)
Definition ready_to_train (m : model) : bool :=
  match _trainOp m, _sess m, _input m, _target m, _keep_prob m with
  | Some op, Some s, Some _, Some _, Some _ =>
      forallb (initialised s) (op_global_step op :: op_var_list op)
  | _, _, _, _, _ => false
  end.

(** A signal that can be fetched when only the input and the
    keep-probability are fed: it reads no other placeholder and every
    variable it reads has a value in the session. *)
Fixpoint forward_node (s : session) (n : tnode) : bool :=
  match n with
  | Placeholder PhInput => true
  | Placeholder PhKeepProb => true
  | Placeholder PhTarget => false
  | Var id => initialised s (Var id)
  | Constant _ => true
  | Reshape x _ => forward_node s x
  | MaxPool x _ => forward_node s x
  | Relu x => forward_node s x
  | Softmax x => forward_node s x
  | Cast x => forward_node s x
  | Conv2d x y => forward_node s x && forward_node s y
  | Add x y => forward_node s x && forward_node s y
  | MatMul x y => forward_node s x && forward_node s y
  | Dropout x y => forward_node s x && forward_node s y
  | Multiply x y => forward_node s x && forward_node s y
  | SoftmaxCrossEntropy _ _ _ => false
  | ArgMax _ _ => false
  | Equal _ _ => false
  end.

(** The same of a signal when the variables below index [k] have values. *)
Fixpoint node_below (k : nat) (n : tnode) : bool :=
  match n with
  | Placeholder PhInput => true
  | Placeholder PhKeepProb => true
  | Placeholder PhTarget => false
  | Var id => id <? k
  | Constant _ => true
  | Reshape x _ => node_below k x
  | MaxPool x _ => node_below k x
  | Relu x => node_below k x
  | Softmax x => node_below k x
  | Cast x => node_below k x
  | Conv2d x y => node_below k x && node_below k y
  | Add x y => node_below k x && node_below k y
  | MatMul x y => node_below k x && node_below k y
  | Dropout x y => node_below k x && node_below k y
  | Multiply x y => node_below k x && node_below k y
  | SoftmaxCrossEntropy _ _ _ => false
  | ArgMax _ _ => false
  | Equal _ _ => false
  end.

Definition fetch_below (k : nat) (f : option tnode) : bool :=
  match f with
  | Some n => node_below k n
  | None => false
  end.

(** The loop of an assembly keeps its signals within the variables of the
    graph. *)
Definition signals_below (x : tnode) (m : model) : Prop :=
  exists g,
    _graph m = Some g /\
    node_below (List.length (g_variables g)) x = true /\
    forallb (fetch_below (List.length (g_variables g))) (_fw_signals m) = true /\
    fetch_below (List.length (g_variables g))
      (match _logit m with Some pre => Some pre | None => Some x end) = true.

(** An assembled model: every recorded signal is within the variables of
    the graph and reads only the input and the keep-probability. *)
Definition fetchable (m : model) : Prop :=
  exists g,
    _graph m = Some g /\
    forallb (fetch_below (List.length (g_variables g))) (_fw_signals m) = true /\
    _input m = Some PhInput /\ _keep_prob m = Some PhKeepProb.

Definition forward_fetch (s : session) (f : option tnode) : bool :=
  match f with
  | Some n => forward_node s n
  | None => false
  end.

(** [get_fw_signals] can run: a session exists, the input and
    keep-probability placeholders are those of the builders, and every
    recorded signal can be fetched. *)
Definition ready_for_inference (m : model) : bool :=
  match _sess m, _input m, _keep_prob m with
  | Some s, Some PhInput, Some PhKeepProb => forallb (forward_fetch s) (_fw_signals m)
  | _, _, _ => false
  end.

(** The feed dictionary [train] passes to the session. *)
Definition train_feed (m : model) (batch_x batch_y : ndarray) (keep_prob : Q) : feed_dict :=
  [(_input m, batch_x); (_target m, batch_y); (_keep_prob m, scalar keep_prob)].

(** The feed dictionary of [get_fw_signals]: keep-probability 1.0. *)
Definition fw_feed (m : model) (x : ndarray) : feed_dict :=
  [(_input m, x); (_keep_prob m, scalar 1)].


(** The selectors [create_optimizer] recognizes. *)
Definition recognized_selectors : list selector :=
  [SelInt 0; SelStr "GD"; SelInt 1; SelStr "RMSProp"; SelInt 2; SelStr "Adam";
   SelInt 3; SelStr "AdaGrad"; SelInt 4; SelStr "AdaDelta"].

(** All attributes but the session coincide. *)
Definition same_but_session (m m' : model) : Prop :=
  set_sess None m = set_sess None m'.

(** ** An engine to run concrete models *)

Definition Qrelu (q : Q) : Q := if Qle_bool 0 q then q else 0%Q.

Definition column (j : nat) (m : list (list Q)) : list Q :=
  map (fun r => nth j r 0%Q) m.

Definition dot (u v : list Q) : Q := Qsum (zip_with Qmult u v).

(** The product of an [m x k] matrix and a [k x n] matrix. *)
Definition matmul_exact (a w : ndarray) : ndarray :=
  match shape a, shape w with
  | [m; k], [_; n] =>
      let wr := rows k n (data w) in
      mk_ndarray [m; n]
        (flat_map (fun r => map (fun j => dot r (column j wr)) (seq 0 n))
                  (rows m k (data a)))
  | _, _ => a
  end.

(** A matrix plus a vector added to each of its rows. *)
Definition bias_add_exact (a b : ndarray) : ndarray :=
  match shape a with
  | [m; n] =>
      mk_ndarray [m; n] (flat_map (fun r => zip_with Qplus r (data b)) (rows m n (data a)))
  | _ => a
  end.

(** Exact kernels for fully-connected layers (matrix product, bias
    addition, relu); the other kernels are stand-ins that keep their first
    argument, and one optimizer step halves every entry of a variable. *)
#[global] Instance StandInEngine : Engine := {|
  tf_reshape := fun a _ => a;
  tf_conv2d := fun a _ => a;
  tf_max_pool := fun a _ => a;
  tf_add := bias_add_exact;
  tf_matmul := matmul_exact;
  tf_relu := fun a => mk_ndarray (shape a) (map Qrelu (data a));
  tf_softmax := fun a => a;
  tf_dropout := fun a _ => a;
  tf_softmax_cross_entropy := fun _ _ a => a;
  tf_broadcast := fun _ a _ => a;
  truncnorm_rvs := fun shp => mk_ndarray shp [];
  apply_gradients := fun _ _ s id =>
    match read_variable s id with
    | inr v => mk_ndarray (shape v) (map (fun q => q / 2)%Q (data v))
    | inl _ => scalar 0
    end;
  update_slots := fun _ _ s => s_slots s
|}.

(** *** Concrete models *)

(** A one-layer masked network with two inputs and two classes; the mask
    prunes the weight at position 1, which leaves the identity matrix. *)
Definition w_init : ndarray := mk_ndarray [2; 2] [1; 7; 0; 1]%Q.
Definition b_zero : ndarray := mk_ndarray [2] [0; 0]%Q.
Definition mask_w : ndarray := mk_ndarray [2; 2] [1; 0; 1; 1]%Q.
Definition mask_b : ndarray := mk_ndarray [2] [1; 1]%Q.

Definition after {A : Type} (c : M A) (m : model) : model := snd (c m).

Definition pruned_built : model :=
  after (_create_masked_network (Some [w_init]) (Some [b_zero]) (Some [mask_w]) (Some [mask_b]))
        PrunedFCSoftmaxModel.

Definition pruned_with_optimizer : model :=
  after (create_optimizer (SelStr "GD") (1 # 100) (95 # 100) 100) pruned_built.

Definition pruned_with_session : model := after create_initializer pruned_with_optimizer.

Definition pruned_ready : model := after initialize pruned_with_session.

(** The logit of that network and the session of [pruned_ready]. *)
Definition pruned_logit : tnode :=
  Add (MatMul (Dropout (Placeholder PhInput) (Placeholder PhKeepProb))
              (Multiply (Var 0) (Constant mask_w)))
      (Multiply (Var 1) (Constant mask_b)).


(** A network built and given a session, its variables never initialised. *)
Definition pruned_uninitialised : model := after create_initializer pruned_built.

Definition batch2 : ndarray := mk_ndarray [2; 2] [3; 1; 0; 5]%Q.
Definition target_same : ndarray := mk_ndarray [2; 2] [1; 0; 0; 1]%Q.
Definition target_other : ndarray := mk_ndarray [2; 2] [0; 1; 1; 0]%Q.

(** A small convolutional network: one convolution, one output layer. *)
Definition lenet_small : model :=
  after (_create_initialized_network
           [mk_ndarray [5; 5; 1; 2] []; mk_ndarray [4; 2] []]
           (Some [mk_ndarray [2] []; mk_ndarray [2] []])
           (Some ["conv"; "fc"]%string))
        BasicLenetModel.

(** A model whose graph exists and is empty, and a session in which the
    two variables of a layer hold values of the shapes of the masks. *)
Definition graph_only : model := set_graph (Some empty_graph) PrunedFCSoftmaxModel.

Definition session_w7 : session :=
  mk_session [Some (mk_ndarray [2; 2] [4; 7; 2; 9]%Q); Some (mk_ndarray [2] [5; 6]%Q)] [].

(** The model after the variable and the learning rate of
    [create_optimizer] are in place. *)
Definition with_schedule (lr dr ds : Q) (g : graph) (m : model) : model :=
  set_learning_rate
    (ExponentialDecay lr (Var (List.length (g_variables g))) ds dr)
    (set_graph (Some (mk_graph (g_variables g ++ [scalar 0]) (g_placeholders g))) m).

(** ** Claims as first stated, for the inputs that refute them *)

(** Training from [m] to [m'] changed no stored value but those of the
    weight and bias variables. *)
Definition only_weights_and_biases_change (m m' : model) : Prop :=
  forall s s' id,
    _sess m = Some s -> _sess m' = Some s' ->
    nth_error (s_values s') id <> nth_error (s_values s) id ->
    In (Var id) (_nn_weights m ++ _nn_biases m).

Section AsStated.
Context {E : Engine}.

(** With an optimizer attached, [train] performs its step and returns. *)
Definition train_steps_when_attached (m : model) (batch_x batch_y : ndarray)
    (keep_prob : Q) : Prop :=
  _trainOp m <> None -> fst (train batch_x batch_y keep_prob m) = inr tt.

(** [get_fw_signals] either fails with the not-ready error or returns the
    list of signals. *)
Definition fw_signals_not_ready_or_list (m : model) (x : ndarray) : Prop :=
  fst (get_fw_signals x m)
  = inl (ValueError "The model has not been created and initialized.")
  \/ exists vals, fst (get_fw_signals x m) = inr vals.


End AsStated.

(** The list of per-tensor weights a weight argument stands for, when it
    stands for one: [None], a float or a list. *)
Definition weight_list (w : reg_weight) (num_parameters : nat) : option (list Q) :=
  match per_tensor_weights w num_parameters with
  | RList l => Some l
  | _ => None
  end.

(** A weight argument of [add_regulizer] that gives a weight to at least
    one tensor: [None], a float or a list that is not empty. *)
Definition weights_given (w : reg_weight) : Prop :=
  match w with
  | RNone => True
  | RFloat _ => True
  | RList [] => False
  | RList (_ :: _) => True
  | RInt _ => False
  | RNumpyScalar _ => False
  end.

(** A single scalar given in place of a per-tensor list. *)
Definition single_scalar (w : reg_weight) : Prop :=
  match w with
  | RFloat _ | RInt _ | RNumpyScalar _ => True
  | RNone | RList _ => False
  end.

(** What the layer at position [n] of [layer_types] looks like when the
    network has [num_layers] entries and dropout reads [keep_prob]. *)
Definition layer_views (keep_prob : tnode) (layer_types : list string)
    (num_layers n : nat) : list layer_view :=
  match nth_error layer_types n with
  | Some ty =>
      match kind_of ty with
      | Some Convolutional => [mk_layer_view Convolutional ReluActivation None]
      | Some FullyConnected =>
          [mk_layer_view FullyConnected
             (if n =? num_layers - 1 then SoftmaxActivation else ReluActivation)
             (Some keep_prob)]
      | None => []
      end
  | None => []
  end.

(** Dropout is on the input of the fully-connected layers and of no
    other. *)
Definition dropout_matches_kind (keep_prob : tnode) (v : layer_view) : Prop :=
  lv_dropout v = match lv_kind v with
                 | FullyConnected => Some keep_prob
                 | Convolutional => None
                 end.

(** The last layer is softmax and every earlier one relu. *)
Definition relu_then_softmax (l : list layer_view) : Prop :=
  exists init last,
    l = init ++ [last] /\ lv_activation last = SoftmaxActivation /\
    Forall (fun v => lv_activation v = ReluActivation) init.

(** The model when the loop of an assembly starts: a fresh graph with the
    three placeholders, empty parameter lists and an empty trace. *)
Definition assembly_start (input_shape target_shape : option (list (option nat)))
    (layer_types : list string) (m : model) : model :=
  mk_model
    (Some (mk_graph [] [(PhInput, input_shape); (PhTarget, target_shape); (PhKeepProb, None)]))
    (_sess m) (_initializer m) (_accuracy m) (_trainOp m) (_learning_rate m)
    (_loss m) (_gradients m) (Some PhKeepProb) (Some PhInput) (_output m) (_logit m)
    (Some PhTarget) layer_types [] [] [].

(** The state of the loop of an assembly after [n] positions: the layers
    read off the signal, no dropout on top of it, one trace entry per
    parameter pair, and the logit set only once the last position has
    built the output layer. *)
Definition assembly_invariant (views : nat -> list layer_view) (last_is_fc : Prop)
    (num n : nat) (x : tnode) (m : model) : Prop :=
  layers_of x = flat_map views (seq 0 n) /\
  dropout_of x = None /\
  (exists ins, _fw_signals m = map Some ins /\
               List.length ins = List.length (_nn_weights m)) /\
  (_logit m = None \/
   (n = num /\ 0 < num /\ last_is_fc /\
    exists pre, _logit m = Some pre /\ x = Softmax pre)).

(** What building layers leaves alone, and how it extends the trace. *)
Definition layer_frame (m m' : model) : Prop :=
  _sess m' = _sess m /\ _input m' = _input m /\ _target m' = _target m /\
  _keep_prob m' = _keep_prob m /\ _layer_types m' = _layer_types m /\
  _trainOp m' = _trainOp m /\ _initializer m' = _initializer m /\
  exists l, _fw_signals m' = _fw_signals m ++ l.

(** What building layers leaves alone of the wiring of the network that
    was there before. *)
Definition wiring_kept (m m' : model) : Prop :=
  _loss m' = _loss m /\ _accuracy m' = _accuracy m /\ _output m' = _output m /\
  _learning_rate m' = _learning_rate m /\ _gradients m' = _gradients m.

(** ** The parameters of an assembled network *)

(** The variables of a graph that holds a weight and a bias per layer, in
    the order the layers were built. *)
Fixpoint interleave (ws bs : list ndarray) : list ndarray :=
  match ws, bs with
  | w :: ws', b :: bs' => w :: b :: interleave ws' bs'
  | _, _ => []
  end.

(** The parameters at the positions whose layer type builds a layer. *)
Definition built (layer_types : list string) (ps : list ndarray) : list ndarray :=
  map snd
      (filter (fun tp => match kind_of (fst tp) with Some _ => true | None => false end)
              (combine layer_types ps)).

(** The list an optional list argument stands for. *)
Definition list_or_nil {A : Type} (l : option (list A)) : list A :=
  match l with
  | Some l' => l'
  | None => []
  end.

(** The graph of [m] starts with the weights [ws] and biases [bs] of its
    layers, pairwise, followed by the variables [rest]; the parameter
    lists of [m] name them in order. *)
Definition parameters_in_order (ws bs rest : list ndarray) (m : model) : Prop :=
  List.length ws = List.length bs /\
  exists g,
    _graph m = Some g /\
    g_variables g = interleave ws bs ++ rest /\
    _nn_weights m = map (fun i => Var (2 * i)) (seq 0 (List.length ws)) /\
    _nn_biases m = map (fun i => Var (2 * i + 1)) (seq 0 (List.length ws)).

Section Batches.
Context {E : Engine}.

(** A sequence of [train] calls that stops at the first one that raises. *)
Fixpoint train_each (batches : list (ndarray * ndarray * Q)) (m : model) : exn + model :=
  match batches with
  | [] => inr m
  | (batch_x, batch_y, keep_prob) :: rest =>
      match train batch_x batch_y keep_prob m with
      | (inr _, m') => train_each rest m'
      | (inl e, _) => inl e
      end
  end.

End Batches.

(** [m1] is what one of the two builders made of [m] when it returned. *)
Definition assembled_from (m m1 : model) : Prop :=
  (exists iw ib lts, _create_initialized_network iw ib (Some lts) m = (inr tt, m1)) \/
  (exists iw ib wm bm, _create_masked_network iw ib wm bm m = (inr tt, m1)).


(** ** Further concrete models *)

(** A masked network of three layers, each with the weight, bias and masks
    of the one-layer network. *)
Definition three_layer_built : model :=
  after (_create_masked_network
           (Some [w_init; w_init; w_init]) (Some [b_zero; b_zero; b_zero])
           (Some [mask_w; mask_w; mask_w]) (Some [mask_b; mask_b; mask_b]))
        PrunedFCSoftmaxModel.

(** The one-layer network with a second optimizer attached after the
    first, then a session: variable 2 is the step counter of the first
    optimizer, variable 3 that of the second. *)
Definition pruned_two_optimizers : model :=
  after initialize
    (after create_initializer
       (after (create_optimizer (SelInt 2) (1 # 10) (1 # 2) 1) pruned_with_optimizer)).

(** A convolutional network the engine accepts: a 5x5 convolution with two
    output channels on the 28x28 image, pooled to 14x14, and an output
    layer on its 392 features. *)
Definition conv_weight : ndarray := mk_ndarray [5; 5; 1; 2] (repeat 0%Q 50).
Definition conv_bias : ndarray := mk_ndarray [2] [0; 0]%Q.
Definition fc_weight : ndarray := mk_ndarray [392; 10] (repeat 0%Q 3920).
Definition fc_bias : ndarray := mk_ndarray [10] (repeat 0%Q 10).

(** That network, built on a fresh model. *)
Definition lenet_built : model :=
  after (_create_initialized_network [conv_weight; fc_weight]
           (Some [conv_bias; fc_bias]) (Some ["conv"; "fc"]%string))
        BasicLenetModel.

(** ** Two more claims as first stated *)

(** The entrywise product of the float32 entries of two tensors of one
    shape. *)
Definition multiply32 (stored mask : list float32) : list float32 :=
  zip_with float32_mul stored mask.

(** Whatever is stored, the value used where the mask is zero is zero. *)
Definition zero_mask_gives_zero (stored mask : list float32) : Prop :=
  forall i k q,
    nth_error mask i = Some k -> is_zero32 k ->
    nth_error (multiply32 stored mask) i = Some q -> is_zero32 q.

(** A single scalar weight is accepted. *)
Definition scalar_weight_is_accepted (m : model) (w : reg_weight) : Prop :=
  single_scalar w -> fst (add_regulizer w RNone m) = inr tt.

(** * Proofs *)

Ltac run := unfold bind, ret, raise, get, modify, lift; simpl.

Lemma nth_error_set_nth_eq {A : Type} (l : list A) (i : nat) (a : A) :
  i < List.length l -> nth_error (set_nth i a l) i = Some a.
Proof.
  revert i. induction l as [|h t IH]; intros [|i] Hi; simpl in *; try lia; auto.
  apply IH. lia.
Qed.

Lemma nth_error_set_nth_ne {A : Type} (l : list A) (i j : nat) (a : A) :
  i <> j -> nth_error (set_nth i a l) j = nth_error l j.
Proof.
  revert i j. induction l as [|h t IH]; intros [|i] [|j] Hij; simpl; auto; try congruence.
Qed.

Lemma length_set_nth {A : Type} (l : list A) (i : nat) (a : A) :
  List.length (set_nth i a l) = List.length l.
Proof.
  revert i. induction l as [|h t IH]; intros [|i]; simpl; auto.
Qed.

Section StepFacts.
Context {E : Engine}.

Lemma fold_update_frame op fd s vars : forall vals c,
  ~ In (Var c) vars ->
  nth_error (fold_left (update_var op fd s) vars vals) c = nth_error vals c.
Proof.
  induction vars as [|v vars IH]; intros vals c Hc; simpl; auto.
  rewrite IH by (intro; apply Hc; now right).
  destruct v; simpl; auto.
  apply nth_error_set_nth_ne. intro; subst. apply Hc. now left.
Qed.

Lemma fold_update_length op fd s vars : forall vals,
  List.length (fold_left (update_var op fd s) vars vals) = List.length vals.
Proof.
  induction vars as [|v vars IH]; intros vals; simpl; auto.
  rewrite IH. destruct v; simpl; auto using length_set_nth.
Qed.

Lemma apply_step_frame op fd s id :
  ~ In (Var id) (op_var_list op) -> Var id <> op_global_step op ->
  nth_error (apply_step op fd s) id = nth_error (s_values s) id.
Proof.
  intros Hv Hg. unfold apply_step.
  destruct (op_global_step op) eqn:Hgs; try (now apply fold_update_frame).
  destruct (nth_error _ id0) as [[c|]|] eqn:Hn; try (now apply fold_update_frame).
  rewrite nth_error_set_nth_ne by congruence. now apply fold_update_frame.
Qed.

Lemma apply_step_counter op fd s c v :
  op_global_step op = Var c -> ~ In (Var c) (op_var_list op) ->
  read_variable s c = inr v ->
  read_variable (mk_session (apply_step op fd s) (update_slots op fd s)) c
  = inr (assign_add v 1).
Proof.
  intros Hg Hv Hr. unfold read_variable in *. simpl. unfold apply_step.
  rewrite Hg. rewrite (fold_update_frame op fd s _ _ c Hv).
  destruct (nth_error (s_values s) c) as [[v'|]|] eqn:Hn; try discriminate.
  inversion Hr; subst v'.
  rewrite nth_error_set_nth_eq; auto.
  rewrite fold_update_length. apply nth_error_Some. congruence.
Qed.

End StepFacts.

Section TrainFacts.
Context {E : Engine}.

Lemma train_unattached m bx bt kp :
  _trainOp m = None ->
  train bx bt kp m = (inl (ValueError "Training algorithm has not been set."), m).
Proof.
  intro H. unfold train. run. now rewrite H.
Qed.

Lemma train_attached m bx bt kp op :
  _trainOp m = Some op ->
  train bx bt kp m =
  match _sess m with
  | None => (inl AttributeError, m)
  | Some s =>
      match sess_run_train s op (train_feed m bx bt kp) with
      | inr s' => (inr tt, set_sess (Some s') m)
      | inl e => (inl e, m)
      end
  end.
Proof.
  intro H. unfold train, the_session, train_feed. run. rewrite H.
  destruct (_sess m) as [s|]; simpl; auto.
Qed.

Lemma ready_to_train_run m bx bt kp :
  ready_to_train m = true ->
  exists op s, _trainOp m = Some op /\ _sess m = Some s /\
    sess_run_train s op (train_feed m bx bt kp)
    = inr (mk_session (apply_step op (train_feed m bx bt kp) s)
                      (update_slots op (train_feed m bx bt kp) s)).
Proof.
  unfold ready_to_train. intro H.
  destruct (_trainOp m) as [op|] eqn:Hop; try discriminate.
  destruct (_sess m) as [s|] eqn:Hs; try discriminate.
  destruct (_input m) as [i|] eqn:Hi; try discriminate.
  destruct (_target m) as [t|] eqn:Ht; try discriminate.
  destruct (_keep_prob m) as [k|] eqn:Hk; try discriminate.
  exists op, s. repeat split; auto.
  unfold sess_run_train, train_feed. rewrite Hi, Ht, Hk. simpl feed_ok. cbv iota.
  now rewrite H.
Qed.

Lemma train_same_but_session m bx bt kp :
  same_but_session m (snd (train bx bt kp m)).
Proof.
  unfold same_but_session.
  destruct (_trainOp m) as [op|] eqn:Hop.
  - rewrite (train_attached _ _ _ _ _ Hop).
    destruct (_sess m) as [s|]; simpl; auto.
    destruct (sess_run_train s op _); simpl; auto.
  - now rewrite train_unattached.
Qed.

Lemma same_but_session_fields m m' :
  same_but_session m m' ->
  _graph m = _graph m' /\ _trainOp m = _trainOp m' /\ _loss m = _loss m' /\
  _accuracy m = _accuracy m' /\ _output m = _output m' /\ _logit m = _logit m' /\
  _fw_signals m = _fw_signals m' /\ _nn_weights m = _nn_weights m' /\
  _nn_biases m = _nn_biases m' /\ _layer_types m = _layer_types m'.
Proof.
  unfold same_but_session, set_sess. intro H. inversion H. repeat split; auto.
Qed.

Lemma same_but_session_trans m1 m2 m3 :
  same_but_session m1 m2 -> same_but_session m2 m3 -> same_but_session m1 m3.
Proof. unfold same_but_session. congruence. Qed.

Lemma train_all_same_but_session batches : forall m,
  same_but_session m (train_all batches m).
Proof.
  induction batches as [|[[bx bt] kp] rest IH]; intros m; simpl.
  - reflexivity.
  - eapply same_but_session_trans; [apply train_same_but_session | apply IH].
Qed.

(** What one call leaves of the stored values. *)
Lemma train_frame m bx bt kp op s :
  _trainOp m = Some op -> _sess m = Some s ->
  exists s', _sess (snd (train bx bt kp m)) = Some s' /\
    forall id, ~ In (Var id) (op_var_list op) -> Var id <> op_global_step op ->
      nth_error (s_values s') id = nth_error (s_values s) id.
Proof.
  intros Hop Hs. rewrite (train_attached _ _ _ _ _ Hop), Hs.
  unfold sess_run_train.
  destruct (feed_ok _); [destruct (forallb _ _)|]; simpl.
  - eexists; split; [reflexivity|]. intros id H1 H2. simpl. now apply apply_step_frame.
  - exists s; auto.
  - exists s; auto.
Qed.

Lemma train_all_frame batches : forall m op s,
  _trainOp m = Some op -> _sess m = Some s ->
  exists s', _sess (train_all batches m) = Some s' /\
    forall id, ~ In (Var id) (op_var_list op) -> Var id <> op_global_step op ->
      nth_error (s_values s') id = nth_error (s_values s) id.
Proof.
  induction batches as [|[[bx bt] kp] rest IH]; intros m op s Hop Hs; simpl.
  - exists s; auto.
  - destruct (train_frame m bx bt kp op s Hop Hs) as (s1 & Hs1 & F1).
    assert (Hop1 : _trainOp (snd (train bx bt kp m)) = Some op).
    { destruct (same_but_session_fields _ _ (train_same_but_session m bx bt kp))
        as (_ & H & _). congruence. }
    destruct (IH _ op s1 Hop1 Hs1) as (s' & Hs' & F').
    exists s'; split; auto. intros id H1 H2. rewrite F' by auto. now apply F1.
Qed.

End TrainFacts.

(** ** The masked layer *)

Lemma masked_layer_run x weight bias weight_mask bias_mask func m g :
  _graph m = Some g ->
  let wid := List.length (g_variables g) in
  let r := _add_masked_fully_connected_layer x weight bias weight_mask bias_mask func m in
  fst r = inr (apply_activation func
                 (Add (MatMul x (Multiply (Var wid) (Constant weight_mask)))
                      (Multiply (Var (S wid)) (Constant bias_mask)))) /\
  _nn_weights (snd r) = _nn_weights m ++ [Var wid] /\
  _nn_biases (snd r) = _nn_biases m ++ [Var (S wid)] /\
  _fw_signals (snd r) = _fw_signals m ++ [Some x] /\
  _graph (snd r) = Some (mk_graph (g_variables g ++ [weight; bias]) (g_placeholders g)).
Proof.
  intros Hg. unfold _add_masked_fully_connected_layer, tf_Variable, apply_activation.
  run. rewrite Hg. simpl.
  rewrite length_app, Nat.add_1_r, <- app_assoc. simpl.
  destruct (String.eqb func "relu"); [|destruct (String.eqb func "softmax")];
    simpl; repeat split; reflexivity.
Qed.


Lemma zip_with_nth {A B C : Type} (f : A -> B -> C) (l : list A) : forall l' i c,
  nth_error (zip_with f l l') i = Some c ->
  exists a b, nth_error l i = Some a /\ nth_error l' i = Some b /\ c = f a b.
Proof.
  induction l as [|a l IH]; intros [|b l'] [|i] c H; simpl in *; try discriminate.
  - inversion H. eauto.
  - eauto.
Qed.

Lemma shape_eqb_refl s : shape_eqb s s = true.
Proof. unfold shape_eqb. destruct (list_eq_dec Nat.eq_dec s s); congruence. Qed.

Section MaskFacts.
Context {E : Engine}.

Lemma tf_multiply_same_shape v mask :
  shape v = shape mask ->
  tf_multiply v mask = mk_ndarray (shape v) (zip_with Qmult (data v) (data mask)).
Proof.
  intro H. unfold tf_multiply, elementwise. now rewrite H, shape_eqb_refl.
Qed.

Lemma masked_entry_zero v mask i k q :
  shape v = shape mask ->
  nth_error (data mask) i = Some k -> (k == 0)%Q ->
  nth_error (data (tf_multiply v mask)) i = Some q -> (q == 0)%Q.
Proof.
  intros Hs Hk Hz Hq. rewrite tf_multiply_same_shape in Hq by assumption. simpl in Hq.
  destruct (zip_with_nth _ _ _ _ _ Hq) as (a & b & Ha & Hb & ->).
  rewrite Hk in Hb. inversion Hb; subst b. rewrite Hz. ring.
Qed.

Lemma eval_apply_activation s fd func pre v :
  eval s fd pre = inr v ->
  eval s fd (apply_activation func pre) = inr (activation_value func v).
Proof.
  intro H. unfold apply_activation, activation_value.
  destruct (String.eqb func "relu"); [|destruct (String.eqb func "softmax")];
    simpl; rewrite H; reflexivity.
Qed.

End MaskFacts.

(** ** Attaching an optimizer *)

Lemma create_optimizer_no_graph sel lr dr ds m :
  _graph m = None -> create_optimizer sel lr dr ds m = (inl AttributeError, m).
Proof.
  intro H. unfold create_optimizer, as_default. run. now rewrite H.
Qed.

Lemma create_optimizer_run sel lr dr ds m g :
  _graph m = Some g ->
  create_optimizer sel lr dr ds m =
  let m1 := with_schedule lr dr ds g m in
  match choose_optimizer sel with
  | None => (inl (ValueError "Unknown training algorithm."), m1)
  | Some alg =>
      match _loss m, _nn_weights m ++ _nn_biases m with
      | Some l, v :: vs =>
          (inr tt,
           set_gradients (Some (map (fun v => (l, v)) (v :: vs)))
             (set_trainOp
                (Some (mk_train_op alg
                         (ExponentialDecay lr (Var (List.length (g_variables g))) ds dr)
                         l (v :: vs) (Var (List.length (g_variables g)))))
                m1))
      | _, _ => (inl EngineError, m1)
      end
  end.
Proof.
  intro Hg. unfold create_optimizer, as_default, tf_Variable, with_schedule. run.
  repeat (rewrite Hg; simpl).
  destruct (choose_optimizer sel); simpl; auto.
  destruct (_loss m); simpl; auto.
  destruct (_nn_weights m ++ _nn_biases m); simpl; auto.
Qed.

Lemma create_optimizer_var_list sel lr dr ds m :
  fst (create_optimizer sel lr dr ds m) = inr tt ->
  exists op, _trainOp (snd (create_optimizer sel lr dr ds m)) = Some op /\
             op_var_list op = _nn_weights m ++ _nn_biases m.
Proof.
  destruct (_graph m) as [g|] eqn:Hg.
  - rewrite (create_optimizer_run _ _ _ _ _ _ Hg). cbv zeta.
    destruct (choose_optimizer sel); simpl; try discriminate.
    destruct (_loss m); simpl; try discriminate.
    destruct (_nn_weights m ++ _nn_biases m) eqn:Hv; simpl; try discriminate.
    intros _. eexists; split; reflexivity.
  - rewrite create_optimizer_no_graph by assumption. discriminate.
Qed.

(** C2 as stated fails: one [train] call on a ready model changes the
    stored value of variable 2, the optimizer's step counter, which is
    neither a weight nor a bias. *)
Lemma train_changes_the_step_counter :
  ~ only_weights_and_biases_change
      pruned_ready
      (after (train (E := StandInEngine) batch2 target_same 1) pruned_ready).
Proof.
  intro H.
  specialize (H (mk_session [Some w_init; Some b_zero; Some (scalar 0)] [])
                (mk_session [Some (mk_ndarray [2; 2] [1 / 2; 7 / 2; 0 / 2; 1 / 2]%Q);
                             Some (mk_ndarray [2] [0 / 2; 0 / 2]%Q);
                             Some (assign_add (scalar 0) 1)] [])
                2 eq_refl eq_refl).
  assert (Hne : nth_error [Some (mk_ndarray [2; 2] [1 / 2; 7 / 2; 0 / 2; 1 / 2]%Q);
                            Some (mk_ndarray [2] [0 / 2; 0 / 2]%Q);
                            Some (assign_add (scalar 0) 1)] 2
                 <> nth_error [Some w_init; Some b_zero; Some (scalar 0)] 2)
    by discriminate.
  destruct (H Hne) as [H0|[H0|[]]]; discriminate.
Qed.

(** C3 as stated fails: with an optimizer attached and no session created,
    [train] raises an attribute error and performs no step. *)
Lemma train_with_optimizer_without_session :
  ~ train_steps_when_attached (E := StandInEngine)
      pruned_with_optimizer batch2 target_same 1.
Proof.
  intro H. assert (Hop : _trainOp pruned_with_optimizer <> None) by discriminate.
  specialize (H Hop). discriminate H.
Qed.

(** ** Unrecognized selectors *)

Lemma choose_optimizer_unrecognized sel :
  ~ In sel recognized_selectors -> choose_optimizer sel = None.
Proof.
  intro H. unfold choose_optimizer, selects.
  destruct sel as [z|s].
  - repeat match goal with
           | |- context [Z.eqb z ?k] =>
               destruct (Z.eqb_spec z k);
               [exfalso; apply H; subst; simpl; tauto|]
           end.
    reflexivity.
  - repeat match goal with
           | |- context [String.eqb s ?k] =>
               destruct (String.eqb_spec s k);
               [exfalso; apply H; subst; simpl; tauto|]
           end.
    reflexivity.
Qed.

Lemma choose_optimizer_recognized sel :
  In sel recognized_selectors -> choose_optimizer sel <> None.
Proof.
  simpl. intros H.
  repeat (destruct H as [H|H]; [subst sel; discriminate|]). destruct H.
Qed.

Section SelectorClaim.
Context {E : Engine}.

Lemma compute_accuracy_with_schedule lr dr ds g m x t :
  fst (compute_accuracy x t (with_schedule lr dr ds g m)) = fst (compute_accuracy x t m).
Proof.
  unfold compute_accuracy, the_session, with_schedule. run.
  destruct (_sess m); reflexivity.
Qed.

Lemma get_fw_signals_with_schedule lr dr ds g m x :
  fst (get_fw_signals x (with_schedule lr dr ds g m)) = fst (get_fw_signals x m).
Proof.
  unfold get_fw_signals, with_schedule. run.
  destruct (_sess m); reflexivity.
Qed.

(** C4. On a model whose network has been built, [create_optimizer] with a
    selector that is none of the five names and none of the ordinals 0 to 4
    fails with the invalid-configuration error; the failed call leaves the
    loss, the accuracy, the forward signals, the output, the logit, the
    placeholders, the session and the parameter lists as they were and
    attaches no training operation, so [compute_accuracy] and
    [get_fw_signals] answer as they did before. *)
Theorem unrecognized_selector_is_rejected
    (training_algorithm : selector) (learning_rate decay_rate decay_step : Q)
    (m : model) (g : graph) :
  _graph m = Some g ->
  ~ In training_algorithm recognized_selectors ->
  let r := create_optimizer training_algorithm learning_rate decay_rate decay_step m in
  fst r = inl (ValueError "Unknown training algorithm.") /\
  snd r = with_schedule learning_rate decay_rate decay_step g m /\
  _loss (snd r) = _loss m /\ _accuracy (snd r) = _accuracy m /\
  _fw_signals (snd r) = _fw_signals m /\ _output (snd r) = _output m /\
  _logit (snd r) = _logit m /\ _input (snd r) = _input m /\
  _target (snd r) = _target m /\ _keep_prob (snd r) = _keep_prob m /\
  _sess (snd r) = _sess m /\ _trainOp (snd r) = _trainOp m /\
  _nn_weights (snd r) = _nn_weights m /\ _nn_biases (snd r) = _nn_biases m /\
  (forall x target, fst (compute_accuracy x target (snd r)) = fst (compute_accuracy x target m)) /\
  (forall x, fst (get_fw_signals x (snd r)) = fst (get_fw_signals x m)).
Proof.
  intros Hg Hsel r. unfold r.
  rewrite (create_optimizer_run _ _ _ _ _ _ Hg).
  rewrite (choose_optimizer_unrecognized _ Hsel). cbv zeta. simpl fst. simpl snd.
  repeat split; try reflexivity.
  - intros x t. apply compute_accuracy_with_schedule.
  - intros x. apply get_fw_signals_with_schedule.
Qed.

End SelectorClaim.

Lemma unrecognized_selector_is_rejected_witness :
  _graph pruned_ready = Some (mk_graph [w_init; b_zero; scalar 0]
                                [(PhInput, Some [None; Some 2]);
                                 (PhTarget, Some [None; Some 2]);
                                 (PhKeepProb, None)]) /\
  ~ In (SelStr "Foo") recognized_selectors /\
  fst (create_optimizer (SelStr "Foo") (1 # 100) (95 # 100) 100 pruned_ready)
  = inl (ValueError "Unknown training algorithm.") /\
  fst (compute_accuracy (E := StandInEngine) batch2 target_same
         (after (create_optimizer (SelStr "Foo") (1 # 100) (95 # 100) 100) pruned_ready))
  = fst (compute_accuracy (E := StandInEngine) batch2 target_same pruned_ready).
Proof.
  assert (Hsel : ~ In (SelStr "Foo") recognized_selectors).
  { simpl. intros H. repeat (destruct H as [H|H]; [discriminate H|]). destruct H. }
  split; [reflexivity|]. split; [exact Hsel|].
  destruct (unrecognized_selector_is_rejected (E := StandInEngine)
              (SelStr "Foo") (1 # 100)%Q (95 # 100)%Q 100%Q pruned_ready _ eq_refl Hsel)
    as (H1 & _ & _ & _ & _ & _ & _ & _ & _ & _ & _ & _ & _ & _ & H15 & _).
  split; [exact H1 | apply H15].
Defined.

(** ** The unmasked path of the pruned model *)

(** C9. When [weight_masks] is [None], [create_network] of the pruned
    model calls the base class's function with two positional arguments
    and no instance, so the function receives [initial_weights] as its
    receiver and [initial_biases] as its weights; the model is not among
    the arguments, and whatever the function does, the model comes out of
    the call as it went in: no graph, no layer and no signal is built on
    it. *)
Theorem unmasked_path_passes_no_model
    (base_create_network : option (list ndarray) -> option (list ndarray) -> exn + unit)
    (initial_weights initial_biases bias_masks : option (list ndarray)) (m : model) :
  let r := PrunedFCSoftmaxModel_create_network base_create_network
             initial_weights initial_biases None bias_masks m in
  fst r = base_create_network initial_weights initial_biases /\
  snd r = m /\
  _graph (snd r) = _graph m /\ _output (snd r) = _output m /\
  _nn_weights (snd r) = _nn_weights m /\ _fw_signals (snd r) = _fw_signals m.
Proof.
  cbv zeta. unfold PrunedFCSoftmaxModel_create_network, lift. simpl.
  repeat split; reflexivity.
Qed.

(** ** Running a method body *)

Lemma bind_inr {A B : Type} (c : M A) (k : A -> M B) m b m' :
  bind c k m = (inr b, m') ->
  exists a m1, c m = (inr a, m1) /\ k a m1 = (inr b, m').
Proof.
  unfold bind. destruct (c m) as [[e|a] m1]; [discriminate|]. eauto.
Qed.

Lemma lift_inr {A : Type} (r : exn + A) m a m' :
  lift r m = (inr a, m') -> r = inr a /\ m' = m.
Proof. unfold lift. intro H. inversion H. auto. Qed.

Lemma ret_inr {A : Type} (a : A) m b m' :
  ret a m = (inr b, m') -> b = a /\ m' = m.
Proof. unfold ret. intro H. inversion H. auto. Qed.

Lemma modify_inr f m u m' :
  modify f m = (inr u, m') -> m' = f m.
Proof. unfold modify. intro H. inversion H. auto. Qed.

Lemma get_inr {A : Type} (f : model -> A) m a m' :
  get f m = (inr a, m') -> a = f m /\ m' = m.
Proof. unfold get. intro H. inversion H. auto. Qed.

(** Takes a successful run apart, call by call. *)
Ltac unbind H :=
  repeat match type of H with
         | bind _ _ _ = (inr _, _) =>
             let a := fresh "a" in
             let m1 := fresh "m" in
             let H1 := fresh "Hc" in
             apply bind_inr in H; destruct H as (a & m1 & H1 & H)
         end.

Lemma py_getitem_nat {A : Type} (l : list A) (n : nat) :
  py_getitem l (Z.of_nat n)
  = match nth_error l n with
    | Some a => inr a
    | None => inl IndexError
    end.
Proof.
  unfold py_getitem.
  destruct (Z.ltb_spec (Z.of_nat n) 0); [lia|].
  destruct (Z.ltb_spec (Z.of_nat n) 0); [lia|].
  now rewrite Nat2Z.id.
Qed.

Lemma py_getitem_last {A : Type} (l : list A) (z : A) :
  py_getitem (l ++ [z]) (Z.of_nat 0 - 1) = inr z.
Proof.
  unfold py_getitem. rewrite length_app. simpl List.length.
  replace (Z.of_nat 0 - 1)%Z with (-1)%Z by lia.
  destruct (Z.ltb_spec (-1) 0); [|lia].
  destruct (Z.ltb_spec (Z.of_nat (List.length l + 1) + -1) 0); [lia|].
  replace (Z.to_nat (Z.of_nat (List.length l + 1) + -1)) with (List.length l) by lia.
  rewrite nth_error_app2 by lia. now rewrite Nat.sub_diag.
Qed.

(** The loop over [seq a k] keeps an invariant indexed by the position. *)
Lemma for_each_seq_invariant {X : Type} (body : nat -> X -> M X)
    (P : nat -> X -> model -> Prop) :
  forall k a x m x' m',
    (forall i y n y' n', a <= i < a + k -> P i y n ->
       body i y n = (inr y', n') -> P (S i) y' n') ->
    P a x m ->
    for_each body (seq a k) x m = (inr x', m') ->
    P (a + k) x' m'.
Proof.
  induction k as [|k IH]; intros a x m x' m' Hstep Ha Hrun; simpl in Hrun.
  - apply ret_inr in Hrun as [-> ->]. now rewrite Nat.add_0_r.
  - apply bind_inr in Hrun as (y & n & Hb & Hrun).
    replace (a + S k) with (S a + k) by lia.
    apply (IH (S a) y n x' m').
    + intros i z p z' p' Hi. apply Hstep. lia.
    + apply (Hstep a x m y n); [lia | assumption | assumption].
    + exact Hrun.
Qed.

(** A relation every iteration keeps, whether it returns or raises, holds
    across the loop. *)
Lemma for_each_preserves {I X : Type} (body : I -> X -> M X)
    (R : model -> model -> Prop) :
  (forall m, R m m) ->
  (forall m1 m2 m3, R m1 m2 -> R m2 m3 -> R m1 m3) ->
  (forall i x m, R m (snd (body i x m))) ->
  forall l x m, R m (snd (for_each body l x m)).
Proof.
  intros Hrefl Htrans Hbody. induction l as [|i l IH]; intros x m; simpl.
  - apply Hrefl.
  - unfold bind. pose proof (Hbody i x m) as Hi.
    destruct (body i x m) as [[e|y] m1]; simpl in *.
    + exact Hi.
    + eapply Htrans; [exact Hi | apply IH].
Qed.

(** ** The layer builders *)

Lemma add_fully_connected_layer_inr x weight bias func m x' m' :
  _add_fully_connected_layer x weight bias func m = (inr x', m') ->
  exists g,
    _graph m = Some g /\
    x' = apply_activation func
           (Add (MatMul x (Var (List.length (g_variables g))))
                (Var (S (List.length (g_variables g))))) /\
    _graph m' = Some (mk_graph (g_variables g ++ [weight; bias]) (g_placeholders g)) /\
    _fw_signals m' = _fw_signals m ++ [Some x] /\
    _nn_weights m' = _nn_weights m ++ [Var (List.length (g_variables g))] /\
    _nn_biases m' = _nn_biases m ++ [Var (S (List.length (g_variables g)))] /\
    _logit m' = (if String.eqb func "relu" then _logit m
                 else if String.eqb func "softmax"
                      then Some (Add (MatMul x (Var (List.length (g_variables g))))
                                     (Var (S (List.length (g_variables g)))))
                      else _logit m).
Proof.
  unfold _add_fully_connected_layer, tf_Variable, apply_activation. run.
  destruct (_graph m) as [g|] eqn:Hg; simpl; [|discriminate].
  rewrite length_app, Nat.add_1_r, <- app_assoc. simpl.
  destruct (String.eqb func "relu"); [|destruct (String.eqb func "softmax")];
    simpl; intro H; inversion H; exists g; repeat split; reflexivity.
Qed.

Lemma add_convolution_layer_inr x weight bias pool m x' m' :
  _add_convolution_layer x weight bias pool m = (inr x', m') ->
  exists g,
    _graph m = Some g /\
    x' = (let output := Relu (Add (Conv2d x (Var (List.length (g_variables g))))
                                  (Var (S (List.length (g_variables g))))) in
          if 1 <? pool then MaxPool output pool else output) /\
    _graph m' = Some (mk_graph (g_variables g ++ [weight; bias]) (g_placeholders g)) /\
    _fw_signals m' = _fw_signals m ++ [Some x] /\
    _nn_weights m' = _nn_weights m ++ [Var (List.length (g_variables g))] /\
    _nn_biases m' = _nn_biases m ++ [Var (S (List.length (g_variables g)))] /\
    _logit m' = _logit m.
Proof.
  unfold _add_convolution_layer, tf_Variable. run.
  destruct (_graph m) as [g|] eqn:Hg; simpl; [|discriminate].
  rewrite length_app, Nat.add_1_r, <- app_assoc. simpl.
  intro H; inversion H; exists g; repeat split; reflexivity.
Qed.

Lemma add_masked_fully_connected_layer_inr x weight bias wm bm func m x' m' :
  _add_masked_fully_connected_layer x weight bias wm bm func m = (inr x', m') ->
  exists g,
    _graph m = Some g /\
    x' = apply_activation func
           (Add (MatMul x (Multiply (Var (List.length (g_variables g))) (Constant wm)))
                (Multiply (Var (S (List.length (g_variables g)))) (Constant bm))) /\
    _graph m' = Some (mk_graph (g_variables g ++ [weight; bias]) (g_placeholders g)) /\
    _fw_signals m' = _fw_signals m ++ [Some x] /\
    _nn_weights m' = _nn_weights m ++ [Var (List.length (g_variables g))] /\
    _nn_biases m' = _nn_biases m ++ [Var (S (List.length (g_variables g)))] /\
    _logit m' = (if String.eqb func "relu" then _logit m
                 else if String.eqb func "softmax"
                      then Some (Add (MatMul x (Multiply (Var (List.length (g_variables g)))
                                                         (Constant wm)))
                                     (Multiply (Var (S (List.length (g_variables g))))
                                               (Constant bm)))
                      else _logit m).
Proof.
  unfold _add_masked_fully_connected_layer, tf_Variable, apply_activation. run.
  destruct (_graph m) as [g|] eqn:Hg; simpl; [|discriminate].
  rewrite length_app, Nat.add_1_r, <- app_assoc. simpl.
  destruct (String.eqb func "relu"); [|destruct (String.eqb func "softmax")];
    simpl; intro H; inversion H; exists g; repeat split; reflexivity.
Qed.

(** ** Reading layers *)

Lemma set_last_activation_snoc a l v :
  set_last_activation a (l ++ [v]) = l ++ [mk_layer_view (lv_kind v) a (lv_dropout v)].
Proof.
  induction l as [|u l IH]; simpl; auto.
  rewrite IH. destruct l; simpl; reflexivity.
Qed.

Ltac unlift :=
  repeat match goal with
         | H : lift _ _ = (inr _, _) |- _ =>
             apply lift_inr in H; destruct H as [H ->]
         | H : ret _ _ = (inr _, _) |- _ =>
             apply ret_inr in H; destruct H as [-> ->]
         end.

(** ** One iteration of the convolutional assembly *)

(** What one iteration that returns has done: the signal gained the views
    of position [n], the trace gained one input per layer built, and the
    logit was set exactly when the position is the last one and holds a
    fully-connected layer. *)
Lemma lenet_layer_inr iw ib lts num kp n x m x' m' :
  lenet_layer iw ib lts num kp n x m = (inr x', m') ->
  dropout_of x = None ->
  layers_of x' = layers_of x ++ layer_views (Placeholder kp) lts num n /\
  dropout_of x' = None /\
  (exists ins ws,
     _fw_signals m' = _fw_signals m ++ map Some ins /\
     _nn_weights m' = _nn_weights m ++ ws /\ List.length ins = List.length ws) /\
  ((_logit m' = _logit m /\ ~ (n = num - 1 /\ nth_error lts n = Some "fc"%string)) \/
   (n = num - 1 /\ nth_error lts n = Some "fc"%string /\
    exists pre, _logit m' = Some pre /\ x' = Softmax pre)).
Proof.
  unfold lenet_layer, layer_views, kind_of. intros H Hx.
  apply bind_inr in H as (ty & m1 & Hty & H).
  apply lift_inr in Hty as [Hty ->]. rewrite py_getitem_nat in Hty.
  destruct (nth_error lts n) as [ty'|] eqn:Hn; [|discriminate].
  inversion Hty; subst ty'; clear Hty.
  destruct (String.eqb_spec ty "conv") as [Hconv|Hconv].
  - (* a convolutional layer *)
    unbind H.
    apply lift_inr in Hc as [_ ->]. apply lift_inr in Hc0 as [_ ->].
    apply add_convolution_layer_inr in H as (g & Hg & -> & _ & Hfw & Hw & _ & Hl).
    simpl. rewrite set_last_activation_snoc, Hx. simpl.
    repeat split; auto.
    + exists [x], [Var (List.length (g_variables g))]. auto.
    + left. split; auto. intros [_ Hfc]. subst ty. discriminate.
  - destruct (String.eqb_spec ty "fc") as [Hfc|Hfc].
    + (* a fully-connected layer *)
      unbind H.
      apply lift_inr in Hc as [_ ->].
      apply lift_inr in Hc1 as [_ ->]. apply lift_inr in Hc2 as [_ ->].
      assert (Hx1 : layers_of a0 = layers_of x /\ m1 = m).
      { destruct (String.eqb a "conv").
        - unbind Hc0. unlift. auto.
        - unlift. auto. }
      destruct Hx1 as [Hx1 ->].
      destruct (Nat.eqb_spec n (num - 1)) as [Hlast|Hlast].
      * apply add_fully_connected_layer_inr in H as (g & Hg & -> & _ & Hfw & Hw & _ & Hl).
        simpl in *. rewrite set_last_activation_snoc, Hx1. simpl.
        repeat split; auto.
        -- eexists [_], [_]. eauto.
        -- right. subst ty. repeat split; auto. eauto.
      * apply add_fully_connected_layer_inr in H as (g & Hg & -> & _ & Hfw & Hw & _ & Hl).
        simpl in *. rewrite set_last_activation_snoc, Hx1. simpl.
        repeat split; auto.
        -- eexists [_], [_]. eauto.
        -- left. split; auto. intros [Hn' _]. contradiction.
    + (* any other string builds nothing *)
      apply ret_inr in H as [-> ->]. rewrite app_nil_r.
      repeat split; auto.
      * exists [], []. rewrite !app_nil_r. auto.
      * left. split; auto. intros [_ Hf]. congruence.
Qed.

(** ** The whole assembly *)

Lemma flat_map_seq_S {A : Type} (f : nat -> list A) n :
  flat_map f (seq 0 (S n)) = flat_map f (seq 0 n) ++ f n.
Proof.
  rewrite seq_S, flat_map_app. simpl. now rewrite app_nil_r.
Qed.

Lemma lenet_loop_inr iw ib lts kp x m x' m' :
  for_each (lenet_layer iw ib lts (List.length lts) kp) (range (List.length lts)) x m
  = (inr x', m') ->
  layers_of x = [] -> dropout_of x = None ->
  _fw_signals m = [] -> _nn_weights m = [] -> _logit m = None ->
  assembly_invariant (layer_views (Placeholder kp) lts (List.length lts))
    (nth_error lts (List.length lts - 1) = Some "fc"%string)
    (List.length lts) (List.length lts) x' m'.
Proof.
  intros Hrun Hx Hd Hfw Hw Hl. unfold range in Hrun.
  apply (for_each_seq_invariant (lenet_layer iw ib lts (List.length lts) kp)
           (assembly_invariant (layer_views (Placeholder kp) lts (List.length lts))
              (nth_error lts (List.length lts - 1) = Some "fc"%string)
              (List.length lts))
           (List.length lts) 0 x m x' m'); [| |exact Hrun].
  - intros i y n y' n' Hi (Iy & Id & (ins & Ifw & Ilen) & Il) Hb.
    destruct (lenet_layer_inr _ _ _ _ _ _ _ _ _ _ Hb Id)
      as (Hy' & Hd' & (ins' & ws' & Hfw' & Hw' & Hlen') & Hl').
    assert (Iln : _logit n = None) by (destruct Il as [|[? _]]; [assumption | lia]).
    unfold assembly_invariant. rewrite flat_map_seq_S, Hy', Iy.
    repeat split; auto.
    + exists (ins ++ ins'). rewrite Hfw', Ifw, Hw', map_app, !length_app. split; auto.
    + destruct Hl' as [[Hsame _]|(Hlast & Hfc & pre & Hpre & ->)].
      * left. congruence.
      * right. repeat split; try lia.
        -- rewrite <- Hlast. exact Hfc.
        -- eauto.
  - unfold assembly_invariant. simpl. rewrite Hx, Hfw, Hw. repeat split; auto.
    exists []. auto.
Qed.

Lemma wire_outputs_inr v2 target x m m' :
  wire_outputs v2 target x m = (inr tt, m') ->
  exists pre,
    _logit m = Some pre /\
    _output m' = Some x /\ _logit m' = Some pre /\
    _fw_signals m' = _fw_signals m ++ [Some pre; Some x] /\
    _loss m' = Some (ReduceMean (SoftmaxCrossEntropy v2 (Placeholder target) pre)) /\
    _accuracy m' = Some (accuracy_node target pre) /\
    _nn_weights m' = _nn_weights m /\ _nn_biases m' = _nn_biases m /\
    _input m' = _input m /\ _target m' = _target m /\ _keep_prob m' = _keep_prob m /\
    _graph m' = _graph m /\ _sess m' = _sess m /\ _trainOp m' = _trainOp m.
Proof.
  unfold wire_outputs. run.
  destruct (_logit m) as [pre|] eqn:Hl; simpl; [|discriminate].
  intro H; inversion H; subst m'; simpl.
  exists pre. rewrite <- app_assoc. simpl. repeat split; auto.
Qed.

Lemma layer_frame_refl m : layer_frame m m.
Proof.
  unfold layer_frame. repeat split; auto. exists []. now rewrite app_nil_r.
Qed.

Lemma layer_frame_trans m1 m2 m3 :
  layer_frame m1 m2 -> layer_frame m2 m3 -> layer_frame m1 m3.
Proof.
  unfold layer_frame.
  intros (A1 & A2 & A3 & A4 & A5 & A6 & A7 & l & A8) (B1 & B2 & B3 & B4 & B5 & B6 & B7 & l' & B8).
  repeat split; try congruence.
  exists (l ++ l'). rewrite B8, A8. now rewrite app_assoc.
Qed.

(** Splits every test of a method body. *)
Ltac split_body :=
  repeat match goal with
         | |- context [match ?e with _ => _ end] => destruct e eqn:?; simpl
         end.

Ltac frame_done :=
  unfold layer_frame; simpl; repeat split; auto;
  first [ now (exists []; rewrite app_nil_r) | eexists; reflexivity ].

Lemma add_fully_connected_layer_frame x w b func m :
  layer_frame m (snd (_add_fully_connected_layer x w b func m)).
Proof.
  unfold _add_fully_connected_layer, tf_Variable. run.
  destruct (_graph m) as [g|] eqn:Hg; simpl; [|frame_done].
  destruct (String.eqb func "relu"); [|destruct (String.eqb func "softmax")];
    simpl; frame_done.
Qed.

Lemma add_convolution_layer_frame x w b pool m :
  layer_frame m (snd (_add_convolution_layer x w b pool m)).
Proof.
  unfold _add_convolution_layer, tf_Variable. run.
  destruct (_graph m) as [g|] eqn:Hg; simpl; frame_done.
Qed.

Lemma add_masked_fully_connected_layer_frame x w b wm bm func m :
  layer_frame m (snd (_add_masked_fully_connected_layer x w b wm bm func m)).
Proof.
  unfold _add_masked_fully_connected_layer, tf_Variable. run.
  destruct (_graph m) as [g|] eqn:Hg; simpl; [|frame_done].
  destruct (String.eqb func "relu"); [|destruct (String.eqb func "softmax")];
    simpl; frame_done.
Qed.

Lemma lenet_layer_frame iw ib lts num kp n x m :
  layer_frame m (snd (lenet_layer iw ib lts num kp n x m)).
Proof.
  unfold lenet_layer. unfold bind at 1. unfold lift at 1.
  destruct (py_getitem lts (Z.of_nat n)) as [e|ty]; simpl; [apply layer_frame_refl|].
  destruct (String.eqb ty "conv").
  - unfold bind at 1. unfold lift at 1.
    destruct (py_getitem iw (Z.of_nat n)) as [e|w]; simpl; [apply layer_frame_refl|].
    unfold bind at 1. unfold lift at 1.
    destruct (py_getitem_opt ib (Z.of_nat n)) as [e|b]; simpl; [apply layer_frame_refl|].
    apply add_convolution_layer_frame.
  - destruct (String.eqb ty "fc"); [|apply layer_frame_refl].
    unfold bind at 1. unfold lift at 1.
    destruct (py_getitem lts (Z.of_nat n - 1)) as [e|prev]; simpl; [apply layer_frame_refl|].
    unfold bind at 1.
    assert (Hx1 : forall r, r = (if String.eqb prev "conv"
                  then bind (lift (py_getitem iw (Z.of_nat n)))
                         (fun w => bind (lift (py_getitem (shape w) 0))
                            (fun num_x => ret (Reshape x [(-1)%Z; Z.of_nat num_x])))
                  else ret x) m -> snd r = m).
    { intros r ->. destruct (String.eqb prev "conv"); [|reflexivity].
      run. split_body; reflexivity. }
    match goal with
    | |- context [match ?c m with _ => _ end] =>
        pose proof (Hx1 (c m) eq_refl) as Hm; destruct (c m) as [[e|x1] m1]
    end; simpl in Hm; subst m1; [apply layer_frame_refl|].
    unfold bind at 1. unfold lift at 1.
    destruct (py_getitem iw (Z.of_nat n)) as [e|w]; simpl; [apply layer_frame_refl|].
    unfold bind at 1. unfold lift at 1.
    destruct (py_getitem_opt ib (Z.of_nat n)) as [e|b]; simpl; [apply layer_frame_refl|].
    destruct (n =? num - 1); apply add_fully_connected_layer_frame.
Qed.

Lemma lenet_loop_frame iw ib lts num kp l x m :
  layer_frame m (snd (for_each (lenet_layer iw ib lts num kp) l x m)).
Proof.
  apply for_each_preserves.
  - apply layer_frame_refl.
  - apply layer_frame_trans.
  - intros. apply lenet_layer_frame.
Qed.

Lemma create_initialized_network_unfold iw ib lts m :
  _create_initialized_network iw ib (Some lts) m
  = bind (for_each (lenet_layer iw ib lts (List.length lts) PhKeepProb)
            (range (List.length lts))
            (Reshape (Placeholder PhInput) [(-1)%Z; 28%Z; 28%Z; 1%Z]))
         (wire_outputs true PhTarget)
         (assembly_start (Some [None; Some 784]) (Some [None; Some 10]) lts m).
Proof. reflexivity. Qed.

(** What a convolutional assembly that returns has built. *)
Lemma create_initialized_network_inr iw ib lts m m' :
  _create_initialized_network iw ib (Some lts) m = (inr tt, m') ->
  _logit m = None ->
  exists out pre ins,
    _output m' = Some out /\ _logit m' = Some pre /\ out = Softmax pre /\
    layers_of out
    = flat_map (layer_views (Placeholder PhKeepProb) lts (List.length lts))
               (seq 0 (List.length lts)) /\
    0 < List.length lts /\
    nth_error lts (List.length lts - 1) = Some "fc"%string /\
    _fw_signals m' = map Some ins ++ [Some pre; Some out] /\
    List.length ins = List.length (_nn_weights m') /\
    _accuracy m' = Some (accuracy_node PhTarget pre) /\
    _input m' = Some PhInput /\ _target m' = Some PhTarget /\
    _keep_prob m' = Some PhKeepProb.
Proof.
  rewrite create_initialized_network_unfold. intros H Hl.
  apply bind_inr in H as (x & m1 & Hloop & H).
  pose proof (lenet_loop_frame iw ib lts (List.length lts) PhKeepProb
                (range (List.length lts))
                (Reshape (Placeholder PhInput) [(-1)%Z; 28%Z; 28%Z; 1%Z])
                (assembly_start (Some [None; Some 784]) (Some [None; Some 10]) lts m))
    as Hframe.
  rewrite Hloop in Hframe. destruct Hframe as (_ & Fi & Ft & Fk & _). simpl in Fi, Ft, Fk.
  apply lenet_loop_inr in Hloop; auto.
  destruct Hloop as (Hy & _ & (ins & Hfw & Hlen) & Hlog).
  apply wire_outputs_inr in H
    as (pre & Hpre & Hout & Hlogit & Hfw' & _ & Hacc & Hw & _ & Hi & Ht & Hk & _).
  destruct Hlog as [Hnone|(_ & Hpos & Hfc & pre' & Hpre' & ->)]; [congruence|].
  assert (pre' = pre) by congruence. subst pre'.
  exists (Softmax pre), pre, ins.
  rewrite Hfw', Hfw, Hw, Hi, Ht, Hk.
  repeat split; auto.
Qed.

(** ** The masked assembly *)

Lemma nth_error_repeat_fc num n :
  n < num -> nth_error (repeat "fc"%string num) n = Some "fc"%string.
Proof. intro H. now apply nth_error_repeat. Qed.

Lemma masked_layer_inr iw ib wm bm num kp n x m x' m' :
  masked_layer iw ib wm bm num kp n x m = (inr x', m') ->
  n < num ->
  layers_of x' = layers_of x ++ layer_views (Placeholder kp) (repeat "fc"%string num) num n /\
  dropout_of x' = None /\
  (exists ins ws,
     _fw_signals m' = _fw_signals m ++ map Some ins /\
     _nn_weights m' = _nn_weights m ++ ws /\ List.length ins = List.length ws) /\
  ((_logit m' = _logit m /\ n <> num - 1) \/
   (n = num - 1 /\ exists pre, _logit m' = Some pre /\ x' = Softmax pre)).
Proof.
  unfold masked_layer, layer_views. intros H Hn.
  rewrite (nth_error_repeat_fc _ _ Hn). simpl kind_of. cbv iota.
  unbind H. unlift.
  destruct (Nat.eqb_spec n (num - 1)) as [Hlast|Hlast].
  - apply add_masked_fully_connected_layer_inr in H
      as (g & Hg & -> & _ & Hfw & Hw & _ & Hl).
    simpl in *. rewrite set_last_activation_snoc. simpl.
    repeat split; auto.
    + eexists [_], [_]. eauto.
    + right. split; auto. eauto.
  - apply add_masked_fully_connected_layer_inr in H
      as (g & Hg & -> & _ & Hfw & Hw & _ & Hl).
    simpl in *. rewrite set_last_activation_snoc. simpl.
    repeat split; auto.
    + eexists [_], [_]. eauto.
Qed.

Lemma masked_layer_frame iw ib wm bm num kp n x m :
  layer_frame m (snd (masked_layer iw ib wm bm num kp n x m)).
Proof.
  unfold masked_layer.
  unfold bind at 1. unfold lift at 1.
  destruct (py_getitem_opt iw (Z.of_nat n)) as [e|w]; simpl; [apply layer_frame_refl|].
  unfold bind at 1. unfold lift at 1.
  destruct (py_getitem_opt ib (Z.of_nat n)) as [e|b]; simpl; [apply layer_frame_refl|].
  unfold bind at 1. unfold lift at 1.
  destruct (py_getitem_opt wm (Z.of_nat n)) as [e|mw]; simpl; [apply layer_frame_refl|].
  unfold bind at 1. unfold lift at 1.
  destruct (py_getitem_opt bm (Z.of_nat n)) as [e|mb]; simpl; [apply layer_frame_refl|].
  destruct (n =? num - 1); apply add_masked_fully_connected_layer_frame.
Qed.

Lemma masked_loop_frame iw ib wm bm num kp l x m :
  layer_frame m (snd (for_each (masked_layer iw ib wm bm num kp) l x m)).
Proof.
  apply for_each_preserves.
  - apply layer_frame_refl.
  - apply layer_frame_trans.
  - intros. apply masked_layer_frame.
Qed.

Lemma masked_loop_inr iw ib wm bm num kp x m x' m' :
  for_each (masked_layer iw ib wm bm num kp) (range num) x m = (inr x', m') ->
  layers_of x = [] -> dropout_of x = None ->
  _fw_signals m = [] -> _nn_weights m = [] -> _logit m = None ->
  assembly_invariant (layer_views (Placeholder kp) (repeat "fc"%string num) num)
    True num num x' m'.
Proof.
  intros Hrun Hx Hd Hfw Hw Hl. unfold range in Hrun.
  apply (for_each_seq_invariant (masked_layer iw ib wm bm num kp)
           (assembly_invariant (layer_views (Placeholder kp) (repeat "fc"%string num) num)
              True num)
           num 0 x m x' m'); [| |exact Hrun].
  - intros i y n y' n' Hi (Iy & Id & (ins & Ifw & Ilen) & Il) Hb.
    assert (Hi' : i < num) by lia.
    destruct (masked_layer_inr _ _ _ _ _ _ _ _ _ _ _ Hb Hi')
      as (Hy' & Hd' & (ins' & ws' & Hfw' & Hw' & Hlen') & Hl').
    assert (Iln : _logit n = None) by (destruct Il as [|[? _]]; [assumption | lia]).
    unfold assembly_invariant. rewrite flat_map_seq_S, Hy', Iy.
    repeat split; auto.
    + exists (ins ++ ins'). rewrite Hfw', Ifw, Hw', map_app, !length_app. split; auto.
    + destruct Hl' as [[Hsame _]|(Hlast & pre & Hpre & ->)].
      * left. congruence.
      * right. repeat split; try lia. eauto.
  - unfold assembly_invariant. simpl. rewrite Hx, Hfw, Hw. repeat split; auto.
    exists []. auto.
Qed.

Lemma create_masked_network_unfold ws ib wm bm m w0 wl input_len output_len :
  py_getitem ws 0 = inr w0 -> py_getitem (shape w0) 0 = inr input_len ->
  py_getitem ws (-1) = inr wl -> py_getitem (shape wl) 1 = inr output_len ->
  _create_masked_network (Some ws) ib wm bm m
  = bind (for_each (masked_layer (Some ws) ib wm bm (List.length ws) PhKeepProb)
            (range (List.length ws)) (Placeholder PhInput))
         (wire_outputs false PhTarget)
         (assembly_start (Some [None; Some input_len]) (Some [None; Some output_len])
            (_layer_types m) m).
Proof.
  intros H1 H2 H3 H4. unfold _create_masked_network.
  unfold bind at 1. unfold modify at 1. unfold bind at 1. unfold modify at 1.
  unfold bind at 1. unfold lift at 1. simpl py_getitem_opt. rewrite H1.
  unfold bind at 1. unfold lift at 1. rewrite H2.
  unfold bind at 1. unfold lift at 1. rewrite H3.
  unfold bind at 1. unfold lift at 1. rewrite H4.
  reflexivity.
Qed.

Lemma create_masked_network_prelude iw ib wm bm m m' :
  _create_masked_network iw ib wm bm m = (inr tt, m') ->
  exists ws w0 wl input_len output_len,
    iw = Some ws /\
    py_getitem ws 0 = inr w0 /\ py_getitem (shape w0) 0 = inr input_len /\
    py_getitem ws (-1) = inr wl /\ py_getitem (shape wl) 1 = inr output_len.
Proof.
  unfold _create_masked_network. intro H.
  apply bind_inr in H as (? & ? & _ & H). apply bind_inr in H as (? & ? & _ & H).
  apply bind_inr in H as (w0 & ? & H1 & H). apply lift_inr in H1 as [H1 ->].
  apply bind_inr in H as (il & ? & H2 & H). apply lift_inr in H2 as [H2 ->].
  apply bind_inr in H as (wl & ? & H3 & H). apply lift_inr in H3 as [H3 ->].
  apply bind_inr in H as (ol & ? & H4 & H). apply lift_inr in H4 as [H4 ->].
  destruct iw as [ws|]; [|discriminate].
  exists ws, w0, wl, il, ol. auto.
Qed.

(** What a masked assembly that returns has built. *)
Lemma create_masked_network_inr iw ib wm bm m m' :
  _create_masked_network iw ib wm bm m = (inr tt, m') ->
  _logit m = None ->
  exists ws out pre ins,
    iw = Some ws /\
    _output m' = Some out /\ _logit m' = Some pre /\ out = Softmax pre /\
    layers_of out
    = flat_map (layer_views (Placeholder PhKeepProb) (repeat "fc"%string (List.length ws))
                  (List.length ws))
               (seq 0 (List.length ws)) /\
    0 < List.length ws /\
    _fw_signals m' = map Some ins ++ [Some pre; Some out] /\
    List.length ins = List.length (_nn_weights m') /\
    _accuracy m' = Some (accuracy_node PhTarget pre) /\
    _input m' = Some PhInput /\ _target m' = Some PhTarget /\
    _keep_prob m' = Some PhKeepProb.
Proof.
  intros H Hl.
  destruct (create_masked_network_prelude _ _ _ _ _ _ H)
    as (ws & w0 & wl & il & ol & -> & H1 & H2 & H3 & H4).
  rewrite (create_masked_network_unfold _ _ _ _ _ _ _ _ _ H1 H2 H3 H4) in H.
  apply bind_inr in H as (x & m1 & Hloop & H).
  pose proof (masked_loop_frame (Some ws) ib wm bm (List.length ws) PhKeepProb
                (range (List.length ws)) (Placeholder PhInput)
                (assembly_start (Some [None; Some il]) (Some [None; Some ol])
                   (_layer_types m) m))
    as Hframe.
  rewrite Hloop in Hframe. destruct Hframe as (_ & Fi & Ft & Fk & _). simpl in Fi, Ft, Fk.
  apply masked_loop_inr in Hloop; auto.
  destruct Hloop as (Hy & _ & (ins & Hfw & Hlen) & Hlog).
  apply wire_outputs_inr in H
    as (pre & Hpre & Hout & Hlogit & Hfw' & _ & Hacc & Hw & _ & Hi & Ht & Hk & _).
  destruct Hlog as [Hnone|(_ & Hpos & _ & pre' & Hpre' & ->)]; [congruence|].
  assert (pre' = pre) by congruence. subst pre'.
  exists ws, (Softmax pre), pre, ins.
  rewrite Hfw', Hfw, Hw, Hi, Ht, Hk.
  repeat split; auto.
Qed.

(** ** The layers of an assembled network *)

Lemma kinds_of_app l l' : kinds_of (l ++ l') = kinds_of l ++ kinds_of l'.
Proof.
  induction l as [|ty l IH]; simpl; auto.
  destruct (kind_of ty); simpl; now rewrite IH.
Qed.

Lemma firstn_snoc {A : Type} (l : list A) : forall n,
  firstn (S n) l
  = firstn n l ++ match nth_error l n with Some a => [a] | None => [] end.
Proof.
  induction l as [|a l IH]; intros [|n]; simpl; auto.
  f_equal. apply IH.
Qed.

Lemma layer_views_kinds kp lts num n :
  map lv_kind (flat_map (layer_views kp lts num) (seq 0 n)) = kinds_of (firstn n lts).
Proof.
  induction n as [|n IH].
  - reflexivity.
  - rewrite flat_map_seq_S, map_app, IH, firstn_snoc, kinds_of_app. f_equal.
    unfold layer_views. destruct (nth_error lts n) as [ty|]; simpl; auto.
    destruct (kind_of ty) as [[|]|]; reflexivity.
Qed.

Lemma layer_views_dropout kp lts num n :
  Forall (dropout_matches_kind kp) (flat_map (layer_views kp lts num) (seq 0 n)).
Proof.
  apply Forall_flat_map. apply Forall_forall. intros i _.
  unfold layer_views. destruct (nth_error lts i) as [ty|]; auto.
  destruct (kind_of ty) as [[|]|]; repeat constructor.
Qed.

Lemma layer_views_relu kp lts num n :
  n <= num - 1 ->
  Forall (fun v => lv_activation v = ReluActivation)
         (flat_map (layer_views kp lts num) (seq 0 n)).
Proof.
  intro Hn. apply Forall_flat_map. apply Forall_forall. intros i Hi.
  apply in_seq in Hi. unfold layer_views.
  destruct (nth_error lts i) as [ty|]; auto.
  destruct (kind_of ty) as [[|]|]; repeat constructor.
  simpl. destruct (Nat.eqb_spec i (num - 1)); [lia | reflexivity].
Qed.

Lemma layer_views_relu_then_softmax kp lts num :
  0 < num -> nth_error lts (num - 1) = Some "fc"%string ->
  relu_then_softmax (flat_map (layer_views kp lts num) (seq 0 num)).
Proof.
  intros Hpos Hfc.
  replace num with (S (num - 1)) at 2 by lia.
  rewrite flat_map_seq_S.
  exists (flat_map (layer_views kp lts num) (seq 0 (num - 1))),
         (mk_layer_view FullyConnected SoftmaxActivation (Some kp)).
  split; [|split].
  - f_equal. unfold layer_views. rewrite Hfc. simpl. now rewrite Nat.eqb_refl.
  - reflexivity.
  - apply layer_views_relu. lia.
Qed.

Lemma kinds_of_repeat_fc n : kinds_of (repeat "fc"%string n) = repeat FullyConnected n.
Proof. induction n; simpl; congruence. Qed.

(** C6. In a network assembly that returns (started on a model whose logit
    is not yet set, as after [__init__]), reading the layers off the
    output: the last layer has the softmax activation and every earlier
    layer relu; the input of each fully-connected layer went through
    dropout at the keep-probability placeholder and the input of no
    convolutional layer did; and the layers are those of the list, in
    order.  This holds for the convolutional assembly and for the masked
    one, whose layers are all fully connected. *)
Theorem assembly_is_relu_then_softmax_with_dropout_before_fc :
  (forall iw ib lts m m',
     _logit m = None ->
     _create_initialized_network iw ib (Some lts) m = (inr tt, m') ->
     exists out,
       _output m' = Some out /\
       relu_then_softmax (layers_of out) /\
       Forall (dropout_matches_kind (Placeholder PhKeepProb)) (layers_of out) /\
       map lv_kind (layers_of out) = kinds_of lts) /\
  (forall iw ib wm bm m m',
     _logit m = None ->
     _create_masked_network iw ib wm bm m = (inr tt, m') ->
     exists ws out,
       iw = Some ws /\ _output m' = Some out /\
       relu_then_softmax (layers_of out) /\
       Forall (dropout_matches_kind (Placeholder PhKeepProb)) (layers_of out) /\
       map lv_kind (layers_of out) = repeat FullyConnected (List.length ws)).
Proof.
  split.
  - intros iw ib lts m m' Hl H.
    destruct (create_initialized_network_inr _ _ _ _ _ H Hl)
      as (out & pre & ins & Hout & _ & _ & Hlay & Hpos & Hfc & _).
    exists out. rewrite Hlay. repeat split; auto.
    + now apply layer_views_relu_then_softmax.
    + apply layer_views_dropout.
    + rewrite layer_views_kinds. now rewrite firstn_all.
  - intros iw ib wm bm m m' Hl H.
    destruct (create_masked_network_inr _ _ _ _ _ _ H Hl)
      as (ws & out & pre & ins & Hiw & Hout & _ & _ & Hlay & Hpos & _).
    exists ws, out. rewrite Hlay. repeat split; auto.
    + apply layer_views_relu_then_softmax; auto.
      apply nth_error_repeat. lia.
    + apply layer_views_dropout.
    + rewrite layer_views_kinds.
      rewrite <- (repeat_length "fc"%string (List.length ws)) at 1.
      rewrite firstn_all. apply kinds_of_repeat_fc.
Qed.

Lemma assembly_is_relu_then_softmax_with_dropout_before_fc_witness :
  (exists out, _output lenet_small = Some out /\
     map lv_kind (layers_of out) = [Convolutional; FullyConnected]) /\
  (exists out, _output pruned_built = Some out /\
     map lv_kind (layers_of out) = [FullyConnected]).
Proof.
  destruct assembly_is_relu_then_softmax_with_dropout_before_fc as [H1 H2].
  assert (R1 : _create_initialized_network
                 [mk_ndarray [5; 5; 1; 2] []; mk_ndarray [4; 2] []]
                 (Some [mk_ndarray [2] []; mk_ndarray [2] []])
                 (Some ["conv"; "fc"]%string) BasicLenetModel
               = (inr tt, lenet_small)) by (vm_compute; reflexivity).
  assert (R2 : _create_masked_network (Some [w_init]) (Some [b_zero])
                 (Some [mask_w]) (Some [mask_b]) PrunedFCSoftmaxModel
               = (inr tt, pruned_built)) by (vm_compute; reflexivity).
  split.
  - destruct (H1 _ _ _ BasicLenetModel _ eq_refl R1) as (out & Hout & _ & _ & Hk).
    exists out. split; [exact Hout | exact Hk].
  - destruct (H2 _ _ _ _ PrunedFCSoftmaxModel _ eq_refl R2) as (ws & out & Hws & Hout & _ & _ & Hk).
    exists out. split; [exact Hout|].
    inversion Hws; subst ws. exact Hk.
Defined.

(** ** The flatten test at the first position *)

Lemma for_each_cons {I X : Type} (body : I -> X -> M X) i l x m :
  for_each body (i :: l) x m
  = match body i x m with
    | (inr y, m1) => for_each body l y m1
    | (inl e, m1) => (inl e, m1)
    end.
Proof. reflexivity. Qed.

Lemma fw_signals_head_kept m m' s :
  layer_frame m m' -> nth_error (_fw_signals m) 0 = Some s ->
  nth_error (_fw_signals m') 0 = Some s.
Proof.
  intros (_ & _ & _ & _ & _ & _ & _ & l & Hfw) H. rewrite Hfw.
  destruct (_fw_signals m); [discriminate | exact H].
Qed.

Lemma wire_outputs_frame v2 target x m :
  layer_frame m (snd (wire_outputs v2 target x m)).
Proof.
  unfold wire_outputs. run.
  destruct (_logit m); unfold layer_frame; simpl; repeat split; auto;
    rewrite <- app_assoc; eexists; reflexivity.
Qed.

(** C10. The flatten test of the convolutional assembly reads
    [layer_types[n - 1]]; at [n = 0] this is [layer_types[-1]], the last
    entry.  So for every layer-type list that starts with ['fc'] and ends
    with ['conv'] (and initial parameters whose first weight has a first
    dimension), the input of the first fully-connected layer, as recorded
    in the trace, is the dropout of a reshape of the network input to
    [[-1, num_x]], although no layer precedes it. *)
Theorem flatten_test_wraps_to_last_entry
    (mid : list string) (w0 b0 : ndarray) (ws bs : list ndarray)
    (num_x : nat) (dims : list nat) (m : model) :
  shape w0 = num_x :: dims ->
  let layer_types := "fc"%string :: mid ++ ["conv"%string] in
  let first_input :=
    Dropout (Reshape (Reshape (Placeholder PhInput) [(-1)%Z; 28%Z; 28%Z; 1%Z])
                     [(-1)%Z; Z.of_nat num_x])
            (Placeholder PhKeepProb) in
  py_getitem layer_types (Z.of_nat 0 - 1) = inr "conv"%string /\
  nth_error
    (_fw_signals
       (snd (_create_initialized_network (w0 :: ws) (Some (b0 :: bs)) (Some layer_types) m)))
    0
  = Some (Some first_input) /\
  layers_of first_input = [].
Proof.
  intros Hshape layer_types first_input.
  assert (Hlast : py_getitem layer_types (Z.of_nat 0 - 1) = inr "conv"%string).
  { unfold layer_types.
    change ("fc"%string :: mid ++ ["conv"%string])
      with (("fc"%string :: mid) ++ ["conv"%string]).
    apply py_getitem_last. }
  split; [exact Hlast|]. split; [|reflexivity].
  rewrite create_initialized_network_unfold.
  set (start := assembly_start (Some [None; Some 784]) (Some [None; Some 10]) layer_types m).
  set (body := lenet_layer (w0 :: ws) (Some (b0 :: bs)) layer_types
                 (List.length layer_types) PhKeepProb).
  assert (Hlen : List.length layer_types = S (S (List.length mid))).
  { unfold layer_types. simpl. rewrite length_app. simpl. lia. }
  (* the first iteration *)
  assert (Hfirst : exists x1 m1,
            body 0 (Reshape (Placeholder PhInput) [(-1)%Z; 28%Z; 28%Z; 1%Z]) start
            = (inr x1, m1) /\ _fw_signals m1 = [Some first_input]).
  { unfold body, lenet_layer. rewrite Hlen.
    unfold bind, lift, ret. rewrite Hlast.
    unfold layer_types at 1. change (Z.of_nat 0) with 0%Z.
    cbn -[Z.of_nat]. rewrite Hshape. cbn -[Z.of_nat].
    unfold _add_fully_connected_layer, tf_Variable, start, assembly_start.
    unfold bind, get, modify, ret. cbn -[Z.of_nat].
    eexists; eexists; split; reflexivity. }
  destruct Hfirst as (x1 & m1 & Hb & Hfw1).
  unfold range. rewrite Hlen.
  change (seq 0 (S (S (List.length mid)))) with (0 :: seq 1 (S (List.length mid))).
  unfold bind at 1. rewrite (for_each_cons body), Hb.
  pose proof (lenet_loop_frame (w0 :: ws) (Some (b0 :: bs)) layer_types
                (List.length layer_types) PhKeepProb
                (seq 1 (S (List.length mid))) x1 m1) as Hloop.
  fold body in Hloop.
  destruct (for_each body (seq 1 (S (List.length mid))) x1 m1) as [[e|x2] m2];
    simpl in Hloop.
  - simpl. apply (fw_signals_head_kept m1 m2); [exact Hloop | now rewrite Hfw1].
  - apply (fw_signals_head_kept m1).
    + eapply layer_frame_trans; [exact Hloop | apply wire_outputs_frame].
    + now rewrite Hfw1.
Qed.

Lemma flatten_test_wraps_to_last_entry_witness :
  nth_error
    (_fw_signals
       (snd (_create_initialized_network
               [mk_ndarray [4; 3] []; mk_ndarray [5; 5; 3; 2] []]
               (Some [mk_ndarray [3] []; mk_ndarray [2] []])
               (Some ["fc"; "conv"]%string) BasicLenetModel)))
    0
  = Some (Some (Dropout
                  (Reshape (Reshape (Placeholder PhInput) [(-1)%Z; 28%Z; 28%Z; 1%Z])
                           [(-1)%Z; 4%Z])
                  (Placeholder PhKeepProb))).
Proof.
  exact (proj1 (proj2 (flatten_test_wraps_to_last_entry
                         [] (mk_ndarray [4; 3] []) (mk_ndarray [3] [])
                         [mk_ndarray [5; 5; 3; 2] []] [mk_ndarray [2] []]
                         4 [3] BasicLenetModel eq_refl))).
Defined.

(** ** Forward signals *)

Section ForwardSignals.
Context {E : Engine}.

Lemma forward_node_evaluates s x kp n :
  forward_node s n = true ->
  exists v, eval s [(Some PhInput, x); (Some PhKeepProb, kp)] n = inr v.
Proof.
  induction n; simpl; intro H; try discriminate;
    repeat match goal with
           | H : _ && _ = true |- _ => apply andb_prop in H; destruct H
           | IH : ?P -> exists v, _, H : ?P |- _ => destruct (IH H) as [? ?]; clear IH
           end.
  - destruct p; try discriminate; eauto.
  - unfold initialised in H. destruct (read_variable s id); [discriminate | eauto].
  - eauto.
  - rewrite H0. simpl. eauto.
  - rewrite H1, H2. simpl. eauto.
  - rewrite H0. simpl. eauto.
  - rewrite H1, H2. simpl. eauto.
  - rewrite H1, H2. simpl. eauto.
  - rewrite H0. simpl. eauto.
  - rewrite H0. simpl. eauto.
  - rewrite H1, H2. simpl. eauto.
  - rewrite H1, H2. simpl. eauto.
  - eauto.
Qed.

Lemma forward_fetches_run s x kp fs :
  forallb (forward_fetch s) fs = true ->
  exists vals,
    sess_run_list s fs [(Some PhInput, x); (Some PhKeepProb, kp)] = inr vals /\
    Forall2 (fun f v => exists n, f = Some n /\
               eval s [(Some PhInput, x); (Some PhKeepProb, kp)] n = inr v) fs vals.
Proof.
  induction fs as [|f fs IH]; simpl; intro H.
  - exists []. split; [reflexivity | constructor].
  - apply andb_prop in H as [Hf Hfs].
    destruct (IH Hfs) as (vals & Hrun & Hall).
    destruct f as [n|]; [|discriminate].
    destruct (forward_node_evaluates s x kp n Hf) as [v Hv].
    exists (v :: vals). unfold sess_run at 1. simpl feed_ok. cbv iota.
    rewrite Hv. simpl. rewrite Hrun. simpl. split; [reflexivity|].
    constructor; eauto.
Qed.

Lemma get_fw_signals_no_session m x :
  _sess m = None ->
  get_fw_signals x m
  = (inl (ValueError "The model has not been created and initialized."), m).
Proof. intro H. unfold get_fw_signals. run. now rewrite H. Qed.

Lemma get_fw_signals_session m x s :
  _sess m = Some s ->
  get_fw_signals x m = (sess_run_list s (_fw_signals m) (fw_feed m x), m).
Proof. intro H. unfold get_fw_signals, fw_feed. run. now rewrite H. Qed.

End ForwardSignals.

(** C5 as stated fails: after [create_initializer] and before
    [initialize] the session exists, so the guard lets the call through,
    and the run stops on the first variable without a value: the result
    is neither the not-ready error nor a list. *)
Lemma get_fw_signals_on_uninitialised_variables :
  ~ fw_signals_not_ready_or_list (E := StandInEngine) pruned_uninitialised batch2.
Proof.
  unfold fw_signals_not_ready_or_list.
  assert (R : fst (get_fw_signals (E := StandInEngine) batch2 pruned_uninitialised)
              = inl EngineError) by (vm_compute; reflexivity).
  rewrite R. intros [H|[vals H]]; discriminate.
Qed.

(** ** Accuracy *)


Lemma Q_of_nat_S n : (Q_of_nat (S n) == 1 + Q_of_nat n)%Q.
Proof.
  unfold Q_of_nat. rewrite Nat2Z.inj_succ, <- Z.add_1_l, inject_Z_plus. reflexivity.
Qed.





Section Accuracy.
Context {E : Engine}.





End Accuracy.



(** ** Assemblies that return *)

Lemma py_getitem_pred {A : Type} (l : list A) (n : nat) :
  n < List.length l -> exists a, py_getitem l (Z.of_nat n - 1) = inr a.
Proof.
  intro Hn. unfold py_getitem.
  destruct (Z.ltb_spec (Z.of_nat n - 1) 0) as [Hneg|Hpos].
  - destruct (Z.ltb_spec (Z.of_nat (List.length l) + (Z.of_nat n - 1)) 0); [lia|].
    destruct (nth_error l (Z.to_nat (Z.of_nat (List.length l) + (Z.of_nat n - 1))))
      as [a|] eqn:Ha; [eauto|].
    apply nth_error_None in Ha. lia.
  - destruct (Z.ltb_spec (Z.of_nat n - 1) 0); [lia|].
    destruct (nth_error l (Z.to_nat (Z.of_nat n - 1))) as [a|] eqn:Ha; [eauto|].
    apply nth_error_None in Ha. lia.
Qed.

Lemma py_getitem_in_range {A : Type} (l : list A) (n : nat) :
  n < List.length l -> exists a, py_getitem l (Z.of_nat n) = inr a /\ In a l.
Proof.
  intro Hn. rewrite py_getitem_nat.
  destruct (nth_error l n) as [a|] eqn:Ha.
  - exists a. split; auto. eapply nth_error_In; eauto.
  - apply nth_error_None in Ha. lia.
Qed.

Lemma add_fully_connected_layer_returns x w b func m g :
  _graph m = Some g ->
  exists x' m' g',
    _add_fully_connected_layer x w b func m = (inr x', m') /\ _graph m' = Some g' /\
    (func = "softmax"%string -> _logit m' <> None).
Proof.
  intro Hg. unfold _add_fully_connected_layer, tf_Variable. run. rewrite Hg. simpl.
  destruct (String.eqb_spec func "relu") as [->|Hr]; simpl.
  - eexists _, _, _. repeat split; try reflexivity. discriminate.
  - destruct (String.eqb_spec func "softmax") as [->|Hs]; simpl.
    + eexists _, _, _. repeat split; try reflexivity. discriminate.
    + eexists _, _, _. repeat split; try reflexivity. contradiction.
Qed.

Lemma add_convolution_layer_returns x w b pool m g :
  _graph m = Some g ->
  exists x' m' g',
    _add_convolution_layer x w b pool m = (inr x', m') /\ _graph m' = Some g'.
Proof.
  intro Hg. unfold _add_convolution_layer, tf_Variable. run. rewrite Hg. simpl.
  eexists _, _, _. split; reflexivity.
Qed.

Lemma add_masked_fully_connected_layer_returns x w b wm bm func m g :
  _graph m = Some g ->
  exists x' m' g',
    _add_masked_fully_connected_layer x w b wm bm func m = (inr x', m') /\
    _graph m' = Some g' /\
    (func = "softmax"%string -> _logit m' <> None).
Proof.
  intro Hg. unfold _add_masked_fully_connected_layer, tf_Variable. run. rewrite Hg. simpl.
  destruct (String.eqb_spec func "relu") as [->|Hr]; simpl.
  - eexists _, _, _. repeat split; try reflexivity. discriminate.
  - destruct (String.eqb_spec func "softmax") as [->|Hs]; simpl.
    + eexists _, _, _. repeat split; try reflexivity. discriminate.
    + eexists _, _, _. repeat split; try reflexivity. contradiction.
Qed.

(** One position of the convolutional assembly returns when its
    parameters are there. *)
Lemma lenet_layer_returns iw bs lts num kp n x m g :
  _graph m = Some g ->
  n < List.length lts -> n < List.length iw -> n < List.length bs ->
  Forall (fun w => shape w <> []) iw ->
  exists x' m' g',
    lenet_layer iw (Some bs) lts num kp n x m = (inr x', m') /\ _graph m' = Some g' /\
    (nth_error lts n = Some "fc"%string -> n = num - 1 -> _logit m' <> None).
Proof.
  intros Hg Hn Hw Hb Hshape. unfold lenet_layer.
  destruct (py_getitem_in_range lts n Hn) as (ty & Hty & _).
  destruct (py_getitem_in_range iw n Hw) as (w & Hwn & Hin).
  destruct (py_getitem_in_range bs n Hb) as (b & Hbn & _).
  destruct (py_getitem_pred lts n Hn) as (prev & Hprev).
  assert (Hnth : nth_error lts n = Some ty).
  { rewrite py_getitem_nat in Hty. destruct (nth_error lts n); congruence. }
  unfold bind at 1. unfold lift at 1. rewrite Hty.
  destruct (String.eqb_spec ty "conv") as [Hconv|Hconv].
  - unfold bind at 1. unfold lift at 1. rewrite Hwn.
    unfold bind at 1. unfold lift at 1. simpl py_getitem_opt. rewrite Hbn.
    destruct (add_convolution_layer_returns x w b 2 m g Hg) as (x' & m' & g' & Hrun & Hg').
    exists x', m', g'. repeat split; auto.
    intros Hfc. rewrite Hnth in Hfc. inversion Hfc. congruence.
  - destruct (String.eqb_spec ty "fc") as [Hfc|Hfc].
    + unfold bind at 1. unfold lift at 1. rewrite Hprev.
      assert (Hflat : exists x1,
                (if String.eqb prev "conv"
                 then bind (lift (py_getitem iw (Z.of_nat n)))
                        (fun w => bind (lift (py_getitem (shape w) 0))
                           (fun num_x => ret (Reshape x [(-1)%Z; Z.of_nat num_x])))
                 else ret x) m = (inr x1, m)).
      { destruct (String.eqb prev "conv"); [|eexists; reflexivity].
        unfold bind, lift, ret. rewrite Hwn.
        destruct (shape w) as [|d ds] eqn:Hsw.
        - exfalso. eapply Forall_forall in Hshape; eauto.
        - eexists. reflexivity. }
      destruct Hflat as (x1 & Hflat).
      unfold bind at 1. rewrite Hflat.
      unfold bind at 1. unfold lift at 1. rewrite Hwn.
      unfold bind at 1. unfold lift at 1. simpl py_getitem_opt. rewrite Hbn.
      destruct (Nat.eqb_spec n (num - 1)) as [Hlast|Hlast].
      * destruct (add_fully_connected_layer_returns
                    (Dropout x1 (Placeholder kp)) w b "softmax" m g Hg)
          as (x' & m' & g' & Hrun & Hg' & Hl).
        exists x', m', g'. repeat split; auto.
      * destruct (add_fully_connected_layer_returns
                    (Dropout x1 (Placeholder kp)) w b "relu" m g Hg)
          as (x' & m' & g' & Hrun & Hg' & _).
        exists x', m', g'. repeat split; auto; intros; contradiction.
    + exists x, m, g. repeat split; auto.
      intros Hf. rewrite Hnth in Hf. inversion Hf. contradiction.
Qed.

(** A loop whose positions all return, returns; the position [num - 1]
    leaves the logit set when [sets_logit] holds, and no position unsets
    it. *)
Lemma for_each_seq_returns {X : Type} (body : nat -> X -> M X)
    (num : nat) (sets_logit : Prop) :
  (forall i x m g, _graph m = Some g -> i < num ->
     exists x' m' g', body i x m = (inr x', m') /\ _graph m' = Some g' /\
       (sets_logit -> i = num - 1 -> _logit m' <> None)) ->
  forall k a x m g, _graph m = Some g -> a + k <= num ->
    exists x' m' g',
      for_each body (seq a k) x m = (inr x', m') /\ _graph m' = Some g' /\
      (sets_logit -> 0 < k -> a + k = num -> _logit m' <> None).
Proof.
  intros Hbody. induction k as [|k IH]; intros a x m g Hg Hk; simpl.
  - exists x, m, g. repeat split; auto. intros _ H. lia.
  - destruct (Hbody a x m g Hg) as (y & m1 & g1 & Hb & Hg1 & Hl1); [lia|].
    unfold bind. rewrite Hb.
    destruct k as [|k'].
    + simpl. exists y, m1, g1. repeat split; auto.
      intros Hs _ Ha. apply Hl1; auto. lia.
    + destruct (IH (S a) y m1 g1 Hg1) as (x' & m' & g' & Hrun & Hg' & Hl'); [lia|].
      exists x', m', g'. repeat split; auto.
      intros Hs _ Ha. apply Hl'; auto; lia.
Qed.

Lemma wire_outputs_returns v2 target x m :
  _logit m <> None -> exists m', wire_outputs v2 target x m = (inr tt, m').
Proof.
  intro Hl. unfold wire_outputs. run.
  destruct (_logit m); [|contradiction]. eexists. reflexivity.
Qed.

(** The convolutional assembly returns for every list of layer types whose
    last entry is ['fc'] when every position has a weight with a first
    dimension and a bias. *)
Lemma create_initialized_network_returns iw bs lts m :
  0 < List.length lts ->
  nth_error lts (List.length lts - 1) = Some "fc"%string ->
  List.length lts <= List.length iw -> List.length lts <= List.length bs ->
  Forall (fun w => shape w <> []) iw ->
  exists m', _create_initialized_network iw (Some bs) (Some lts) m = (inr tt, m').
Proof.
  intros Hpos Hfc Hw Hb Hshape. rewrite create_initialized_network_unfold.
  destruct (for_each_seq_returns
              (lenet_layer iw (Some bs) lts (List.length lts) PhKeepProb)
              (List.length lts)
              (nth_error lts (List.length lts - 1) = Some "fc"%string))
    with (k := List.length lts) (a := 0)
         (x := Reshape (Placeholder PhInput) [(-1)%Z; 28%Z; 28%Z; 1%Z])
         (m := assembly_start (Some [None; Some 784]) (Some [None; Some 10]) lts m)
         (g := mk_graph [] [(PhInput, Some [None; Some 784]);
                            (PhTarget, Some [None; Some 10]); (PhKeepProb, None)])
    as (x' & m' & g' & Hrun & _ & Hl); auto.
  - intros i x m0 g Hg Hi.
    destruct (lenet_layer_returns iw bs lts (List.length lts) PhKeepProb i x m0 g Hg)
      as (x' & m' & g' & Hr & Hg' & Hl); auto; try lia.
    exists x', m', g'. repeat split; auto.
    intros Hlast Hi'. apply Hl; auto. now rewrite Hi'.
  - unfold bind, range. rewrite Hrun.
    apply wire_outputs_returns. apply Hl; auto.
Qed.

Lemma masked_layer_returns ws bs wms bms num kp n x m g :
  _graph m = Some g ->
  n < List.length ws -> n < List.length bs ->
  n < List.length wms -> n < List.length bms ->
  exists x' m' g',
    masked_layer (Some ws) (Some bs) (Some wms) (Some bms) num kp n x m = (inr x', m') /\
    _graph m' = Some g' /\ (n = num - 1 -> _logit m' <> None).
Proof.
  intros Hg H1 H2 H3 H4. unfold masked_layer.
  destruct (py_getitem_in_range ws n H1) as (w & Hw & _).
  destruct (py_getitem_in_range bs n H2) as (b & Hb & _).
  destruct (py_getitem_in_range wms n H3) as (mw & Hmw & _).
  destruct (py_getitem_in_range bms n H4) as (mb & Hmb & _).
  unfold bind at 1. unfold lift at 1. simpl py_getitem_opt. rewrite Hw.
  unfold bind at 1. unfold lift at 1. rewrite Hb.
  unfold bind at 1. unfold lift at 1. rewrite Hmw.
  unfold bind at 1. unfold lift at 1. rewrite Hmb.
  destruct (Nat.eqb_spec n (num - 1)) as [Hlast|Hlast].
  - destruct (add_masked_fully_connected_layer_returns
                (Dropout x (Placeholder kp)) w b mw mb "softmax" m g Hg)
      as (x' & m' & g' & Hrun & Hg' & Hl).
    exists x', m', g'. repeat split; auto.
  - destruct (add_masked_fully_connected_layer_returns
                (Dropout x (Placeholder kp)) w b mw mb "relu" m g Hg)
      as (x' & m' & g' & Hrun & Hg' & _).
    exists x', m', g'. repeat split; auto; intros; contradiction.
Qed.

(** The masked assembly returns when there is at least one layer, the
    first weight has a first dimension, the last weight a second one, and
    every layer has a bias and two masks. *)
Lemma create_masked_network_returns ws bs wms bms m w0 wl input_len output_len :
  py_getitem ws 0 = inr w0 -> py_getitem (shape w0) 0 = inr input_len ->
  py_getitem ws (-1) = inr wl -> py_getitem (shape wl) 1 = inr output_len ->
  List.length ws <= List.length bs -> List.length ws <= List.length wms ->
  List.length ws <= List.length bms ->
  exists m', _create_masked_network (Some ws) (Some bs) (Some wms) (Some bms) m
             = (inr tt, m').
Proof.
  intros H1 H2 H3 H4 Lb Lw Lm.
  rewrite (create_masked_network_unfold _ _ _ _ _ _ _ _ _ H1 H2 H3 H4).
  assert (Hpos : 0 < List.length ws).
  { destruct ws; [discriminate H1 | simpl; lia]. }
  destruct (for_each_seq_returns
              (masked_layer (Some ws) (Some bs) (Some wms) (Some bms)
                 (List.length ws) PhKeepProb)
              (List.length ws) True)
    with (k := List.length ws) (a := 0) (x := Placeholder PhInput)
         (m := assembly_start (Some [None; Some input_len]) (Some [None; Some output_len])
                 (_layer_types m) m)
         (g := mk_graph [] [(PhInput, Some [None; Some input_len]);
                            (PhTarget, Some [None; Some output_len]); (PhKeepProb, None)])
    as (x' & m' & g' & Hrun & _ & Hl); auto.
  - intros i x m0 g Hg Hi.
    destruct (masked_layer_returns ws bs wms bms (List.length ws) PhKeepProb i x m0 g Hg)
      as (x' & m' & g' & Hr & Hg' & Hl); auto; try lia.
    exists x', m', g'. repeat split; auto.
  - unfold bind, range. rewrite Hrun.
    apply wire_outputs_returns. apply Hl; auto.
Qed.

(** X1. Only the output layer lets a convolutional assembly return.  On a
    model whose logit is unset, as after [__init__], whatever the weights
    and biases: when [_create_initialized_network] returns, the list of
    layer types is not empty and its last entry is ['fc'] -- only the
    output layer, built at the last position when its type is ['fc'], sets
    the logit the loss is wired to -- and the output is the softmax of
    that logit.  So a list that is empty or ends with any other type makes
    the call raise. *)
Theorem lenet_assembly_returns_only_if_last_is_fc
    (iw : list ndarray) (ib : option (list ndarray)) (lts : list string)
    (m m' : model) :
  _logit m = None ->
  _create_initialized_network iw ib (Some lts) m = (inr tt, m') ->
  0 < List.length lts /\
  nth_error lts (List.length lts - 1) = Some "fc"%string /\
  exists pre, _logit m' = Some pre /\ _output m' = Some (Softmax pre).
Proof.
  intros Hl H.
  destruct (create_initialized_network_inr _ _ _ _ _ H Hl)
    as (out & pre & ins & Hout & Hpre & -> & _ & Hpos & Hfc & _).
  split; [exact Hpos|]. split; [exact Hfc|]. exists pre. auto.
Qed.

Lemma lenet_assembly_returns_only_if_last_is_fc_witness :
  exists pre,
    _logit (after (_create_initialized_network [conv_weight; fc_weight]
                     (Some [conv_bias; fc_bias]) (Some ["conv"; "fc"]%string))
                  BasicLenetModel) = Some pre /\
    _output (after (_create_initialized_network [conv_weight; fc_weight]
                      (Some [conv_bias; fc_bias]) (Some ["conv"; "fc"]%string))
                   BasicLenetModel) = Some (Softmax pre).
Proof.
  assert (R : _create_initialized_network [conv_weight; fc_weight]
                (Some [conv_bias; fc_bias]) (Some ["conv"; "fc"]%string) BasicLenetModel
              = (inr tt,
                 after (_create_initialized_network [conv_weight; fc_weight]
                          (Some [conv_bias; fc_bias]) (Some ["conv"; "fc"]%string))
                       BasicLenetModel))
    by (vm_compute; reflexivity).
  destruct (lenet_assembly_returns_only_if_last_is_fc
              [conv_weight; fc_weight] (Some [conv_bias; fc_bias])
              ["conv"; "fc"]%string BasicLenetModel _ eq_refl R)
    as (_ & _ & H).
  exact H.
Defined.

(** ** Where the parameters of an assembly go *)

Lemma length_interleave ws : forall bs,
  List.length ws = List.length bs ->
  List.length (interleave ws bs) = 2 * List.length ws.
Proof.
  induction ws as [|w ws IH]; intros [|b bs] H; simpl in *; try discriminate; auto.
  rewrite IH by lia. lia.
Qed.

Lemma interleave_snoc ws : forall bs w b,
  List.length ws = List.length bs ->
  interleave (ws ++ [w]) (bs ++ [b]) = interleave ws bs ++ [w; b].
Proof.
  induction ws as [|w0 ws IH]; intros [|b0 bs] w b H; simpl in *;
    try discriminate; auto.
  now rewrite IH by lia.
Qed.

Lemma nth_error_interleave ws : forall bs i,
  List.length ws = List.length bs ->
  nth_error (interleave ws bs) (2 * i) = nth_error ws i /\
  nth_error (interleave ws bs) (2 * i + 1) = nth_error bs i.
Proof.
  induction ws as [|w ws IH]; intros [|b bs] i H; simpl in H; try discriminate.
  - cbn [interleave]. now rewrite !nth_error_nil.
  - destruct i as [|i]; [split; reflexivity|].
    replace (2 * S i) with (S (S (2 * i))) by lia.
    replace (S (S (2 * i)) + 1) with (S (S (2 * i + 1))) by lia.
    cbn [interleave nth_error]. apply IH. lia.
Qed.

Lemma parameters_in_order_start m g :
  _graph m = Some g -> g_variables g = [] ->
  _nn_weights m = [] -> _nn_biases m = [] ->
  parameters_in_order [] [] [] m.
Proof.
  intros Hg Hv Hw Hb. split; [reflexivity|]. exists g. simpl. auto.
Qed.

Lemma parameters_in_order_snoc ws bs w b m m' g :
  parameters_in_order ws bs [] m ->
  _graph m = Some g ->
  _graph m' = Some (mk_graph (g_variables g ++ [w; b]) (g_placeholders g)) ->
  _nn_weights m' = _nn_weights m ++ [Var (List.length (g_variables g))] ->
  _nn_biases m' = _nn_biases m ++ [Var (S (List.length (g_variables g)))] ->
  parameters_in_order (ws ++ [w]) (bs ++ [b]) [] m'.
Proof.
  intros (Hlen & g0 & Hg0 & Hv & Hw & Hb) Hg Hg' Hw' Hb'.
  rewrite Hg in Hg0. inversion Hg0; subst g0.
  rewrite app_nil_r in Hv.
  split; [rewrite !length_app; simpl; lia|].
  eexists. split; [exact Hg'|]. simpl.
  rewrite app_nil_r, interleave_snoc, Hv by assumption.
  split; [reflexivity|].
  rewrite Hw', Hb', Hw, Hb, Hv, length_interleave by assumption.
  rewrite length_app. simpl. rewrite Nat.add_1_r, seq_S, !map_app. simpl.
  split; repeat f_equal; lia.
Qed.

(** *** The masked assembly *)

Lemma masked_layer_step iw ib wm bm num kp n x m x' m' :
  masked_layer iw ib wm bm num kp n x m = (inr x', m') ->
  exists g w b,
    _graph m = Some g /\ nth_error (list_or_nil iw) n = Some w /\
    nth_error (list_or_nil ib) n = Some b /\
    _graph m' = Some (mk_graph (g_variables g ++ [w; b]) (g_placeholders g)) /\
    _nn_weights m' = _nn_weights m ++ [Var (List.length (g_variables g))] /\
    _nn_biases m' = _nn_biases m ++ [Var (S (List.length (g_variables g)))].
Proof.
  unfold masked_layer. intro H.
  apply bind_inr in H as (w & m1 & Hw & H). apply lift_inr in Hw as [Hw ->].
  apply bind_inr in H as (b & m1 & Hb & H). apply lift_inr in Hb as [Hb ->].
  apply bind_inr in H as (mw & m1 & Hmw & H). apply lift_inr in Hmw as [Hmw ->].
  apply bind_inr in H as (mb & m1 & Hmb & H). apply lift_inr in Hmb as [Hmb ->].
  destruct iw as [ws|]; [|discriminate]. destruct ib as [bs|]; [|discriminate].
  simpl in Hw, Hb. rewrite py_getitem_nat in Hw, Hb. simpl.
  destruct (nth_error ws n) as [w0|] eqn:Ew; [|discriminate].
  destruct (nth_error bs n) as [b0|] eqn:Eb; [|discriminate].
  inversion Hw; inversion Hb; subst w0 b0.
  destruct (n =? num - 1);
    apply add_masked_fully_connected_layer_inr in H
      as (g & Hg & _ & Hg' & _ & Hnw & Hnb & _);
    exists g, w, b; auto 10.
Qed.

Lemma masked_loop_layout iw ib wm bm num kp n x m x' m' :
  for_each (masked_layer iw ib wm bm num kp) (seq 0 n) x m = (inr x', m') ->
  parameters_in_order [] [] [] m ->
  parameters_in_order (firstn n (list_or_nil iw)) (firstn n (list_or_nil ib)) [] m'.
Proof.
  intros Hrun H0.
  apply (for_each_seq_invariant
           (masked_layer iw ib wm bm num kp)
           (fun i _ p => parameters_in_order (firstn i (list_or_nil iw))
                           (firstn i (list_or_nil ib)) [] p)
           n 0 x m x' m'); auto.
  intros i y p y' p' Hi HP Hb.
  destruct (masked_layer_step _ _ _ _ _ _ _ _ _ _ _ Hb)
    as (g & w & b & Hg & Hw & Hbn & Hg' & Hnw & Hnb).
  rewrite !firstn_snoc, Hw, Hbn.
  eapply parameters_in_order_snoc; eauto.
Qed.

(** A masked assembly that returns has made, for every layer in order, a
    variable of the weight and a variable of the bias, and nothing else. *)
Lemma create_masked_network_layout iw ib wm bm m m' :
  _create_masked_network iw ib wm bm m = (inr tt, m') ->
  parameters_in_order (list_or_nil iw)
    (firstn (List.length (list_or_nil iw)) (list_or_nil ib)) [] m'.
Proof.
  intro H.
  destruct (create_masked_network_prelude _ _ _ _ _ _ H)
    as (ws & w0 & wl & il & ol & -> & H1 & H2 & H3 & H4).
  rewrite (create_masked_network_unfold _ _ _ _ _ _ _ _ _ H1 H2 H3 H4) in H.
  apply bind_inr in H as (x & m1 & Hloop & H).
  apply masked_loop_layout in Hloop;
    [|eapply parameters_in_order_start; reflexivity].
  simpl list_or_nil in *. rewrite firstn_all in Hloop.
  apply wire_outputs_inr in H
    as (pre & _ & _ & _ & _ & _ & _ & Hw & Hb & _ & _ & _ & Hg & _).
  destruct Hloop as (Hlen & g & Hg1 & Hv & Hnw & Hnb).
  split; [exact Hlen|]. exists g. rewrite Hg, Hw, Hb. auto.
Qed.

(** *** The convolutional assembly *)

Lemma built_nil lts : built lts [] = [].
Proof. unfold built. now destruct lts. Qed.

Lemma built_cons ty lts p ps :
  built (ty :: lts) (p :: ps)
  = match kind_of ty with Some _ => [p] | None => [] end ++ built lts ps.
Proof. unfold built. simpl. now destruct (kind_of ty). Qed.

Lemma built_step : forall n lts ps ty,
  nth_error lts n = Some ty ->
  built (firstn (S n) lts) ps
  = built (firstn n lts) ps
    ++ match kind_of ty, nth_error ps n with
       | Some _, Some p => [p]
       | _, _ => []
       end.
Proof.
  induction n as [|n IH]; intros [|t lts] ps ty H; try discriminate.
  - simpl in H. inversion H; subst t. destruct ps as [|p ps].
    + rewrite !built_nil. now destruct (kind_of ty).
    + change (firstn 1 (ty :: lts)) with [ty]. rewrite built_cons. simpl.
      unfold built at 1. simpl. destruct (kind_of ty); reflexivity.
  - simpl in H. destruct ps as [|p ps].
    + rewrite !built_nil. now destruct (kind_of ty).
    + change (firstn (S (S n)) (t :: lts)) with (t :: firstn (S n) lts).
      change (firstn (S n) (t :: lts)) with (t :: firstn n lts).
      rewrite !built_cons, (IH lts ps ty H), app_assoc. reflexivity.
Qed.

Lemma built_length lts : forall ws bs,
  List.length ws = List.length bs ->
  List.length (built lts ws) = List.length (built lts bs).
Proof.
  induction lts as [|ty lts IH]; intros [|w ws] [|b bs] H; simpl in *;
    try discriminate; try reflexivity.
  rewrite !built_cons, !length_app, (IH ws bs) by lia.
  now destruct (kind_of ty).
Qed.

(** One position of the convolutional assembly builds nothing when its
    type is neither ['conv'] nor ['fc'], and otherwise makes a variable of
    the weight and one of the bias at that position. *)
Lemma lenet_layer_step iw ib lts num kp n x m x' m' :
  lenet_layer iw ib lts num kp n x m = (inr x', m') ->
  exists ty,
    nth_error lts n = Some ty /\
    ((kind_of ty = None /\ m' = m /\ x' = x) \/
     (kind_of ty <> None /\
      exists g w b,
        _graph m = Some g /\ nth_error iw n = Some w /\
        nth_error (list_or_nil ib) n = Some b /\
        _graph m' = Some (mk_graph (g_variables g ++ [w; b]) (g_placeholders g)) /\
        _nn_weights m' = _nn_weights m ++ [Var (List.length (g_variables g))] /\
        _nn_biases m' = _nn_biases m ++ [Var (S (List.length (g_variables g)))])).
Proof.
  unfold lenet_layer. intro H.
  apply bind_inr in H as (ty & m1 & Hty & H). apply lift_inr in Hty as [Hty ->].
  rewrite py_getitem_nat in Hty.
  destruct (nth_error lts n) as [ty0|] eqn:Ety; [|discriminate].
  inversion Hty; subst ty0. exists ty. split; [reflexivity|].
  unfold kind_of.
  destruct (String.eqb ty "conv").
  - right. split; [discriminate|].
    apply bind_inr in H as (w & m1 & Hw & H). apply lift_inr in Hw as [Hw ->].
    apply bind_inr in H as (b & m1 & Hb & H). apply lift_inr in Hb as [Hb ->].
    destruct ib as [bs|]; [|discriminate].
    simpl in Hb. rewrite py_getitem_nat in Hw, Hb. simpl.
    destruct (nth_error iw n) as [w0|] eqn:Ew; [|discriminate].
    destruct (nth_error bs n) as [b0|] eqn:Eb; [|discriminate].
    inversion Hw; inversion Hb; subst w0 b0.
    apply add_convolution_layer_inr in H as (g & Hg & _ & Hg' & _ & Hnw & Hnb & _).
    exists g, w, b. auto 10.
  - destruct (String.eqb ty "fc").
    + right. split; [discriminate|].
      apply bind_inr in H as (prev & m1 & Hp & H). apply lift_inr in Hp as [Hp ->].
      apply bind_inr in H as (x1 & m1 & Hx1 & H).
      assert (m1 = m).
      { destruct (String.eqb prev "conv").
        - apply bind_inr in Hx1 as (w & m2 & Hw & Hx1). apply lift_inr in Hw as [_ ->].
          apply bind_inr in Hx1 as (k & m2 & Hk & Hx1). apply lift_inr in Hk as [_ ->].
          now apply ret_inr in Hx1 as [_ ->].
        - now apply ret_inr in Hx1 as [_ ->]. }
      subst m1.
      apply bind_inr in H as (w & m1 & Hw & H). apply lift_inr in Hw as [Hw ->].
      apply bind_inr in H as (b & m1 & Hb & H). apply lift_inr in Hb as [Hb ->].
      destruct ib as [bs|]; [|discriminate].
      simpl in Hb. rewrite py_getitem_nat in Hw, Hb. simpl.
      destruct (nth_error iw n) as [w0|] eqn:Ew; [|discriminate].
      destruct (nth_error bs n) as [b0|] eqn:Eb; [|discriminate].
      inversion Hw; inversion Hb; subst w0 b0.
      destruct (n =? num - 1);
        apply add_fully_connected_layer_inr in H
          as (g & Hg & _ & Hg' & _ & Hnw & Hnb & _);
        exists g, w, b; auto 10.
    + left. apply ret_inr in H as [-> ->]. auto.
Qed.

Lemma lenet_loop_layout iw ib lts num kp n x m x' m' :
  for_each (lenet_layer iw ib lts num kp) (seq 0 n) x m = (inr x', m') ->
  parameters_in_order [] [] [] m ->
  parameters_in_order (built (firstn n lts) iw)
    (built (firstn n lts) (list_or_nil ib)) [] m'.
Proof.
  intros Hrun H0.
  apply (for_each_seq_invariant
           (lenet_layer iw ib lts num kp)
           (fun i _ p =>
              parameters_in_order (built (firstn i lts) iw)
                (built (firstn i lts) (list_or_nil ib)) [] p)
           n 0 x m x' m'); auto.
  intros i y p y' p' Hi HP Hb.
  destruct (lenet_layer_step _ _ _ _ _ _ _ _ _ _ Hb)
    as (ty & Hty & [(Hk & -> & ->)|(Hk & g & w & b & Hg & Hw & Hbn & Hg' & Hnw & Hnb)]).
  - rewrite !(built_step _ _ _ _ Hty), Hk, !app_nil_r. exact HP.
  - rewrite !(built_step _ _ _ _ Hty), Hw, Hbn.
    destruct (kind_of ty); [|contradiction].
    eapply parameters_in_order_snoc; eauto.
Qed.

(** A convolutional assembly that returns has made, for every position
    whose type is ['conv'] or ['fc'], in order, a variable of the weight
    and a variable of the bias at that position, and nothing else. *)
Lemma create_initialized_network_layout iw ib lts m m' :
  _create_initialized_network iw ib (Some lts) m = (inr tt, m') ->
  parameters_in_order (built lts iw) (built lts (list_or_nil ib)) [] m'.
Proof.
  intro H. rewrite create_initialized_network_unfold in H.
  apply bind_inr in H as (x & m1 & Hloop & H).
  apply lenet_loop_layout in Hloop;
    [|eapply parameters_in_order_start; reflexivity].
  rewrite firstn_all in Hloop.
  apply wire_outputs_inr in H
    as (pre & _ & _ & _ & _ & _ & _ & Hw & Hb & _ & _ & _ & Hg & _).
  destruct Hloop as (Hlen & g & Hg1 & Hv & Hnw & Hnb).
  split; [exact Hlen|]. exists g. rewrite Hg, Hw, Hb. auto.
Qed.

(** ** From assembly to a model ready for inference *)

Lemma node_below_mono k k' n :
  k <= k' -> node_below k n = true -> node_below k' n = true.
Proof.
  intro Hk. induction n; simpl; intro H; auto;
    try (apply andb_prop in H as [H1 H2]; apply andb_true_intro; split; auto).
  apply Nat.ltb_lt in H. apply Nat.ltb_lt. lia.
Qed.

Lemma fetch_below_mono k k' f :
  k <= k' -> fetch_below k f = true -> fetch_below k' f = true.
Proof. destruct f; simpl; eauto using node_below_mono. Qed.

Lemma fetches_below_mono k k' fs :
  k <= k' -> forallb (fetch_below k) fs = true -> forallb (fetch_below k') fs = true.
Proof.
  intros Hk H. apply forallb_forall. intros f Hf.
  eapply fetch_below_mono; eauto. eapply forallb_forall in H; eauto.
Qed.

Lemma node_below_forward s k n :
  (forall id, id < k -> initialised s (Var id) = true) ->
  node_below k n = true -> forward_node s n = true.
Proof.
  intro Hs. induction n; cbn [forward_node]; intro H; auto;
    try (apply andb_prop in H as [H1 H2]; apply andb_true_intro; split; auto).
  apply Hs. now apply Nat.ltb_lt.
Qed.

(** A layer built on a signal within the variables of the graph leaves
    the signals within them. *)
Lemma layer_signals_below x m x' m' g xin w b :
  signals_below x m ->
  _graph m = Some g ->
  _graph m' = Some (mk_graph (g_variables g ++ [w; b]) (g_placeholders g)) ->
  _fw_signals m' = _fw_signals m ++ [Some xin] ->
  (forall k, node_below k x = true -> node_below k xin = true) ->
  (forall k, S (List.length (g_variables g)) < k -> node_below k xin = true ->
     node_below k x' = true) ->
  (_logit m' = _logit m /\ _logit m = None \/
   exists p, _logit m' = Some p /\ forall k, node_below k p = node_below k x') ->
  signals_below x' m'.
Proof.
  intros (g0 & Hg0 & Hx & Hfw & Hl) Hg Hg' Hfw' Hin Hout Hlog.
  rewrite Hg in Hg0. inversion Hg0; subst g0; clear Hg0.
  exists (mk_graph (g_variables g ++ [w; b]) (g_placeholders g)).
  simpl. rewrite length_app. simpl.
  assert (Hle : List.length (g_variables g) <= List.length (g_variables g) + 2) by lia.
  assert (Hx' : node_below (List.length (g_variables g) + 2) x' = true).
  { apply Hout; [lia|]. apply Hin. eapply node_below_mono; eauto. }
  split; [exact Hg'|]. split; [exact Hx'|]. split.
  - rewrite Hfw', forallb_app. apply andb_true_intro. split.
    + eapply fetches_below_mono; eauto.
    + simpl. rewrite andb_true_r. apply Hin. eapply node_below_mono; eauto.
  - destruct Hlog as [[Hsame Hnone]|(p & Hp & Hk)].
    + rewrite Hsame, Hnone. exact Hx'.
    + rewrite Hp. simpl. rewrite Hk. exact Hx'.
Qed.

Ltac below_solve Hin :=
  simpl in *;
  repeat match goal with
         | H : _ && _ = true |- _ => apply andb_prop in H; destruct H
         end;
  repeat (apply andb_true_intro; split); auto; apply Nat.ltb_lt; lia.

Lemma lenet_layer_below iw ib lts num n x m x' m' :
  lenet_layer iw ib lts num PhKeepProb n x m = (inr x', m') ->
  signals_below x m -> _logit m = None ->
  signals_below x' m' /\ (_logit m' = None \/ n = num - 1).
Proof.
  unfold lenet_layer. intros H Hx Hnone.
  apply bind_inr in H as (ty & m1 & Hty & H). apply lift_inr in Hty as [_ ->].
  destruct (String.eqb ty "conv").
  - unbind H. unlift.
    apply add_convolution_layer_inr in H as (g & Hg & -> & Hg' & Hfw & _ & _ & Hl).
    split; [|left; congruence].
    eapply (layer_signals_below x m _ m' g x); eauto.
    intros k Hk Hin. below_solve Hin.
  - destruct (String.eqb ty "fc").
    + unbind H.
      apply lift_inr in Hc as [_ ->].
      assert (Hx1 : m1 = m /\ forall k, node_below k x = true -> node_below k a0 = true).
      { destruct (String.eqb a "conv").
        - unbind Hc0. unlift. auto.
        - unlift. auto. }
      destruct Hx1 as [-> Hx1]. unlift.
      destruct (Nat.eqb_spec n (num - 1)) as [Hlast|Hlast].
      * apply add_fully_connected_layer_inr in H as (g & Hg & -> & Hg' & Hfw & _ & _ & Hl).
        simpl in Hl. split; [|now right].
        eapply (layer_signals_below x m _ m' g (Dropout a0 (Placeholder PhKeepProb)));
          eauto.
        -- intros k Hk. simpl. rewrite (Hx1 k Hk). reflexivity.
        -- intros k Hk Hin. below_solve Hin.
      * apply add_fully_connected_layer_inr in H as (g & Hg & -> & Hg' & Hfw & _ & _ & Hl).
        simpl in Hl. split; [|left; congruence].
        eapply (layer_signals_below x m _ m' g (Dropout a0 (Placeholder PhKeepProb)));
          eauto.
        -- intros k Hk. simpl. rewrite (Hx1 k Hk). reflexivity.
        -- intros k Hk Hin. below_solve Hin.
    + unlift. auto.
Qed.

Lemma masked_layer_below iw ib wm bm num n x m x' m' :
  masked_layer iw ib wm bm num PhKeepProb n x m = (inr x', m') ->
  signals_below x m -> _logit m = None ->
  signals_below x' m' /\ (_logit m' = None \/ n = num - 1).
Proof.
  unfold masked_layer. intros H Hx Hnone.
  unbind H. unlift.
  destruct (Nat.eqb_spec n (num - 1)) as [Hlast|Hlast].
  - apply add_masked_fully_connected_layer_inr in H
      as (g & Hg & -> & Hg' & Hfw & _ & _ & Hl).
    simpl in Hl. split; [|now right].
    eapply (layer_signals_below x m _ m' g (Dropout x (Placeholder PhKeepProb))); eauto.
    + intros k Hk. simpl. rewrite Hk. reflexivity.
    + intros k Hk Hin. below_solve Hin.
  - apply add_masked_fully_connected_layer_inr in H
      as (g & Hg & -> & Hg' & Hfw & _ & _ & Hl).
    simpl in Hl. split; [|left; congruence].
    eapply (layer_signals_below x m _ m' g (Dropout x (Placeholder PhKeepProb))); eauto.
    + intros k Hk. simpl. rewrite Hk. reflexivity.
    + intros k Hk Hin. below_solve Hin.
Qed.

(** The loop of an assembly keeps the signals within the variables. *)
Lemma assembly_loop_below (body : nat -> tnode -> M tnode) num x m x' m' :
  (forall n y p y' p', body n y p = (inr y', p') ->
     signals_below y p -> _logit p = None ->
     signals_below y' p' /\ (_logit p' = None \/ n = num - 1)) ->
  for_each body (range num) x m = (inr x', m') ->
  signals_below x m -> _logit m = None ->
  signals_below x' m'.
Proof.
  intros Hbody Hrun Hx Hnone. unfold range in Hrun.
  apply (for_each_seq_invariant body
           (fun n y p => signals_below y p /\ (_logit p = None \/ n = num))
           num 0 x m x' m'); [| |exact Hrun].
  - intros i y p y' p' Hi [Hy Hl] Hb.
    assert (Hlp : _logit p = None) by (destruct Hl; [assumption | lia]).
    destruct (Hbody i y p y' p' Hb Hy Hlp) as [Hy' Hl'].
    split; [exact Hy'|]. destruct Hl'; [now left | right; lia].
  - split; auto.
Qed.

Lemma wire_outputs_fetchable v2 x m m' :
  wire_outputs v2 PhTarget x m = (inr tt, m') ->
  signals_below x m -> _input m = Some PhInput -> _keep_prob m = Some PhKeepProb ->
  fetchable m'.
Proof.
  intros H (g & Hg & Hx & Hfw & Hl) Hi Hk.
  apply wire_outputs_inr in H
    as (pre & Hpre & _ & _ & Hfw' & _ & _ & _ & _ & Hi' & _ & Hk' & Hg' & _).
  exists g. rewrite Hg', Hfw', Hi', Hk'. repeat split; auto.
  rewrite forallb_app, Hfw. simpl. rewrite Hpre in Hl. simpl in Hl. now rewrite Hl, Hx.
Qed.

Lemma assembly_start_below (x : tnode) ishape tshape lts m :
  node_below 0 x = true -> _logit m = None ->
  signals_below x (assembly_start ishape tshape lts m).
Proof.
  intros Hx Hl. eexists. split; [reflexivity|]. simpl. rewrite Hl. simpl.
  now rewrite Hx.
Qed.

Lemma create_initialized_network_fetchable iw ib lts m m' :
  _logit m = None ->
  _create_initialized_network iw ib (Some lts) m = (inr tt, m') ->
  fetchable m'.
Proof.
  intros Hl H. rewrite create_initialized_network_unfold in H.
  apply bind_inr in H as (x & m1 & Hloop & H).
  pose proof (lenet_loop_frame iw ib lts (List.length lts) PhKeepProb
                (range (List.length lts))
                (Reshape (Placeholder PhInput) [(-1)%Z; 28%Z; 28%Z; 1%Z])
                (assembly_start (Some [None; Some 784]) (Some [None; Some 10]) lts m))
    as Hframe.
  rewrite Hloop in Hframe. destruct Hframe as (_ & Fi & _ & Fk & _). simpl in Fi, Fk.
  apply (wire_outputs_fetchable _ _ _ _ H); auto.
  eapply assembly_loop_below; [|exact Hloop| |].
  - intros n y p y' p'. apply lenet_layer_below.
  - now apply assembly_start_below.
  - exact Hl.
Qed.

Lemma create_masked_network_fetchable iw ib wm bm m m' :
  _logit m = None ->
  _create_masked_network iw ib wm bm m = (inr tt, m') ->
  fetchable m'.
Proof.
  intros Hl H.
  destruct (create_masked_network_prelude _ _ _ _ _ _ H)
    as (ws & w0 & wl & il & ol & -> & H1 & H2 & H3 & H4).
  rewrite (create_masked_network_unfold _ _ _ _ _ _ _ _ _ H1 H2 H3 H4) in H.
  apply bind_inr in H as (x & m1 & Hloop & H).
  pose proof (masked_loop_frame (Some ws) ib wm bm (List.length ws) PhKeepProb
                (range (List.length ws)) (Placeholder PhInput)
                (assembly_start (Some [None; Some il]) (Some [None; Some ol])
                   (_layer_types m) m))
    as Hframe.
  rewrite Hloop in Hframe. destruct Hframe as (_ & Fi & _ & Fk & _). simpl in Fi, Fk.
  apply (wire_outputs_fetchable _ _ _ _ H); auto.
  eapply assembly_loop_below; [|exact Hloop| |].
  - intros n y p y' p'. apply masked_layer_below.
  - now apply assembly_start_below.
  - exact Hl.
Qed.

Lemma create_optimizer_fetchable sel lr dr ds m :
  fetchable m -> fetchable (snd (create_optimizer sel lr dr ds m)).
Proof.
  intros (g & Hg & Hfw & Hi & Hk).
  rewrite (create_optimizer_run _ _ _ _ _ _ Hg). cbv zeta.
  assert (Hs : fetchable (with_schedule lr dr ds g m)).
  { eexists. split; [reflexivity|]. simpl. rewrite length_app. simpl.
    repeat split; auto. eapply fetches_below_mono; [|exact Hfw]. lia. }
  destruct (choose_optimizer sel); [|exact Hs].
  destruct (_loss m); [|exact Hs].
  destruct (_nn_weights m ++ _nn_biases m); [exact Hs|].
  destruct Hs as (g' & Hg' & Hfw' & Hi' & Hk'). exists g'. auto.
Qed.

(** ** The session of a model *)

Lemma create_initializer_run m g :
  _graph m = Some g ->
  create_initializer m
  = (inr tt, set_sess (Some (mk_session [] []))
               (set_initializer (Some (g_variables g)) m)).
Proof.
  intro Hg. unfold create_initializer, as_default. run.
  repeat (rewrite Hg; simpl). reflexivity.
Qed.

Lemma create_initializer_no_graph m :
  _graph m = None -> create_initializer m = (inl AttributeError, m).
Proof.
  intro Hg. unfold create_initializer, as_default. run. now rewrite Hg.
Qed.

Section Initialize.
Context {E : Engine}.

Lemma initialize_run m inits s :
  _initializer m = Some inits -> _sess m = Some s ->
  initialize m = (inr tt, set_sess (Some (sess_run_init s inits)) m).
Proof.
  intros Hi Hs. unfold initialize, the_session. run. now rewrite Hi, Hs.
Qed.

(** [create_initializer] then [initialize]: a fresh session in which every
    variable of the graph holds its initial value. *)
Lemma initialized_model m g :
  _graph m = Some g ->
  after initialize (after create_initializer m)
  = set_sess (Some (mk_session (map Some (g_variables g)) []))
      (set_initializer (Some (g_variables g)) m).
Proof.
  intro Hg. unfold after. rewrite (create_initializer_run m g Hg).
  cbn [snd].
  rewrite (initialize_run _ (g_variables g) (mk_session [] [])) by reflexivity.
  cbn [snd]. unfold sess_run_init. simpl.
  rewrite skipn_nil, app_nil_r. reflexivity.
Qed.

(** After [create_initializer] and [initialize] every recorded signal of
    an assembled model can be fetched. *)
Lemma initialized_model_is_ready m :
  fetchable m ->
  ready_for_inference (after initialize (after create_initializer m)) = true.
Proof.
  intros (g & Hg & Hfw & Hi & Hk).
  rewrite (initialized_model m g Hg).
  unfold ready_for_inference. simpl. rewrite Hi, Hk.
  apply forallb_forall. intros f Hf.
  eapply forallb_forall in Hfw; [|exact Hf].
  destruct f as [n|]; [|discriminate]. simpl in *.
  eapply node_below_forward; [|exact Hfw].
  intros id Hid. unfold initialised, read_variable. simpl.
  rewrite nth_error_map.
  destruct (nth_error (g_variables g) id) eqn:Hn; [reflexivity|].
  apply nth_error_None in Hn. lia.
Qed.

End Initialize.

(** Training keeps initialised variables initialised. *)
Lemma set_nth_some_kept (vals : list (option ndarray)) i j w v :
  nth_error vals j = Some (Some v) ->
  exists v', nth_error (set_nth i (Some w) vals) j = Some (Some v').
Proof.
  intro H. destruct (Nat.eq_dec i j) as [->|Hne].
  - exists w. apply nth_error_set_nth_eq. apply nth_error_Some. congruence.
  - exists v. now rewrite nth_error_set_nth_ne.
Qed.

Section ReadyKept.
Context {E : Engine}.

Lemma apply_step_initialised op fd s id :
  initialised s (Var id) = true ->
  initialised (mk_session (apply_step op fd s) (update_slots op fd s)) (Var id) = true.
Proof.
  unfold initialised, read_variable. simpl. intro H.
  assert (Hv : exists v, nth_error (s_values s) id = Some (Some v)).
  { destruct (nth_error (s_values s) id) as [[v|]|]; try discriminate. eauto. }
  clear H.
  assert (Hfold : forall vars vals, (exists v, nth_error vals id = Some (Some v)) ->
            exists v, nth_error (fold_left (update_var op fd s) vars vals) id
                      = Some (Some v)).
  { induction vars as [|x vars IH]; intros vals Hvals; simpl; auto.
    apply IH. destruct x; simpl; auto.
    destruct Hvals as [v Hvals]. eapply set_nth_some_kept; eauto. }
  destruct (Hfold (op_var_list op) _ Hv) as [v Hf].
  unfold apply_step.
  destruct (op_global_step op); try (rewrite Hf; reflexivity).
  destruct (nth_error _ id0) as [[c|]|]; try (rewrite Hf; reflexivity).
  destruct (set_nth_some_kept _ id0 id (assign_add c 1) v Hf) as [v' Hv'].
  now rewrite Hv'.
Qed.

Lemma forward_node_kept s s' n :
  (forall id, initialised s (Var id) = true -> initialised s' (Var id) = true) ->
  forward_node s n = true -> forward_node s' n = true.
Proof.
  intro Hs. induction n; cbn [forward_node]; intro H; auto;
    try (apply andb_prop in H as [H1 H2]; apply andb_true_intro; split; auto).
Qed.

Lemma train_keeps_ready m bx bt kp :
  ready_for_inference m = true ->
  ready_for_inference (snd (train bx bt kp m)) = true.
Proof.
  intro Hr. destruct (_trainOp m) as [op|] eqn:Hop.
  - rewrite (train_attached _ _ _ _ _ Hop).
    unfold ready_for_inference in Hr.
    destruct (_sess m) as [s|] eqn:Hs; [|discriminate].
    destruct (sess_run_train s op _) as [e|s'] eqn:Hrun; simpl.
    + unfold ready_for_inference. now rewrite Hs.
    + unfold ready_for_inference. simpl.
      destruct (_input m) as [[| |]|]; try discriminate.
      destruct (_keep_prob m) as [[| |]|]; try discriminate.
      apply forallb_forall. intros f Hf.
      eapply forallb_forall in Hr; [|exact Hf].
      destruct f as [n|]; [|discriminate]. simpl in *.
      eapply forward_node_kept; [|exact Hr].
      unfold sess_run_train in Hrun.
      destruct (feed_ok _); [|discriminate].
      destruct (forallb _ _); [|discriminate].
      inversion Hrun; subst s'. intros id. apply apply_step_initialised.
  - now rewrite train_unattached.
Qed.

Lemma train_all_keeps_ready batches : forall m,
  ready_for_inference m = true -> ready_for_inference (train_all batches m) = true.
Proof.
  induction batches as [|[[bx bt] kp] rest IH]; intros m Hr; simpl; auto.
  apply IH. now apply train_keeps_ready.
Qed.

End ReadyKept.

(** ** What the usual call sequence gives *)

Section Lifecycle.
Context {E : Engine}.

Lemma ready_get_fw_signals m x :
  ready_for_inference m = true ->
  exists vals,
    get_fw_signals x m = (inr vals, m) /\
    List.length vals = List.length (_fw_signals m).
Proof.
  intro Hr. unfold ready_for_inference in Hr.
  destruct (_sess m) as [s|] eqn:Hs; [|discriminate].
  destruct (_input m) as [[| |]|] eqn:Hi; try discriminate.
  destruct (_keep_prob m) as [[| |]|] eqn:Hk; try discriminate.
  destruct (forward_fetches_run s x (scalar 1) _ Hr) as (vals & Hrun & Hall).
  exists vals.
  rewrite (get_fw_signals_session m x s Hs). unfold fw_feed. rewrite Hi, Hk, Hrun.
  split; [reflexivity|]. symmetry. eapply Forall2_length; eauto.
Qed.

Lemma assembled_from_fetchable m m1 :
  _logit m = None -> assembled_from m m1 ->
  fetchable m1 /\
  List.length (_fw_signals m1) = List.length (_nn_weights m1) + 2.
Proof.
  intros Hl [(iw & ib & lts & H)|(iw & ib & wm & bm & H)].
  - split; [eapply create_initialized_network_fetchable; eauto|].
    destruct (create_initialized_network_inr _ _ _ _ _ H Hl)
      as (out & pre & ins & _ & _ & _ & _ & _ & _ & Hfw & Hlen & _).
    rewrite Hfw, length_app, length_map. simpl. lia.
  - split; [eapply create_masked_network_fetchable; eauto|].
    destruct (create_masked_network_inr _ _ _ _ _ _ H Hl)
      as (ws & out & pre & ins & _ & _ & _ & _ & _ & _ & Hfw & Hlen & _).
    rewrite Hfw, length_app, length_map. simpl. lia.
Qed.

Lemma create_optimizer_keeps_trace sel lr dr ds m :
  _fw_signals (after (create_optimizer sel lr dr ds) m) = _fw_signals m /\
  _nn_weights (after (create_optimizer sel lr dr ds) m) = _nn_weights m /\
  _nn_biases (after (create_optimizer sel lr dr ds) m) = _nn_biases m.
Proof.
  unfold after. destruct (_graph m) as [g|] eqn:Hg.
  - rewrite (create_optimizer_run _ _ _ _ _ _ Hg). cbv zeta.
    destruct (choose_optimizer sel); [|simpl; auto].
    destruct (_loss m); [|simpl; auto].
    destruct (_nn_weights m ++ _nn_biases m); simpl; auto.
  - rewrite (create_optimizer_no_graph _ _ _ _ _ Hg). simpl. auto.
Qed.

Lemma sess_run_list_inr s fd : forall fs vals,
  sess_run_list s fs fd = inr vals ->
  Forall2 (fun f v => exists n, f = Some n /\ eval s fd n = inr v) fs vals.
Proof.
  induction fs as [|f fs IH]; intros vals H.
  - cbn [sess_run_list] in H. destruct (feed_ok fd); [|discriminate].
    injection H as <-. constructor.
  - cbn [sess_run_list] in H. unfold sess_run in H.
    destruct (feed_ok fd); [|discriminate].
    destruct f as [n|]; [|discriminate].
    destruct (eval s fd n) as [e|a] eqn:Ha; [discriminate|].
    cbn [ebind] in H.
    destruct (sess_run_list s fs fd) as [e|l] eqn:Hl; [discriminate|].
    cbn [ebind] in H. injection H as <-.
    constructor; [exists n; auto | now apply IH].
Qed.

(** X2. The usual call sequence passes the guard of [get_fw_signals] and
    leaves nothing for it to miss in the model: on a network one of the
    two builders assembled (from a model whose logit was unset, as after
    [__init__]), after [create_optimizer] with any arguments -- whether it
    returned or raised --, [create_initializer], [initialize] and any
    number of [train] calls, the session exists, every recorded signal
    reads only the two placeholders the call feeds and variables that hold
    a value, and the call does not raise the not-ready error; whenever it
    returns, it leaves the model as it was and returns one value per layer
    and two more, for the logit and the output. *)
Theorem recorded_signals_are_ready_after_the_call_sequence
    (m m1 : model) (sel : selector) (lr dr ds : Q)
    (batches : list (ndarray * ndarray * Q)) (x : ndarray) :
  _logit m = None -> assembled_from m m1 ->
  let m2 := after (create_optimizer sel lr dr ds) m1 in
  let m3 := train_all batches (after initialize (after create_initializer m2)) in
  ready_for_inference m3 = true /\
  fst (get_fw_signals x m3)
  <> inl (ValueError "The model has not been created and initialized.") /\
  List.length (_fw_signals m3) = List.length (_nn_weights m1) + 2 /\
  forall vals m',
    get_fw_signals x m3 = (inr vals, m') ->
    m' = m3 /\ List.length vals = List.length (_nn_weights m1) + 2.
Proof.
  intros Hl Ha m2 m3.
  destruct (assembled_from_fetchable m m1 Hl Ha) as [Hf Hlen].
  assert (Hr : ready_for_inference m3 = true).
  { apply train_all_keeps_ready, initialized_model_is_ready.
    now apply create_optimizer_fetchable. }
  assert (Hfw3 : List.length (_fw_signals m3) = List.length (_nn_weights m1) + 2).
  { rewrite <- Hlen.
    destruct (same_but_session_fields _ _
                (train_all_same_but_session batches
                   (after initialize (after create_initializer m2))))
      as (_ & _ & _ & _ & _ & _ & Hfw & _).
    fold m3 in Hfw. rewrite <- Hfw.
    destruct (create_optimizer_keeps_trace sel lr dr ds m1) as (Hfw2 & _).
    fold m2 in Hfw2. rewrite <- Hfw2.
    destruct (_graph m2) as [g|] eqn:Hg.
    - now rewrite (initialized_model m2 g Hg).
    - exfalso. destruct (create_optimizer_fetchable sel lr dr ds m1 Hf) as (g & Hg' & _).
      fold (after (create_optimizer sel lr dr ds) m1) in Hg'. fold m2 in Hg'. congruence. }
  destruct (ready_get_fw_signals m3 x Hr) as (vals0 & Hrun & Hv).
  split; [exact Hr|]. split; [rewrite Hrun; discriminate|]. split; [exact Hfw3|].
  intros vals m' H. rewrite Hrun in H. injection H as <- <-.
  split; [reflexivity|]. now rewrite Hv.
Qed.

Lemma shapes_kept_refl s : shapes_kept s s.
Proof. intros id v H. eauto. Qed.

Lemma shapes_kept_trans s1 s2 s3 :
  shapes_kept s1 s2 -> shapes_kept s2 s3 -> shapes_kept s1 s3.
Proof.
  intros H12 H23 id v H. destruct (H12 id v H) as (v2 & H2 & S2).
  destruct (H23 id v2 H2) as (v3 & H3 & S3). exists v3. split; congruence.
Qed.

Lemma set_nth_keeps_shapes s vals id w :
  values_keep_shapes s vals ->
  (forall v, read_variable s id = inr v -> shape w = shape v) ->
  values_keep_shapes s (set_nth id (Some w) vals).
Proof.
  intros Hv Hw j v Hj. destruct (Hv j v Hj) as (v' & Hn & Hs).
  destruct (Nat.eq_dec id j) as [->|Hne].
  - exists w. split.
    + apply nth_error_set_nth_eq. apply nth_error_Some. congruence.
    + now apply Hw.
  - exists v'. split; [|exact Hs]. now rewrite nth_error_set_nth_ne.
Qed.

Lemma apply_step_keeps_shapes op fd s :
  step_keeps_shapes ->
  shapes_kept s (mk_session (apply_step op fd s) (update_slots op fd s)).
Proof.
  intro Hlaw.
  assert (Hfold : forall vars vals, values_keep_shapes s vals ->
            values_keep_shapes s (fold_left (update_var op fd s) vars vals)).
  { induction vars as [|x vars IH]; intros vals Hv; simpl; auto.
    apply IH. destruct x; simpl; auto.
    apply set_nth_keeps_shapes; [assumption | intros v Hr; now apply Hlaw]. }
  assert (H0 : values_keep_shapes s (s_values s)).
  { intros id v Hr. exists v. split; auto. unfold read_variable in Hr.
    destruct (nth_error (s_values s) id) as [[v0|]|]; congruence. }
  assert (Hfinal : values_keep_shapes s (apply_step op fd s)).
  { unfold apply_step. specialize (Hfold (op_var_list op) _ H0).
    destruct (op_global_step op); auto.
    destruct (nth_error _ id) as [[c|]|] eqn:Hc; auto.
    apply set_nth_keeps_shapes; [assumption|].
    intros v Hr. destruct (Hfold id v Hr) as (v' & Hn & Hs).
    rewrite Hc in Hn. inversion Hn; subst v'. exact Hs. }
  intros id v Hr. destruct (Hfinal id v Hr) as (v' & Hn & Hs).
  exists v'. split; auto. unfold read_variable. simpl. now rewrite Hn.
Qed.

Lemma train_keeps_shapes m bx bt kp s :
  step_keeps_shapes -> _sess m = Some s ->
  exists s', _sess (snd (train bx bt kp m)) = Some s' /\ shapes_kept s s'.
Proof.
  intros Hlaw Hs. destruct (_trainOp m) as [op|] eqn:Hop.
  - rewrite (train_attached _ _ _ _ _ Hop), Hs. unfold sess_run_train.
    destruct (feed_ok _); [destruct (forallb _ _)|]; simpl.
    + eexists. split; [reflexivity|]. now apply apply_step_keeps_shapes.
    + exists s. split; auto using shapes_kept_refl.
    + exists s. split; auto using shapes_kept_refl.
  - rewrite train_unattached by assumption. exists s. split; auto using shapes_kept_refl.
Qed.

Lemma train_all_keeps_shapes batches : forall m s,
  step_keeps_shapes -> _sess m = Some s ->
  exists s', _sess (train_all batches m) = Some s' /\ shapes_kept s s'.
Proof.
  induction batches as [|[[bx bt] kp] rest IH]; intros m s Hlaw Hs; simpl.
  - exists s. split; auto using shapes_kept_refl.
  - destruct (train_keeps_shapes m bx bt kp s Hlaw Hs) as (s1 & Hs1 & K1).
    destruct (IH _ s1 Hlaw Hs1) as (s' & Hs' & K').
    exists s'. split; auto. eapply shapes_kept_trans; eauto.
Qed.

End Lifecycle.

(** ** Reading the parameters back *)

Lemma parameters_in_order_same ws bs rest m m' :
  _graph m' = _graph m -> _nn_weights m' = _nn_weights m ->
  _nn_biases m' = _nn_biases m ->
  parameters_in_order ws bs rest m -> parameters_in_order ws bs rest m'.
Proof.
  intros Hg Hw Hb (Hlen & g & Hg0 & Hv & Hnw & Hnb).
  split; [exact Hlen|]. exists g. rewrite Hg, Hw, Hb. auto.
Qed.

Lemma create_optimizer_parameters sel lr dr ds ws bs rest m :
  parameters_in_order ws bs rest m ->
  parameters_in_order ws bs (rest ++ [scalar 0]) (after (create_optimizer sel lr dr ds) m).
Proof.
  intros (Hlen & g & Hg & Hv & Hnw & Hnb).
  assert (Hs : parameters_in_order ws bs (rest ++ [scalar 0]) (with_schedule lr dr ds g m)).
  { split; [exact Hlen|]. eexists. split; [reflexivity|]. simpl.
    rewrite Hv, <- app_assoc. auto. }
  unfold after. rewrite (create_optimizer_run _ _ _ _ _ _ Hg). cbv zeta.
  destruct (choose_optimizer sel); [|exact Hs].
  destruct (_loss m); [|exact Hs].
  destruct (_nn_weights m ++ _nn_biases m); [exact Hs|].
  revert Hs. apply parameters_in_order_same; reflexivity.
Qed.

Section ReadBack.
Context {E : Engine}.

Lemma train_all_parameters batches ws bs rest m :
  parameters_in_order ws bs rest m ->
  parameters_in_order ws bs rest (train_all batches m).
Proof.
  destruct (same_but_session_fields _ _ (train_all_same_but_session batches m))
    as (Hg & _ & _ & _ & _ & _ & _ & Hw & Hb & _).
  apply parameters_in_order_same; congruence.
Qed.

Lemma sess_run_list_vars s : forall ids vals,
  Forall2 (fun id v => read_variable s id = inr v) ids vals ->
  sess_run_list s (map (fun id => Some (Var id)) ids) [] = inr vals.
Proof.
  induction 1 as [|id v ids vals Hr _ IH]; [reflexivity|].
  cbn [map sess_run_list]. rewrite IH.
  unfold sess_run. cbn [feed_ok forallb eval]. rewrite Hr. reflexivity.
Qed.

Lemma reads_in_order s (f : nat -> nat) ws : forall a,
  (forall i w, nth_error ws i = Some w -> read_variable s (f (a + i)) = inr w) ->
  Forall2 (fun id v => read_variable s id = inr v) (map f (seq a (List.length ws))) ws.
Proof.
  induction ws as [|w ws IH]; intros a H; simpl; constructor.
  - rewrite <- (Nat.add_0_r a). now apply H.
  - apply IH. intros i v Hi. replace (S a + i) with (a + S i) by lia. now apply H.
Qed.

(** In a session in which every variable of the graph holds its initial
    value, [get_weights] returns the weights and the biases the layers
    were built from. *)
Lemma get_weights_in_order ws bs rest m s :
  parameters_in_order ws bs rest m ->
  _sess m = Some s -> s_values s = map Some (interleave ws bs ++ rest) ->
  get_weights m = (inr (ws, bs), m).
Proof.
  intros (Hlen & g & Hg & Hv & Hnw & Hnb) Hs Hvals.
  assert (Hread : forall i w, nth_error (interleave ws bs) i = Some w ->
                              read_variable s i = inr w).
  { intros i w Hi. unfold read_variable.
    rewrite Hvals, nth_error_map, nth_error_app1, Hi; [reflexivity|].
    apply nth_error_Some. congruence. }
  assert (Hw : sess_run_list s (map Some (_nn_weights m)) [] = inr ws).
  { rewrite Hnw, map_map, <- (map_map (fun i => 2 * i) (fun id => Some (Var id))).
    apply sess_run_list_vars, reads_in_order.
    intros i w Hi. apply Hread.
    destruct (nth_error_interleave ws bs i Hlen) as [H1 _]. simpl. simpl in H1.
    congruence. }
  assert (Hb : sess_run_list s (map Some (_nn_biases m)) [] = inr bs).
  { rewrite Hnb, map_map, <- (map_map (fun i => 2 * i + 1) (fun id => Some (Var id))).
    rewrite Hlen.
    apply sess_run_list_vars, reads_in_order.
    intros i w Hi. apply Hread.
    destruct (nth_error_interleave ws bs i Hlen) as [_ H2]. simpl. simpl in H2.
    congruence. }
  unfold get_weights, the_session. run. rewrite Hs. simpl.
  rewrite Hw. simpl. rewrite Hb. reflexivity.
Qed.

Lemma get_weights_initialized ws bs rest m :
  parameters_in_order ws bs rest m ->
  get_weights (after initialize (after create_initializer m))
  = (inr (ws, bs), after initialize (after create_initializer m)).
Proof.
  intros HP. pose proof HP as (Hlen & g & Hg & Hv & Hnw & Hnb).
  apply (get_weights_in_order ws bs rest _
           (mk_session (map Some (g_variables g)) [])).
  - revert HP. rewrite (initialized_model m g Hg).
    apply parameters_in_order_same; reflexivity.
  - now rewrite (initialized_model m g Hg).
  - simpl. now rewrite Hv.
Qed.

(** X4. Reading back the parameters of a masked network: when
    [_create_masked_network] returned, then -- with or without a
    [create_optimizer] call in between, whatever its arguments and
    outcome -- after [create_initializer] and [initialize] the call
    [get_weights] returns the initial weights and, layer for layer, the
    initial biases that were passed to the builder, unmasked.  Calling
    [create_initializer] and [initialize] again after any number of
    [train] calls gives back these same initial values: the new session
    forgets what training wrote. *)
Theorem masked_get_weights_returns_initial_parameters
    (iw ib wm bm : option (list ndarray)) (m m1 : model)
    (sel : selector) (lr dr ds : Q) (batches : list (ndarray * ndarray * Q)) :
  _create_masked_network iw ib wm bm m = (inr tt, m1) ->
  let ws := list_or_nil iw in
  let bs := firstn (List.length ws) (list_or_nil ib) in
  let start (p : model) := after initialize (after create_initializer p) in
  get_weights (start m1) = (inr (ws, bs), start m1) /\
  get_weights (start (after (create_optimizer sel lr dr ds) m1))
  = (inr (ws, bs), start (after (create_optimizer sel lr dr ds) m1)) /\
  get_weights (start (train_all batches (start (after (create_optimizer sel lr dr ds) m1))))
  = (inr (ws, bs),
     start (train_all batches (start (after (create_optimizer sel lr dr ds) m1)))).
Proof.
  intros H ws bs start.
  pose proof (create_masked_network_layout _ _ _ _ _ _ H) as HP.
  fold ws in HP. fold bs in HP.
  pose proof (create_optimizer_parameters sel lr dr ds _ _ _ _ HP) as HP2.
  split; [|split].
  - apply (get_weights_initialized ws bs []). exact HP.
  - apply (get_weights_initialized ws bs ([] ++ [scalar 0])). exact HP2.
  - apply (get_weights_initialized ws bs ([] ++ [scalar 0])).
    apply train_all_parameters.
    destruct HP2 as (Hlen & g & Hg & Hv & Hnw & Hnb).
    unfold start. rewrite (initialized_model _ g Hg).
    split; [exact Hlen|]. exists g. auto.
Qed.

(** X5. Reading back the parameters of a convolutional network: when
    [_create_initialized_network] returned, then after
    [create_initializer] and [initialize] the call [get_weights] returns
    the weights and biases of the positions whose layer type is ['conv']
    or ['fc'], in order; the parameters given for a position of any other
    type were not made variables.  Again a [create_optimizer] call in
    between changes nothing to it, and a new [create_initializer] and
    [initialize] after training gives back the initial values. *)
Theorem lenet_get_weights_returns_built_parameters
    (iw : list ndarray) (ib : option (list ndarray)) (lts : list string) (m m1 : model)
    (sel : selector) (lr dr ds : Q) (batches : list (ndarray * ndarray * Q)) :
  _create_initialized_network iw ib (Some lts) m = (inr tt, m1) ->
  let ws := built lts iw in
  let bs := built lts (list_or_nil ib) in
  let start (p : model) := after initialize (after create_initializer p) in
  get_weights (start m1) = (inr (ws, bs), start m1) /\
  get_weights (start (after (create_optimizer sel lr dr ds) m1))
  = (inr (ws, bs), start (after (create_optimizer sel lr dr ds) m1)) /\
  get_weights (start (train_all batches (start (after (create_optimizer sel lr dr ds) m1))))
  = (inr (ws, bs),
     start (train_all batches (start (after (create_optimizer sel lr dr ds) m1)))).
Proof.
  intros H ws bs start.
  pose proof (create_initialized_network_layout _ _ _ _ _ H) as HP.
  fold ws in HP. fold bs in HP.
  pose proof (create_optimizer_parameters sel lr dr ds _ _ _ _ HP) as HP2.
  split; [|split].
  - apply (get_weights_initialized ws bs []). exact HP.
  - apply (get_weights_initialized ws bs ([] ++ [scalar 0])). exact HP2.
  - apply (get_weights_initialized ws bs ([] ++ [scalar 0])).
    apply train_all_parameters.
    destruct HP2 as (Hlen & g & Hg & Hv & Hnw & Hnb).
    unfold start. rewrite (initialized_model _ g Hg).
    split; [exact Hlen|]. exists g. auto.
Qed.

End ReadBack.

(** ** The optimizer and the session *)

Lemma create_optimizer_inr sel lr dr ds m m2 :
  create_optimizer sel lr dr ds m = (inr tt, m2) ->
  exists g alg l,
    _graph m = Some g /\ _loss m = Some l /\
    m2 = set_gradients (Some (map (fun v => (l, v)) (_nn_weights m ++ _nn_biases m)))
           (set_trainOp
              (Some (mk_train_op alg
                       (ExponentialDecay lr (Var (List.length (g_variables g))) ds dr)
                       l (_nn_weights m ++ _nn_biases m)
                       (Var (List.length (g_variables g)))))
              (with_schedule lr dr ds g m)).
Proof.
  intro H. destruct (_graph m) as [g|] eqn:Hg.
  - rewrite (create_optimizer_run _ _ _ _ _ _ Hg) in H. cbv zeta in H.
    destruct (choose_optimizer sel) as [alg|]; [|discriminate].
    destruct (_loss m) as [l|]; [|discriminate].
    destruct (_nn_weights m ++ _nn_biases m) as [|v vs]; [discriminate|].
    inversion H. exists g, alg, l. auto.
  - rewrite (create_optimizer_no_graph _ _ _ _ _ Hg) in H. discriminate.
Qed.

(** The parameter lists of an assembled network name variables of its
    graph. *)
Lemma var_list_below ws bs rest m g id :
  parameters_in_order ws bs rest m -> _graph m = Some g ->
  In (Var id) (_nn_weights m ++ _nn_biases m) ->
  id < 2 * List.length ws /\ 2 * List.length ws <= List.length (g_variables g).
Proof.
  intros (Hlen & g0 & Hg0 & Hv & Hnw & Hnb) Hg Hin.
  rewrite Hg in Hg0. inversion Hg0; subst g0.
  rewrite Hv, length_app, length_interleave by assumption.
  split; [|lia].
  apply in_app_or in Hin. rewrite Hnw, Hnb in Hin.
  destruct Hin as [Hin|Hin]; apply in_map_iff in Hin as (i & Hi & Hs);
    apply in_seq in Hs; inversion Hi; lia.
Qed.

Lemma var_list_are_variables ws bs rest m v :
  parameters_in_order ws bs rest m ->
  In v (_nn_weights m ++ _nn_biases m) -> exists id, v = Var id.
Proof.
  intros (Hlen & g0 & Hg0 & Hv & Hnw & Hnb) Hin.
  apply in_app_or in Hin. rewrite Hnw, Hnb in Hin.
  destruct Hin as [Hin|Hin]; apply in_map_iff in Hin as (i & Hi & Hs); eauto.
Qed.

Lemma assembled_from_parameters m m1 :
  assembled_from m m1 -> exists ws bs, parameters_in_order ws bs [] m1.
Proof.
  intros [(iw & ib & lts & H)|(iw & ib & wm & bm & H)].
  - eexists _, _. eapply create_initialized_network_layout; eauto.
  - eexists _, _. eapply create_masked_network_layout; eauto.
Qed.

Lemma assembled_from_placeholders m m1 :
  assembled_from m m1 ->
  _input m1 = Some PhInput /\ _target m1 = Some PhTarget /\
  _keep_prob m1 = Some PhKeepProb.
Proof.
  intros [(iw & ib & lts & H)|(iw & ib & wm & bm & H)].
  - rewrite create_initialized_network_unfold in H.
    apply bind_inr in H as (x & m2 & Hloop & H).
    pose proof (lenet_loop_frame iw ib lts (List.length lts) PhKeepProb
                  (range (List.length lts))
                  (Reshape (Placeholder PhInput) [(-1)%Z; 28%Z; 28%Z; 1%Z])
                  (assembly_start (Some [None; Some 784]) (Some [None; Some 10]) lts m))
      as Hframe.
    rewrite Hloop in Hframe. destruct Hframe as (_ & Fi & Ft & Fk & _).
    simpl in Fi, Ft, Fk.
    apply wire_outputs_inr in H
      as (pre & _ & _ & _ & _ & _ & _ & _ & _ & Hi & Ht & Hk & _).
    repeat split; congruence.
  - destruct (create_masked_network_prelude _ _ _ _ _ _ H)
      as (ws & w0 & wl & il & ol & -> & H1 & H2 & H3 & H4).
    rewrite (create_masked_network_unfold _ _ _ _ _ _ _ _ _ H1 H2 H3 H4) in H.
    apply bind_inr in H as (x & m2 & Hloop & H).
    pose proof (masked_loop_frame (Some ws) ib wm bm (List.length ws) PhKeepProb
                  (range (List.length ws)) (Placeholder PhInput)
                  (assembly_start (Some [None; Some il]) (Some [None; Some ol])
                     (_layer_types m) m))
      as Hframe.
    rewrite Hloop in Hframe. destruct Hframe as (_ & Fi & Ft & Fk & _).
    simpl in Fi, Ft, Fk.
    apply wire_outputs_inr in H
      as (pre & _ & _ & _ & _ & _ & _ & _ & _ & Hi & Ht & Hk & _).
    repeat split; congruence.
Qed.

Section Schedule.
Context {E : Engine}.

Lemma train_step_counter m op s c q bx bt kp m' :
  _trainOp m = Some op -> op_global_step op = Var c ->
  ~ In (Var c) (op_var_list op) ->
  _sess m = Some s -> read_variable s c = inr (mk_ndarray [] [q]) ->
  train bx bt kp m = (inr tt, m') ->
  same_but_session m m' /\
  exists s', _sess m' = Some s' /\
             read_variable s' c = inr (mk_ndarray [] [(q + 1)%Q]).
Proof.
  intros Hop Hc Hnin Hs Hr H.
  rewrite (train_attached _ _ _ _ _ Hop), Hs in H.
  destruct (sess_run_train s op (train_feed m bx bt kp)) as [e|s'] eqn:Hrun;
    [discriminate|].
  inversion H; subst m'. split; [reflexivity|].
  exists s'. split; [reflexivity|].
  unfold sess_run_train in Hrun.
  destruct (feed_ok _); [|discriminate].
  destruct (forallb _ _); [|discriminate].
  inversion Hrun; subst s'.
  now rewrite (apply_step_counter op _ s c _ Hc Hnin Hr).
Qed.

Lemma train_each_counter op c batches : forall m q m',
  _trainOp m = Some op -> op_global_step op = Var c ->
  ~ In (Var c) (op_var_list op) ->
  (exists s, _sess m = Some s /\ read_variable s c = inr (mk_ndarray [] [q])) ->
  train_each batches m = inr m' ->
  same_but_session m m' /\
  exists s' q', _sess m' = Some s' /\
    read_variable s' c = inr (mk_ndarray [] [q']) /\
    (q' == q + Q_of_nat (List.length batches))%Q.
Proof.
  induction batches as [|[[bx bt] kp] rest IH]; intros m q m' Hop Hc Hnin (s & Hs & Hr) H.
  - simpl in H. inversion H; subst m'. split; [reflexivity|].
    exists s, q. repeat split; auto. unfold Q_of_nat. simpl. ring.
  - simpl in H. destruct (train bx bt kp m) as [[e|[]] m1] eqn:Ht; [discriminate|].
    destruct (train_step_counter m op s c q bx bt kp m1 Hop Hc Hnin Hs Hr Ht)
      as (Hsame & s1 & Hs1 & Hr1).
    destruct (same_but_session_fields _ _ Hsame) as (_ & Hop1 & _).
    destruct (IH m1 (q + 1)%Q m') as (Hsame' & s' & q' & Hs' & Hr' & Hq'); auto.
    + congruence.
    + eauto.
    + split; [eapply same_but_session_trans; eauto|].
      exists s', q'. repeat split; auto.
      rewrite Hq'. change (List.length ((bx, bt, kp) :: rest)) with (S (List.length rest)).
      rewrite Q_of_nat_S. ring.
Qed.

Lemma learning_rate_run m s lr c ds dr q :
  _sess m = Some s -> _learning_rate m = ExponentialDecay lr (Var c) ds dr ->
  read_variable s c = inr (mk_ndarray [] [q]) ->
  learning_rate m = (inr (Num (lr * Qpower dr (Qfloor (q / ds)))), m).
Proof.
  intros Hs Hlr Hr. unfold learning_rate, the_session. run.
  rewrite Hs. simpl. rewrite Hlr. unfold sess_run_scalar. simpl.
  rewrite Hr. reflexivity.
Qed.

(** The schedule of a model whose parameters are in order, after the
    steps of [batches]. *)
Lemma schedule_after_steps ws bs rest
    (m1 m2 m4 : model) (sel : selector) (lr dr ds : Q)
    (batches : list (ndarray * ndarray * Q)) :
  parameters_in_order ws bs rest m1 ->
  create_optimizer sel lr dr ds m1 = (inr tt, m2) ->
  train_each batches (after initialize (after create_initializer m2)) = inr m4 ->
  learning_rate m4
  = (inr (Num (lr * Qpower dr (Qfloor (Q_of_nat (List.length batches) / ds)))), m4).
Proof.
  intros HP Hopt Htrain.
  destruct (create_optimizer_inr _ _ _ _ _ _ Hopt) as (g & alg & l & Hg & Hl & Hm2).
  set (c := List.length (g_variables g)) in *.
  set (op := mk_train_op alg (ExponentialDecay lr (Var c) ds dr) l
               (_nn_weights m1 ++ _nn_biases m1) (Var c)) in *.
  assert (Hg2 : _graph m2
                = Some (mk_graph (g_variables g ++ [scalar 0]) (g_placeholders g))).
  { rewrite Hm2. reflexivity. }
  assert (Hnin : ~ In (Var c) (op_var_list op)).
  { intro Hin. destruct (var_list_below ws bs rest m1 g c HP Hg Hin). unfold c in *. lia. }
  pose proof (initialized_model m2 _ Hg2) as Hm3. cbn [g_variables] in Hm3.
  set (m3 := after initialize (after create_initializer m2)) in *.
  assert (Hop3 : _trainOp m3 = Some op) by (rewrite Hm3, Hm2; reflexivity).
  assert (Hlr3 : _learning_rate m3 = ExponentialDecay lr (Var c) ds dr)
    by (rewrite Hm3, Hm2; reflexivity).
  assert (Hs3 : exists s, _sess m3 = Some s /\
                          read_variable s c = inr (mk_ndarray [] [0%Q])).
  { rewrite Hm3. eexists. split; [reflexivity|]. unfold read_variable. simpl.
    rewrite nth_error_map, nth_error_app2 by (unfold c; lia).
    unfold c. now rewrite Nat.sub_diag. }
  destruct (train_each_counter op c batches m3 0%Q m4 Hop3 eq_refl Hnin Hs3 Htrain)
    as (Hsame & s' & q' & Hs' & Hr' & Hq').
  rewrite (learning_rate_run m4 s' lr c ds dr q' Hs'); auto.
  - rewrite (Qfloor_comp (q' / ds) (Q_of_nat (List.length batches) / ds));
      [reflexivity|]. now rewrite Hq', Qplus_0_l.
  - apply (f_equal _learning_rate) in Hsame. simpl in Hsame. congruence.
Qed.

(** X6. The learning rate after [k] steps.  On a network one of the two
    builders assembled, with an optimizer attached by a [create_optimizer]
    that returned, a positive decay step, and the session made by
    [create_initializer] and [initialize] after that: when [k] successive
    [train] calls have returned, [learning_rate] returns
    [learning_rate * decay_rate ^ floor(k / decay_step)], the staircase
    decay of the rate given to [create_optimizer]: every [train] call
    that returns advances the step counter by exactly one, and nothing
    else moves it. *)
Theorem learning_rate_decays_with_the_number_of_steps
    (m m1 m2 m4 : model) (sel : selector) (lr dr ds : Q)
    (batches : list (ndarray * ndarray * Q)) :
  assembled_from m m1 ->
  (0 < ds)%Q ->
  create_optimizer sel lr dr ds m1 = (inr tt, m2) ->
  train_each batches (after initialize (after create_initializer m2)) = inr m4 ->
  learning_rate m4
  = (inr (Num (lr * Qpower dr (Qfloor (Q_of_nat (List.length batches) / ds)))), m4).
Proof.
  intros Ha Hds Hopt Htrain.
  destruct (assembled_from_parameters m m1 Ha) as (ws & bs & HP).
  eapply schedule_after_steps; eauto.
Qed.

(** ** The order of the calls *)

Lemma ready_to_train_initialized ws bs rest m g op :
  parameters_in_order ws bs rest m -> _graph m = Some g ->
  _trainOp m = Some op ->
  (exists c, op_global_step op = Var c /\ c < List.length (g_variables g)) ->
  op_var_list op = _nn_weights m ++ _nn_biases m ->
  _input m <> None -> _target m <> None -> _keep_prob m <> None ->
  ready_to_train (after initialize (after create_initializer m)) = true.
Proof.
  intros HP Hg Hop (c & Hc & Hlt) Hvl Hi Ht Hk.
  rewrite (initialized_model m g Hg). unfold ready_to_train. simpl.
  rewrite Hop.
  destruct (_input m); [|contradiction]. destruct (_target m); [|contradiction].
  destruct (_keep_prob m); [|contradiction].
  assert (Hinit : forall id, id < List.length (g_variables g) ->
            initialised (mk_session (map Some (g_variables g)) []) (Var id) = true).
  { intros id Hid. unfold initialised, read_variable. simpl. rewrite nth_error_map.
    destruct (nth_error (g_variables g) id) eqn:Hn; [reflexivity|].
    apply nth_error_None in Hn. lia. }
  simpl. rewrite Hc, (Hinit c Hlt). simpl.
  apply forallb_forall. intros v Hv. rewrite Hvl in Hv.
  destruct (var_list_are_variables ws bs rest m v HP Hv) as (id & ->).
  apply Hinit. destruct (var_list_below ws bs rest m g id HP Hg Hv). lia.
Qed.

(** X7. The optimizer has to be attached before the initializer is made.
    On a network one of the two builders assembled, when
    [create_optimizer] is called, and returns, after [create_initializer]
    and [initialize]: [train] raises inside the engine and leaves the
    model as it was, because the step counter [create_optimizer] made is
    a variable the initializer does not know; calling [initialize] again
    changes nothing, since it runs that same initializer; only a new
    [create_initializer] followed by [initialize] gives every variable of
    the step a value. *)
Theorem optimizer_attached_after_the_initializer_cannot_train
    (m m1 m3 : model) (sel : selector) (lr dr ds : Q)
    (batch_x batch_y : ndarray) (keep_prob : Q) :
  assembled_from m m1 ->
  create_optimizer sel lr dr ds (after initialize (after create_initializer m1))
  = (inr tt, m3) ->
  train batch_x batch_y keep_prob m3 = (inl EngineError, m3) /\
  initialize m3 = (inr tt, m3) /\
  ready_to_train m3 = false /\
  ready_to_train (after initialize (after create_initializer m3)) = true.
Proof.
  intros Ha Hopt.
  destruct (assembled_from_parameters m m1 Ha) as (ws & bs & HP).
  destruct (assembled_from_placeholders m m1 Ha) as (Hi & Ht & Hk).
  pose proof HP as (Hlen & g & Hg & Hv & Hnw & Hnb).
  rewrite (initialized_model m1 g Hg) in Hopt.
  destruct (create_optimizer_inr _ _ _ _ _ _ Hopt) as (g' & alg & l & Hg' & Hl & Hm3).
  simpl in Hg'. rewrite Hg in Hg'. inversion Hg'; subst g'. clear Hg'.
  simpl in Hm3, Hl.
  set (c := List.length (g_variables g)) in *.
  assert (Hunset : read_variable (mk_session (map Some (g_variables g)) []) c
                   = inl EngineError).
  { unfold read_variable. simpl. rewrite nth_error_map.
    destruct (nth_error (g_variables g) c) eqn:Hn; [|reflexivity].
    assert (c < List.length (g_variables g)) by (apply nth_error_Some; congruence).
    unfold c in *. lia. }
  assert (Hnot : ready_to_train m3 = false).
  { subst m3. unfold ready_to_train. simpl. rewrite Hi, Ht, Hk. simpl.
    fold c. now rewrite Hunset. }
  split; [|split; [|split]].
  - rewrite (train_attached m3 batch_x batch_y keep_prob
               (mk_train_op alg (ExponentialDecay lr (Var c) ds dr) l
                  (_nn_weights m1 ++ _nn_biases m1) (Var c)))
      by (subst m3; reflexivity).
    subst m3. simpl. unfold sess_run_train, train_feed. simpl.
    rewrite Hi, Ht, Hk. simpl. fold c. now rewrite Hunset.
  - rewrite (initialize_run m3 (g_variables g) (mk_session (map Some (g_variables g)) []))
      by (subst m3; reflexivity).
    unfold sess_run_init. simpl.
    rewrite skipn_all2 by (rewrite length_map; unfold c; lia).
    rewrite app_nil_r. subst m3. reflexivity.
  - exact Hnot.
  - apply (ready_to_train_initialized ws bs ([] ++ [scalar 0]) m3
             (mk_graph (g_variables g ++ [scalar 0]) (g_placeholders g))
             (mk_train_op alg (ExponentialDecay lr (Var c) ds dr) l
                (_nn_weights m1 ++ _nn_biases m1) (Var c))).
    + subst m3. split; [exact Hlen|]. eexists. split; [reflexivity|]. simpl.
      rewrite Hv, <- app_assoc. auto.
    + subst m3. reflexivity.
    + subst m3. reflexivity.
    + exists c. split; [reflexivity|]. simpl. rewrite length_app. simpl. unfold c. lia.
    + subst m3. reflexivity.
    + subst m3. simpl. congruence.
    + subst m3. simpl. congruence.
    + subst m3. simpl. congruence.
Qed.

End Schedule.

(** ** An assembly that raises *)

Lemma wiring_kept_refl m : wiring_kept m m.
Proof. unfold wiring_kept. auto. Qed.

Lemma wiring_kept_trans m1 m2 m3 :
  wiring_kept m1 m2 -> wiring_kept m2 m3 -> wiring_kept m1 m3.
Proof.
  unfold wiring_kept. intros (A1 & A2 & A3 & A4 & A5) (B1 & B2 & B3 & B4 & B5).
  repeat split; congruence.
Qed.

Lemma add_masked_fully_connected_layer_wiring x w b wm bm func m :
  wiring_kept m (snd (_add_masked_fully_connected_layer x w b wm bm func m)).
Proof.
  unfold _add_masked_fully_connected_layer, tf_Variable. run.
  destruct (_graph m) as [g|] eqn:Hg; simpl; [|apply wiring_kept_refl].
  destruct (String.eqb func "relu"); [|destruct (String.eqb func "softmax")];
    simpl; unfold wiring_kept; simpl; auto.
Qed.

Lemma masked_layer_wiring iw ib wm bm num kp n x m :
  wiring_kept m (snd (masked_layer iw ib wm bm num kp n x m)).
Proof.
  unfold masked_layer.
  unfold bind at 1. unfold lift at 1.
  destruct (py_getitem_opt iw (Z.of_nat n)) as [e|w]; simpl; [apply wiring_kept_refl|].
  unfold bind at 1. unfold lift at 1.
  destruct (py_getitem_opt ib (Z.of_nat n)) as [e|b]; simpl; [apply wiring_kept_refl|].
  unfold bind at 1. unfold lift at 1.
  destruct (py_getitem_opt wm (Z.of_nat n)) as [e|mw]; simpl; [apply wiring_kept_refl|].
  unfold bind at 1. unfold lift at 1.
  destruct (py_getitem_opt bm (Z.of_nat n)) as [e|mb]; simpl; [apply wiring_kept_refl|].
  destruct (n =? num - 1); apply add_masked_fully_connected_layer_wiring.
Qed.

Lemma masked_loop_wiring iw ib wm bm num kp l x m :
  wiring_kept m (snd (for_each (masked_layer iw ib wm bm num kp) l x m)).
Proof.
  apply for_each_preserves.
  - apply wiring_kept_refl.
  - apply wiring_kept_trans.
  - intros. apply masked_layer_wiring.
Qed.

(** A loop that raises has run some positions, and the next one raised. *)
Lemma for_each_seq_raises {X : Type} (body : nat -> X -> M X) :
  forall k a x m e m',
    for_each body (seq a k) x m = (inl e, m') ->
    exists j y mj,
      a <= j < a + k /\
      for_each body (seq a (j - a)) x m = (inr y, mj) /\
      body j y mj = (inl e, m').
Proof.
  induction k as [|k IH]; intros a x m e m' H.
  - discriminate H.
  - change (seq a (S k)) with (a :: seq (S a) k) in H. rewrite for_each_cons in H.
    destruct (body a x m) as [[e1|y] m1] eqn:Hb.
    + inversion H; subst e1 m1. exists a, x, m.
      rewrite Nat.sub_diag. repeat split; auto; lia.
    + destruct (IH (S a) y m1 e m' H) as (j & y' & mj & Hj & Hrun & Hfail).
      exists j, y', mj. split; [lia|]. split; [|exact Hfail].
      replace (j - a) with (S (j - S a)) by lia.
      change (seq a (S (j - S a))) with (a :: seq (S a) (j - S a)).
      now rewrite for_each_cons, Hb.
Qed.

(** A position of the masked assembly that raises has changed nothing. *)
Lemma masked_layer_inl iw ib wm bm num kp n x m e m' :
  masked_layer iw ib wm bm num kp n x m = (inl e, m') -> _graph m <> None -> m' = m.
Proof.
  unfold masked_layer. intros H Hg.
  unfold bind at 1 in H. unfold lift at 1 in H.
  destruct (py_getitem_opt iw (Z.of_nat n)) as [e1|w]; [now inversion H|].
  unfold bind at 1 in H. unfold lift at 1 in H.
  destruct (py_getitem_opt ib (Z.of_nat n)) as [e1|b]; [now inversion H|].
  unfold bind at 1 in H. unfold lift at 1 in H.
  destruct (py_getitem_opt wm (Z.of_nat n)) as [e1|mw]; [now inversion H|].
  unfold bind at 1 in H. unfold lift at 1 in H.
  destruct (py_getitem_opt bm (Z.of_nat n)) as [e1|mb]; [now inversion H|].
  exfalso. destruct (_graph m) as [g|] eqn:Eg; [|contradiction].
  destruct (n =? num - 1).
  - destruct (add_masked_fully_connected_layer_returns
                (Dropout x (Placeholder kp)) w b mw mb "softmax" m g Eg)
      as (x' & m1 & g' & Hr & _). rewrite Hr in H. discriminate.
  - destruct (add_masked_fully_connected_layer_returns
                (Dropout x (Placeholder kp)) w b mw mb "relu" m g Eg)
      as (x' & m1 & g' & Hr & _). rewrite Hr in H. discriminate.
Qed.

(** The positions before the last one leave the logit alone and keep a
    graph in place. *)
Lemma masked_prefix_keeps_logit iw ib wm bm num kp j x m y mj :
  for_each (masked_layer iw ib wm bm num kp) (seq 0 j) x m = (inr y, mj) ->
  j < num -> _graph m <> None ->
  _logit mj = _logit m /\ _graph mj <> None /\
  List.length (_nn_weights mj) = List.length (_nn_weights m) + j /\
  List.length (_nn_biases mj) = List.length (_nn_biases m) + j.
Proof.
  intros Hrun Hj Hg.
  assert (HH : 0 + j <= j ->
               _logit mj = _logit m /\ _graph mj <> None /\
               List.length (_nn_weights mj) = List.length (_nn_weights m) + (0 + j) /\
               List.length (_nn_biases mj) = List.length (_nn_biases m) + (0 + j)).
  { apply (for_each_seq_invariant
             (masked_layer iw ib wm bm num kp)
             (fun i _ p => i <= j ->
                _logit p = _logit m /\ _graph p <> None /\
                List.length (_nn_weights p) = List.length (_nn_weights m) + i /\
                List.length (_nn_biases p) = List.length (_nn_biases m) + i)
             j 0 x m y mj); [| |exact Hrun].
    - intros i z p z' p' Hi HP Hb Hle.
      destruct HP as (Hl & Hgp & Hw & Hbs); [lia|].
      destruct (masked_layer_step _ _ _ _ _ _ _ _ _ _ _ Hb)
        as (g & w & b & Hg1 & _ & _ & Hg' & Hnw & Hnb).
      destruct (masked_layer_inr _ _ _ _ _ _ _ _ _ _ _ Hb) as (_ & _ & _ & Hlog); [lia|].
      destruct Hlog as [[Hlog _]|[Hlast _]]; [|lia].
      rewrite Hlog, Hg', Hnw, Hnb, !length_app. simpl.
      repeat split; try congruence; lia.
    - intros _. repeat split; auto. }
  simpl in HH. apply HH. lia.
Qed.

(** The last position sets the logit. *)
Lemma masked_loop_sets_logit iw ib wm bm num kp x m y m' :
  for_each (masked_layer iw ib wm bm num kp) (seq 0 num) x m = (inr y, m') ->
  0 < num -> _logit m' <> None.
Proof.
  intros Hrun Hpos.
  assert (HH : 0 + num = num -> _logit m' <> None).
  { apply (for_each_seq_invariant
             (masked_layer iw ib wm bm num kp)
             (fun i _ p => i = num -> _logit p <> None)
             num 0 x m y m'); [| |exact Hrun].
    - intros i z p z' p' Hi _ Hb Hlast.
      destruct (masked_layer_inr _ _ _ _ _ _ _ _ _ _ _ Hb) as (_ & _ & _ & Hlog); [lia|].
      destruct Hlog as [[_ Hne]|(_ & pre & Hpre & _)]; [lia|]. congruence.
    - intros Hz. lia. }
  apply HH. reflexivity.
Qed.

Lemma create_masked_network_cases iw ib wm bm m :
  (exists e, _create_masked_network iw ib wm bm m
             = (inl e, set_nn_biases [] (set_nn_weights [] m))) \/
  (exists ws w0 wl il ol,
     iw = Some ws /\
     py_getitem ws 0 = inr w0 /\ py_getitem (shape w0) 0 = inr il /\
     py_getitem ws (-1) = inr wl /\ py_getitem (shape wl) 1 = inr ol).
Proof.
  destruct iw as [ws|].
  - destruct (py_getitem ws 0) as [e|w0] eqn:E0.
    { left. exists e. unfold _create_masked_network. run. now rewrite E0. }
    destruct (py_getitem (shape w0) 0) as [e|il] eqn:E1.
    { left. exists e. unfold _create_masked_network. run. now rewrite E0, E1. }
    destruct (py_getitem ws (-1)) as [e|wl] eqn:E2.
    { left. exists e. unfold _create_masked_network. run. now rewrite E0, E1, E2. }
    destruct (py_getitem (shape wl) 1) as [e|ol] eqn:E3.
    { left. exists e. unfold _create_masked_network. run.
      now rewrite E0, E1, E2, E3. }
    right. exists ws, w0, wl, il, ol. auto.
  - left. exists TypeError. reflexivity.
Qed.

(** X8. A masked assembly that raises leaves the model between two
    networks.  Whenever [_create_masked_network] raises, the loss, the
    accuracy, the output and the logit are still those of the network
    that was there before, and so are the session, the optimizer and the
    initializer; but the parameter lists have been emptied and hold only
    the layers built before the raise. *)
Theorem failed_masked_assembly_keeps_the_former_wiring
    (iw ib wm bm : option (list ndarray)) (m m' : model) (e : exn) :
  _create_masked_network iw ib wm bm m = (inl e, m') ->
  _loss m' = _loss m /\ _accuracy m' = _accuracy m /\
  _output m' = _output m /\ _logit m' = _logit m /\
  _sess m' = _sess m /\ _trainOp m' = _trainOp m /\
  _initializer m' = _initializer m /\
  List.length (_nn_weights m') = List.length (_nn_biases m') /\
  List.length (_nn_weights m') <= List.length (list_or_nil iw).
Proof.
  intro H.
  destruct (create_masked_network_cases iw ib wm bm m)
    as [(e0 & H0)|(ws & w0 & wl & il & ol & -> & H1 & H2 & H3 & H4)].
  - rewrite H0 in H. inversion H; subst e0 m'. simpl.
    repeat split; auto. lia.
  - rewrite (create_masked_network_unfold _ _ _ _ _ _ _ _ _ H1 H2 H3 H4) in H.
    set (m0 := assembly_start (Some [None; Some il]) (Some [None; Some ol])
                 (_layer_types m) m) in *.
    assert (Hpos : 0 < List.length ws).
    { destruct ws; [discriminate H1 | simpl; lia]. }
    unfold bind in H.
    destruct (for_each _ (range (List.length ws)) (Placeholder PhInput) m0)
      as [[e1|y] m1] eqn:Hloop.
    + inversion H; subst e1 m1. clear H. unfold range in Hloop.
      destruct (for_each_seq_raises _ _ _ _ _ _ _ Hloop)
        as (j & z & mj & Hj & Hpre & Hfail).
      rewrite Nat.sub_0_r in Hpre.
      destruct (masked_prefix_keeps_logit _ _ _ _ _ _ _ _ _ _ _ Hpre)
        as (Hl & Hg & Hw & Hb); [lia | discriminate |].
      apply masked_layer_inl in Hfail; [|exact Hg]. subst m'.
      pose proof (masked_loop_wiring (Some ws) ib wm bm (List.length ws) PhKeepProb
                    (seq 0 j) (Placeholder PhInput) m0) as Hwire.
      pose proof (masked_loop_frame (Some ws) ib wm bm (List.length ws) PhKeepProb
                    (seq 0 j) (Placeholder PhInput) m0) as Hframe.
      rewrite Hpre in Hwire, Hframe. simpl snd in Hwire, Hframe.
      destruct Hwire as (W1 & W2 & W3 & _).
      destruct Hframe as (F1 & _ & _ & _ & _ & F6 & F7 & _).
      simpl in *. repeat split; try congruence; try lia.
    + exfalso.
      pose proof (masked_loop_sets_logit _ _ _ _ _ _ _ _ _ _ Hloop Hpos) as Hlog.
      destruct (wire_outputs_returns false PhTarget y m1 Hlog) as (m2 & Hw).
      rewrite Hw in H. discriminate.
Qed.

(** ** Building again on a model in use *)

Lemma assembled_from_frame m m1 :
  assembled_from m m1 ->
  _sess m1 = _sess m /\ _trainOp m1 = _trainOp m /\ _initializer m1 = _initializer m.
Proof.
  intros [(iw & ib & lts & H)|(iw & ib & wm & bm & H)].
  - rewrite create_initialized_network_unfold in H.
    apply bind_inr in H as (x & m2 & Hloop & H).
    pose proof (lenet_loop_frame iw ib lts (List.length lts) PhKeepProb
                  (range (List.length lts))
                  (Reshape (Placeholder PhInput) [(-1)%Z; 28%Z; 28%Z; 1%Z])
                  (assembly_start (Some [None; Some 784]) (Some [None; Some 10]) lts m))
      as Hframe.
    rewrite Hloop in Hframe. destruct Hframe as (F1 & _ & _ & _ & _ & F6 & F7 & _).
    pose proof (wire_outputs_frame true PhTarget x m2) as Hw. rewrite H in Hw.
    destruct Hw as (G1 & _ & _ & _ & _ & G6 & G7 & _).
    simpl in *. repeat split; congruence.
  - destruct (create_masked_network_prelude _ _ _ _ _ _ H)
      as (ws & w0 & wl & il & ol & -> & H1 & H2 & H3 & H4).
    rewrite (create_masked_network_unfold _ _ _ _ _ _ _ _ _ H1 H2 H3 H4) in H.
    apply bind_inr in H as (x & m2 & Hloop & H).
    pose proof (masked_loop_frame (Some ws) ib wm bm (List.length ws) PhKeepProb
                  (range (List.length ws)) (Placeholder PhInput)
                  (assembly_start (Some [None; Some il]) (Some [None; Some ol])
                     (_layer_types m) m))
      as Hframe.
    rewrite Hloop in Hframe. destruct Hframe as (F1 & _ & _ & _ & _ & F6 & F7 & _).
    pose proof (wire_outputs_frame false PhTarget x m2) as Hw. rewrite H in Hw.
    destruct Hw as (G1 & _ & _ & _ & _ & G6 & G7 & _).
    simpl in *. repeat split; congruence.
Qed.

(** X9. Building a network again does not detach what was attached, and
    does not carry it over to the new graph either.  The two builders
    never write the session, the optimizer or the initializer: when one of
    them returns on a model in use, the model still holds the optimizer,
    the session and the initializer it held before, beside a new graph
    whose variables are the weights and biases of the new layers and
    nothing else -- no step counter, which only [create_optimizer] adds.
    So what the model holds belongs to the former network until
    [create_optimizer] and [create_initializer] are called again. *)
Theorem assembling_again_keeps_the_former_optimizer (m m1 : model) :
  assembled_from m m1 ->
  _trainOp m1 = _trainOp m /\ _sess m1 = _sess m /\ _initializer m1 = _initializer m /\
  exists ws bs, parameters_in_order ws bs [] m1.
Proof.
  intro H1.
  destruct (assembled_from_frame m m1 H1) as (Fs & Fo & Fi).
  split; [exact Fo|]. split; [exact Fs|]. split; [exact Fi|].
  exact (assembled_from_parameters m m1 H1).
Qed.

(** ** The accuracy as a fraction *)




Section AccuracyRange.
Context {E : Engine}.


End AccuracyRange.

(** ** Running the initializer again *)

Section Reset.
Context {E : Engine}.

Lemma train_keeps_session m bx bt kp s :
  _sess m = Some s -> exists s', _sess (snd (train bx bt kp m)) = Some s'.
Proof.
  intro Hs. destruct (_trainOp m) as [op|] eqn:Hop.
  - rewrite (train_attached _ _ _ _ _ Hop), Hs.
    destruct (sess_run_train s op _); simpl; eauto.
  - rewrite train_unattached by assumption. simpl. eauto.
Qed.

Lemma train_all_keeps_session batches : forall m s,
  _sess m = Some s -> exists s', _sess (train_all batches m) = Some s'.
Proof.
  induction batches as [|[[bx bt] kp] rest IH]; intros m s Hs; simpl; eauto.
  destruct (train_keeps_session m bx bt kp s Hs) as (s1 & Hs1). eauto.
Qed.

Lemma sess_run_init_reads s inits id v :
  nth_error inits id = Some v -> read_variable (sess_run_init s inits) id = inr v.
Proof.
  intro H. unfold read_variable, sess_run_init. simpl.
  rewrite nth_error_app1 by (rewrite length_map; apply nth_error_Some; congruence).
  now rewrite nth_error_map, H.
Qed.

Lemma sess_run_init_twice s inits :
  sess_run_init (sess_run_init s inits) inits = sess_run_init s inits.
Proof.
  unfold sess_run_init. simpl. f_equal. f_equal.
  rewrite skipn_app, length_map, Nat.sub_diag. simpl.
  rewrite skipn_all2 by (rewrite length_map; lia). reflexivity.
Qed.

(** X11. [initialize] puts the variables back.  On a model with a graph,
    once [create_initializer] has been called, then after [initialize] and
    any number of [train] calls a further [initialize] returns and gives
    back to every variable the graph had when the initializer was made
    its initial value, whatever training wrote into it; the rest of the
    model is untouched, and calling [initialize] once more changes
    nothing. *)
Theorem initialize_gives_the_variables_their_initial_values
    (m : model) (g : graph) (batches : list (ndarray * ndarray * Q)) :
  _graph m = Some g ->
  let m2 := train_all batches (after initialize (after create_initializer m)) in
  exists s,
    initialize m2 = (inr tt, set_sess (Some s) m2) /\
    (forall id v, nth_error (g_variables g) id = Some v -> read_variable s id = inr v) /\
    initialize (set_sess (Some s) m2) = (inr tt, set_sess (Some s) m2).
Proof.
  intros Hg m2.
  pose proof (initialized_model m g Hg) as Hm1.
  pose proof (train_all_same_but_session batches
                (after initialize (after create_initializer m))) as Hsame.
  fold m2 in Hsame.
  assert (Hi : _initializer m2 = Some (g_variables g)).
  { apply (f_equal _initializer) in Hsame. simpl in Hsame. rewrite <- Hsame, Hm1.
    reflexivity. }
  destruct (train_all_keeps_session batches
              (after initialize (after create_initializer m))
              (mk_session (map Some (g_variables g)) []))
    as (s2 & Hs2); [now rewrite Hm1|].
  fold m2 in Hs2.
  exists (sess_run_init s2 (g_variables g)).
  split; [now apply initialize_run|].
  split; [intros id v; apply sess_run_init_reads|].
  rewrite (initialize_run _ (g_variables g) (sess_run_init s2 (g_variables g)))
    by (simpl; auto).
  now rewrite sess_run_init_twice.
Qed.

End Reset.

(** ** The default network *)

Lemma built_all lts : forall ps,
  Forall (fun ty => kind_of ty <> None) lts ->
  List.length ps <= List.length lts -> built lts ps = ps.
Proof.
  induction lts as [|ty lts IH]; intros [|p ps] Hk Hlen; simpl in Hlen;
    try reflexivity; try lia.
  inversion Hk as [|? ? Hty Hrest]; subst.
  rewrite built_cons, (IH ps Hrest) by lia.
  destruct (kind_of ty); [reflexivity | contradiction].
Qed.

(** The list of layer types is recorded first, whatever happens next. *)
Lemma create_initialized_network_layer_types iw ib lts m :
  _layer_types (snd (_create_initialized_network iw ib (Some lts) m)) = lts.
Proof.
  rewrite create_initialized_network_unfold. unfold bind.
  pose proof (lenet_loop_frame iw ib lts (List.length lts) PhKeepProb
                (range (List.length lts))
                (Reshape (Placeholder PhInput) [(-1)%Z; 28%Z; 28%Z; 1%Z])
                (assembly_start (Some [None; Some 784]) (Some [None; Some 10]) lts m))
    as Hframe.
  destruct (for_each _ _ _ _) as [[e|x] m1]; simpl in Hframe.
  - destruct Hframe as (_ & _ & _ & _ & F5 & _). exact F5.
  - pose proof (wire_outputs_frame true PhTarget x m1) as Hw.
    destruct Hw as (_ & _ & _ & _ & G5 & _).
    destruct Hframe as (_ & _ & _ & _ & F5 & _). simpl in F5. congruence.
Qed.

Section Default.
Context {E : Engine}.

(** X12. The network [create_network] builds when it is given no
    weights.  When the random draw gives an array of the shape it is asked
    for, then for every model, and whatever biases and layer types are
    passed along with the missing weights -- they are ignored --,
    [create_network] returns; it records the layer types conv, conv, fc,
    fc, and the graph holds, layer by layer, a weight drawn with the
    shapes 5x5x1x32, 5x5x32x64, 3136x512 and 512x10 and a bias of 32, 64,
    512 and 10 entries, all 0.1.  Given weights but no layer types,
    [create_network] raises a TypeError before it writes anything. *)
Theorem create_network_without_weights_builds_the_default_network (m : model) :
  (forall shp, shape (truncnorm_rvs shp) = shp) ->
  let ws := map truncnorm_rvs [[5; 5; 1; 32]; [5; 5; 32; 64]; [3136; 512]; [512; 10]] in
  let bs := map (fun k => mk_ndarray [k] (repeat (1 # 10)%Q k)) [32; 64; 512; 10] in
  (exists m1,
     (forall ib lts, create_network None ib lts m = (inr tt, m1)) /\
     _layer_types m1 = ["conv"; "conv"; "fc"; "fc"]%string /\
     parameters_in_order ws bs [] m1) /\
  (forall iw ib, create_network (Some iw) ib None m = (inl TypeError, m)).
Proof.
  intros Hlaw ws bs. split; [|reflexivity].
  assert (Hkinds : Forall (fun ty => kind_of ty <> None)
                     ["conv"; "conv"; "fc"; "fc"]%string).
  { repeat constructor; discriminate. }
  destruct (create_initialized_network_returns ws bs
              ["conv"; "conv"; "fc"; "fc"]%string m) as (m1 & Hrun).
  - simpl. lia.
  - reflexivity.
  - unfold ws. rewrite length_map. simpl. lia.
  - unfold bs. rewrite length_map. simpl. lia.
  - unfold ws. repeat constructor; rewrite Hlaw; discriminate.
  - exists m1. split; [|split].
    + intros ib lts. unfold create_network, _create_random_network, bind. cbv zeta.
      match goal with
      | |- context [_create_initialized_network ?a ?b ?c m] =>
          replace (_create_initialized_network a b c m) with (inr tt : exn + unit, m1)
            by (symmetry; exact Hrun)
      end.
      reflexivity.
    + pose proof (create_initialized_network_layer_types ws (Some bs)
                    ["conv"; "conv"; "fc"; "fc"]%string m) as Hl.
      now rewrite Hrun in Hl.
    + pose proof (create_initialized_network_layout _ _ _ _ _ Hrun) as HP.
      rewrite !built_all in HP; auto;
        unfold ws, bs; simpl list_or_nil; rewrite length_map; simpl; lia.
Qed.

End Default.

(** ** Attaching an optimizer twice *)

Lemma create_optimizer_inr_algorithm sel lr dr ds m m2 :
  create_optimizer sel lr dr ds m = (inr tt, m2) ->
  exists alg, choose_optimizer sel = Some alg /\
              option_map op_algorithm (_trainOp m2) = Some alg.
Proof.
  intro H. destruct (_graph m) as [g|] eqn:Hg.
  - rewrite (create_optimizer_run _ _ _ _ _ _ Hg) in H. cbv zeta in H.
    destruct (choose_optimizer sel) as [alg|]; [|discriminate].
    destruct (_loss m) as [l|]; [|discriminate].
    destruct (_nn_weights m ++ _nn_biases m) as [|v vs]; [discriminate|].
    inversion H. exists alg. auto.
  - rewrite (create_optimizer_no_graph _ _ _ _ _ Hg) in H. discriminate.
Qed.

Section Twice.
Context {E : Engine}.

Lemma train_each_is_train_all batches : forall m m',
  train_each batches m = inr m' -> m' = train_all batches m.
Proof.
  induction batches as [|[[bx bt] kp] rest IH]; intros m m' H; simpl in *.
  - now inversion H.
  - destruct (train bx bt kp m) as [[e|u] m1]; [discriminate|]. simpl. now apply IH.
Qed.

(** X13. A second [create_optimizer] replaces the first.  On a network
    one of the two builders assembled, when [create_optimizer] returned
    twice, the optimizer attached is the second one: its algorithm is the
    one of the second selector, it steps the same weights and biases, and
    its step counter is a new variable, the one after the first counter.
    After [create_initializer], [initialize] and [k] [train] calls that
    returned, [learning_rate] follows the schedule given to the second
    call, and the counter of the first call still holds 0: nothing steps
    it any more. *)
Theorem second_create_optimizer_replaces_the_first
    (m m1 m2 m3 m5 : model) (sel1 sel2 : selector) (lr1 dr1 ds1 lr2 dr2 ds2 : Q)
    (batches : list (ndarray * ndarray * Q)) :
  assembled_from m m1 -> (0 < ds2)%Q ->
  create_optimizer sel1 lr1 dr1 ds1 m1 = (inr tt, m2) ->
  create_optimizer sel2 lr2 dr2 ds2 m2 = (inr tt, m3) ->
  train_each batches (after initialize (after create_initializer m3)) = inr m5 ->
  exists g op s,
    _graph m1 = Some g /\
    _trainOp m3 = Some op /\
    choose_optimizer sel2 = Some (op_algorithm op) /\
    op_var_list op = _nn_weights m1 ++ _nn_biases m1 /\
    op_global_step op = Var (S (List.length (g_variables g))) /\
    learning_rate m5
    = (inr (Num (lr2 * Qpower dr2 (Qfloor (Q_of_nat (List.length batches) / ds2)))), m5) /\
    _sess m5 = Some s /\
    read_variable s (List.length (g_variables g)) = inr (scalar 0).
Proof.
  intros Ha Hds H1 H2 Htrain.
  destruct (assembled_from_parameters m m1 Ha) as (ws & bs & HP).
  pose proof (create_optimizer_parameters sel1 lr1 dr1 ds1 _ _ _ _ HP) as HP2.
  unfold after in HP2. rewrite H1 in HP2. simpl snd in HP2.
  destruct (create_optimizer_inr _ _ _ _ _ _ H1) as (g & alg1 & l1 & Hg & Hl1 & Hm2).
  destruct (create_optimizer_inr _ _ _ _ _ _ H2) as (g2 & alg2 & l2 & Hg2 & Hl2 & Hm3).
  destruct (create_optimizer_inr_algorithm _ _ _ _ _ _ H2) as (alg & Halg & Hop).
  assert (Eg2 : g2 = mk_graph (g_variables g ++ [scalar 0]) (g_placeholders g)).
  { rewrite Hm2 in Hg2. simpl in Hg2. now inversion Hg2. }
  assert (Ew : _nn_weights m2 = _nn_weights m1 /\ _nn_biases m2 = _nn_biases m1).
  { rewrite Hm2. split; reflexivity. }
  destruct Ew as [Ew Eb].
  set (c := List.length (g_variables g)) in *.
  assert (Ec : List.length (g_variables g2) = S c).
  { rewrite Eg2. simpl. rewrite length_app. simpl. unfold c. lia. }
  set (op := mk_train_op alg2 (ExponentialDecay lr2 (Var (S c)) ds2 dr2) l2
               (_nn_weights m1 ++ _nn_biases m1) (Var (S c))).
  assert (Hop3 : _trainOp m3 = Some op).
  { rewrite Hm3. simpl. unfold op. now rewrite Ec, Ew, Eb. }
  assert (Hg3 : _graph m3
                = Some (mk_graph (g_variables g ++ [scalar 0] ++ [scalar 0])
                          (g_placeholders g))).
  { rewrite Hm3, Eg2. simpl. now rewrite <- app_assoc. }
  pose proof (train_each_is_train_all _ _ _ Htrain) as Hall.
  pose proof (initialized_model m3 _ Hg3) as Hstart. cbn [g_variables] in Hstart.
  destruct (train_all_frame batches (after initialize (after create_initializer m3)) op
              (mk_session (map Some (g_variables g ++ [scalar 0] ++ [scalar 0])) []))
    as (s & Hs & Hframe).
  { rewrite Hstart. exact Hop3. }
  { rewrite Hstart. reflexivity. }
  rewrite <- Hall in Hs.
  exists g, op, s.
  split; [exact Hg|]. split; [exact Hop3|].
  split; [rewrite Hop3 in Hop; simpl in Hop; rewrite Halg; simpl; congruence|].
  split; [reflexivity|]. split; [reflexivity|].
  split; [eapply schedule_after_steps; eauto|].
  split; [exact Hs|].
  unfold read_variable. fold c. rewrite (Hframe c).
  - simpl. rewrite nth_error_map, nth_error_app2 by (unfold c; lia).
    unfold c. now rewrite Nat.sub_diag.
  - intro Hin. destruct (var_list_below ws bs [] m1 g c HP Hg Hin). unfold c in *. lia.
  - simpl. intro Heq. inversion Heq. lia.
Qed.

End Twice.

(** ** A convolutional assembly that raises *)

Lemma add_fully_connected_layer_wiring x w b func m :
  wiring_kept m (snd (_add_fully_connected_layer x w b func m)).
Proof.
  unfold _add_fully_connected_layer, tf_Variable. run.
  destruct (_graph m) as [g|] eqn:Hg; simpl; [|apply wiring_kept_refl].
  destruct (String.eqb func "relu"); [|destruct (String.eqb func "softmax")];
    simpl; unfold wiring_kept; simpl; auto.
Qed.

Lemma add_convolution_layer_wiring x w b pool m :
  wiring_kept m (snd (_add_convolution_layer x w b pool m)).
Proof.
  unfold _add_convolution_layer, tf_Variable. run.
  destruct (_graph m) as [g|] eqn:Hg; simpl; unfold wiring_kept; simpl; auto.
Qed.

Lemma lenet_layer_wiring iw ib lts num kp n x m :
  wiring_kept m (snd (lenet_layer iw ib lts num kp n x m)).
Proof.
  unfold lenet_layer. unfold bind at 1. unfold lift at 1.
  destruct (py_getitem lts (Z.of_nat n)) as [e|ty]; simpl; [apply wiring_kept_refl|].
  destruct (String.eqb ty "conv").
  - unfold bind at 1. unfold lift at 1.
    destruct (py_getitem iw (Z.of_nat n)) as [e|w]; simpl; [apply wiring_kept_refl|].
    unfold bind at 1. unfold lift at 1.
    destruct (py_getitem_opt ib (Z.of_nat n)) as [e|b]; simpl; [apply wiring_kept_refl|].
    apply add_convolution_layer_wiring.
  - destruct (String.eqb ty "fc"); [|apply wiring_kept_refl].
    unfold bind at 1. unfold lift at 1.
    destruct (py_getitem lts (Z.of_nat n - 1)) as [e|prev]; simpl;
      [apply wiring_kept_refl|].
    unfold bind at 1.
    assert (Hx1 : forall r, r = (if String.eqb prev "conv"
                  then bind (lift (py_getitem iw (Z.of_nat n)))
                         (fun w => bind (lift (py_getitem (shape w) 0))
                            (fun num_x => ret (Reshape x [(-1)%Z; Z.of_nat num_x])))
                  else ret x) m -> snd r = m).
    { intros r ->. destruct (String.eqb prev "conv"); [|reflexivity].
      run. split_body; reflexivity. }
    match goal with
    | |- context [match ?c m with _ => _ end] =>
        pose proof (Hx1 (c m) eq_refl) as Hm; destruct (c m) as [[e|x1] m1]
    end; simpl in Hm; subst m1; [apply wiring_kept_refl|].
    unfold bind at 1. unfold lift at 1.
    destruct (py_getitem iw (Z.of_nat n)) as [e|w]; simpl; [apply wiring_kept_refl|].
    unfold bind at 1. unfold lift at 1.
    destruct (py_getitem_opt ib (Z.of_nat n)) as [e|b]; simpl; [apply wiring_kept_refl|].
    destruct (n =? num - 1); apply add_fully_connected_layer_wiring.
Qed.

Lemma lenet_loop_wiring iw ib lts num kp l x m :
  wiring_kept m (snd (for_each (lenet_layer iw ib lts num kp) l x m)).
Proof.
  apply for_each_preserves.
  - apply wiring_kept_refl.
  - apply wiring_kept_trans.
  - intros. apply lenet_layer_wiring.
Qed.

Lemma wire_outputs_inl v2 target x m e m' :
  wire_outputs v2 target x m = (inl e, m') ->
  _logit m = None /\ _loss m' = _loss m /\ _accuracy m' = _accuracy m /\
  _output m' = Some x /\ _fw_signals m' = _fw_signals m ++ [None; Some x].
Proof.
  unfold wire_outputs. run. destruct (_logit m) as [l|] eqn:Hl; [discriminate|].
  intro H. inversion H. simpl. rewrite <- app_assoc. auto.
Qed.

(** X14. A convolutional assembly that raises keeps the former loss.
    Whenever [_create_initialized_network] raises, the loss and the
    accuracy are still those of the network that was there before, and so
    are the session, the optimizer and the initializer.  Without a list
    of layer types nothing at all was written; with one, the list has
    been recorded. *)
Theorem failed_lenet_assembly_keeps_the_former_loss
    (iw : list ndarray) (ib : option (list ndarray)) (lts : option (list string))
    (m m' : model) (e : exn) :
  _create_initialized_network iw ib lts m = (inl e, m') ->
  _loss m' = _loss m /\ _accuracy m' = _accuracy m /\
  _sess m' = _sess m /\ _trainOp m' = _trainOp m /\ _initializer m' = _initializer m /\
  (lts = None -> m' = m) /\
  (forall l, lts = Some l -> _layer_types m' = l).
Proof.
  intro H. destruct lts as [l|].
  - pose proof (create_initialized_network_layer_types iw ib l m) as Hlt.
    rewrite H in Hlt. simpl in Hlt.
    rewrite create_initialized_network_unfold in H.
    set (m0 := assembly_start (Some [None; Some 784]) (Some [None; Some 10]) l m) in *.
    pose proof (lenet_loop_wiring iw ib l (List.length l) PhKeepProb
                  (range (List.length l))
                  (Reshape (Placeholder PhInput) [(-1)%Z; 28%Z; 28%Z; 1%Z]) m0) as Hwire.
    pose proof (lenet_loop_frame iw ib l (List.length l) PhKeepProb
                  (range (List.length l))
                  (Reshape (Placeholder PhInput) [(-1)%Z; 28%Z; 28%Z; 1%Z]) m0) as Hframe.
    unfold bind in H.
    destruct (for_each _ (range (List.length l)) _ m0) as [[e1|y] m1] eqn:Hloop.
    + inversion H; subst e1 m1. simpl snd in *.
      destruct Hwire as (W1 & W2 & W3 & _).
      destruct Hframe as (F1 & _ & _ & _ & _ & F6 & F7 & _).
      simpl in *.
      split; [congruence|]. split; [congruence|]. split; [congruence|].
      split; [congruence|]. split; [congruence|]. split; [discriminate|].
      intros l0 Hl0; congruence.
    + simpl snd in *.
      destruct Hwire as (W1 & W2 & W3 & _).
      destruct Hframe as (F1 & _ & _ & _ & _ & F6 & F7 & _).
      pose proof (wire_outputs_frame true PhTarget y m1) as Hw. rewrite H in Hw.
      destruct Hw as (G1 & _ & _ & _ & _ & G6 & G7 & _). simpl snd in *.
      destruct (wire_outputs_inl _ _ _ _ _ _ H) as (Hnone & L1 & L2 & L3 & L4).
      simpl in *.
      split; [congruence|]. split; [congruence|]. split; [congruence|].
      split; [congruence|]. split; [congruence|]. split; [discriminate|].
      intros l0 Hl0; congruence.
  - inversion H; subst. split; [reflexivity|]. split; [reflexivity|]. split; [reflexivity|].
    split; [reflexivity|]. split; [reflexivity|]. split; [reflexivity|].
    discriminate.
Qed.

(** ** The regularizer, all or nothing *)

Lemma combine_nil_iff {A B : Type} (l : list A) (l' : list B) :
  combine l l' = [] <-> l = [] \/ l' = [].
Proof.
  destruct l, l'; simpl; split; intro H; auto; try discriminate;
    destruct H; discriminate.
Qed.

Lemma py_zip_weight_list ws w n z :
  py_zip ws (per_tensor_weights w n) = inr z ->
  exists l, weight_list w n = Some l /\ z = combine ws l.
Proof.
  unfold weight_list. destruct (per_tensor_weights w n); simpl; try discriminate.
  intro H. injection H as <-. eauto.
Qed.

Lemma py_zip_given ws w n z :
  py_zip ws (per_tensor_weights w n) = inr z -> z <> [] ->
  ws <> [] /\ weights_given w.
Proof.
  intros H Hz.
  destruct w as [|s|[|q l]|i|s]; simpl in H; try discriminate;
    injection H as <-; rewrite combine_nil_iff in Hz;
    (split; [tauto | simpl; tauto]).
Qed.

Lemma weights_given_list ws w :
  ws <> [] -> weights_given w ->
  exists l, weight_list w (List.length ws) = Some l /\
            py_zip ws (per_tensor_weights w (List.length ws)) = inr (combine ws l) /\
            combine ws l <> [].
Proof.
  intros Hws Hw. destruct ws as [|t ws]; [contradiction|].
  destruct w as [|s|[|q l]|i|s]; simpl in Hw; try contradiction;
    unfold weight_list; simpl; eexists; (split; [reflexivity|]);
      (split; [reflexivity | discriminate]).
Qed.

Lemma add_regulizer_cases l1_weight l2_weight m :
  (exists e, add_regulizer l1_weight l2_weight m = (inl e, m)) \/
  (exists g loss z1 z2,
     _graph m = Some g /\ _loss m = Some loss /\
     py_zip (_nn_weights m)
       (per_tensor_weights l1_weight (List.length (_nn_weights m))) = inr z1 /\
     z1 <> [] /\
     py_zip (_nn_weights m)
       (per_tensor_weights l2_weight (List.length (_nn_weights m))) = inr z2 /\
     z2 <> [] /\
     add_regulizer l1_weight l2_weight m
     = (inr tt,
        set_loss
          (Some (SAdd loss
             (SAdd (AddN (map (fun ws => Scale (snd ws) (Norm1 (fst ws))) z1))
                   (AddN (map (fun ws => Scale (snd ws) (L2Loss (fst ws))) z2)))))
          m)).
Proof.
  unfold add_regulizer, as_default, tf_add_n. run.
  destruct (_graph m) as [g|]; simpl; [|left; eauto].
  destruct (py_zip _ (per_tensor_weights l1_weight _)) as [e|z1]; simpl; [left; eauto|].
  destruct z1 as [|p1 z1]; simpl; [left; eauto|].
  destruct (py_zip _ (per_tensor_weights l2_weight _)) as [e|z2]; simpl; [left; eauto|].
  destruct z2 as [|p2 z2]; simpl; [left; eauto|].
  destruct (_loss m) as [l|]; simpl; [|left; eauto].
  right. exists g, l, (p1 :: z1), (p2 :: z2).
  repeat (split; [first [reflexivity | discriminate]|]). reflexivity.
Qed.

(** X15. [add_regulizer] is all or nothing.  It returns only when the
    model has a graph, a loss and at least one weight tensor and each
    weight argument is [None], a float or a list that is not empty; then
    only the loss has changed.  Whenever it raises, the model is as it
    was: no term was added to the loss. *)
Theorem add_regulizer_returns_or_changes_nothing
    (l1_weight l2_weight : reg_weight) (m : model) :
  (fst (add_regulizer l1_weight l2_weight m) = inr tt ->
   (_graph m <> None /\ _loss m <> None /\ _nn_weights m <> [] /\
    weights_given l1_weight /\ weights_given l2_weight) /\
   exists l, set_loss l (snd (add_regulizer l1_weight l2_weight m)) = set_loss l m) /\
  (fst (add_regulizer l1_weight l2_weight m) <> inr tt ->
   snd (add_regulizer l1_weight l2_weight m) = m).
Proof.
  destruct (add_regulizer_cases l1_weight l2_weight m)
    as [(e & ->)|(g & loss & z1 & z2 & Hg & Hl & Z1 & N1 & Z2 & N2 & ->)]; simpl.
  - split; [discriminate | reflexivity].
  - split; [|intro H; contradiction].
    intros _.
    destruct (py_zip_given _ _ _ _ Z1 N1) as [Hws G1].
    destruct (py_zip_given _ _ _ _ Z2 N2) as [_ G2].
    split.
    + split; [congruence|]. split; [congruence|]. auto.
    + exists None. reflexivity.
Qed.

(** ** The properties on concrete models *)

Lemma stand_in_keeps_shapes : step_keeps_shapes (E := StandInEngine).
Proof.
  intros op fd s id v H. simpl. now rewrite H.
Qed.

Lemma recorded_signals_are_ready_after_the_call_sequence_witness :
  ready_for_inference
    (train_all (E := StandInEngine) [(batch2, target_same, 1%Q)]
       (after initialize (after create_initializer pruned_with_optimizer))) = true /\
  (exists vals,
     fst (get_fw_signals (E := StandInEngine) batch2
            (train_all [(batch2, target_same, 1%Q)]
               (after initialize (after create_initializer pruned_with_optimizer))))
     = inr vals) /\
  forall vals m',
    get_fw_signals (E := StandInEngine) batch2
      (train_all [(batch2, target_same, 1%Q)]
         (after initialize (after create_initializer pruned_with_optimizer)))
    = (inr vals, m') ->
    List.length vals = 3.
Proof.
  destruct (recorded_signals_are_ready_after_the_call_sequence (E := StandInEngine)
              PrunedFCSoftmaxModel pruned_built (SelStr "GD") (1 # 100) (95 # 100) 100
              [(batch2, target_same, 1%Q)] batch2)
    as (Hr & _ & _ & Hvals).
  - reflexivity.
  - right. exists (Some [w_init]), (Some [b_zero]), (Some [mask_w]), (Some [mask_b]).
    vm_compute. reflexivity.
  - split; [exact Hr|]. split.
    + eexists. vm_compute. reflexivity.
    + intros vals m' H. exact (proj2 (Hvals vals m' H)).
Defined.

Lemma masked_get_weights_returns_initial_parameters_witness :
  fst (get_weights (E := StandInEngine)
         (after initialize (after create_initializer pruned_built)))
  = inr ([w_init], [b_zero]).
Proof.
  destruct (masked_get_weights_returns_initial_parameters (E := StandInEngine)
              (Some [w_init]) (Some [b_zero]) (Some [mask_w]) (Some [mask_b])
              PrunedFCSoftmaxModel pruned_built (SelStr "GD") (1 # 100) (95 # 100) 100 [])
    as (H & _).
  - vm_compute. reflexivity.
  - now rewrite H.
Defined.

Lemma lenet_get_weights_returns_built_parameters_witness :
  fst (get_weights (E := StandInEngine)
         (after initialize (after create_initializer lenet_small)))
  = inr ([mk_ndarray [5; 5; 1; 2] []; mk_ndarray [4; 2] []],
         [mk_ndarray [2] []; mk_ndarray [2] []]).
Proof.
  destruct (lenet_get_weights_returns_built_parameters (E := StandInEngine)
              [mk_ndarray [5; 5; 1; 2] []; mk_ndarray [4; 2] []]
              (Some [mk_ndarray [2] []; mk_ndarray [2] []])
              ["conv"; "fc"]%string
              BasicLenetModel lenet_small (SelStr "GD") (1 # 100) (95 # 100) 100 [])
    as (H & _).
  - vm_compute. reflexivity.
  - now rewrite H.
Defined.

Lemma learning_rate_decays_with_the_number_of_steps_witness :
  fst (learning_rate (E := StandInEngine)
         (train_all [(batch2, target_same, 1%Q); (batch2, target_other, 1%Q)]
            (after initialize
               (after create_initializer
                  (after (create_optimizer (SelStr "GD") (1 # 100) (1 # 2) 1)
                         pruned_built)))))
  = inr (Num ((1 # 100) * Qpower (1 # 2) 2)).
Proof.
  rewrite (learning_rate_decays_with_the_number_of_steps (E := StandInEngine)
             PrunedFCSoftmaxModel pruned_built
             (after (create_optimizer (SelStr "GD") (1 # 100) (1 # 2) 1) pruned_built)
             (train_all [(batch2, target_same, 1%Q); (batch2, target_other, 1%Q)]
                (after initialize
                   (after create_initializer
                      (after (create_optimizer (SelStr "GD") (1 # 100) (1 # 2) 1)
                             pruned_built))))
             (SelStr "GD") (1 # 100) (1 # 2) 1
             [(batch2, target_same, 1%Q); (batch2, target_other, 1%Q)]).
  - reflexivity.
  - right. exists (Some [w_init]), (Some [b_zero]), (Some [mask_w]), (Some [mask_b]).
    vm_compute. reflexivity.
  - reflexivity.
  - vm_compute. reflexivity.
  - vm_compute. reflexivity.
Defined.

Lemma optimizer_attached_after_the_initializer_cannot_train_witness :
  fst (train (E := StandInEngine) batch2 target_same 1
         (after (create_optimizer (SelStr "GD") (1 # 100) (95 # 100) 100)
                (after initialize (after create_initializer pruned_built))))
  = inl EngineError.
Proof.
  destruct (optimizer_attached_after_the_initializer_cannot_train (E := StandInEngine)
              PrunedFCSoftmaxModel pruned_built
              (after (create_optimizer (SelStr "GD") (1 # 100) (95 # 100) 100)
                     (after initialize (after create_initializer pruned_built)))
              (SelStr "GD") (1 # 100) (95 # 100) 100 batch2 target_same 1)
    as (H & _).
  - right. exists (Some [w_init]), (Some [b_zero]), (Some [mask_w]), (Some [mask_b]).
    vm_compute. reflexivity.
  - vm_compute. reflexivity.
  - now rewrite H.
Defined.

Lemma failed_masked_assembly_keeps_the_former_wiring_witness :
  fst (_create_masked_network (Some [w_init; w_init]) (Some [b_zero; b_zero])
         (Some [mask_w]) (Some [mask_b]) pruned_ready)
  = inl IndexError /\
  _loss (after (_create_masked_network (Some [w_init; w_init]) (Some [b_zero; b_zero])
                  (Some [mask_w]) (Some [mask_b])) pruned_ready)
  = _loss pruned_ready /\
  _trainOp (after (_create_masked_network (Some [w_init; w_init]) (Some [b_zero; b_zero])
                     (Some [mask_w]) (Some [mask_b])) pruned_ready)
  = _trainOp pruned_ready.
Proof.
  assert (R : _create_masked_network (Some [w_init; w_init]) (Some [b_zero; b_zero])
                (Some [mask_w]) (Some [mask_b]) pruned_ready
              = (inl IndexError,
                 after (_create_masked_network (Some [w_init; w_init])
                          (Some [b_zero; b_zero]) (Some [mask_w]) (Some [mask_b]))
                       pruned_ready))
    by (vm_compute; reflexivity).
  destruct (failed_masked_assembly_keeps_the_former_wiring _ _ _ _ _ _ _ R)
    as (H1 & _ & _ & _ & _ & H6 & _).
  split; [now rewrite R|]. split; [exact H1 | exact H6].
Defined.

Lemma assembling_again_keeps_the_former_optimizer_witness :
  _trainOp (after (_create_masked_network (Some [w_init]) (Some [b_zero])
                     (Some [mask_w]) (Some [mask_b])) pruned_ready)
  = _trainOp pruned_ready /\
  _sess (after (_create_masked_network (Some [w_init]) (Some [b_zero])
                  (Some [mask_w]) (Some [mask_b])) pruned_ready)
  = _sess pruned_ready.
Proof.
  destruct (assembling_again_keeps_the_former_optimizer
              pruned_ready
              (after (_create_masked_network (Some [w_init]) (Some [b_zero])
                        (Some [mask_w]) (Some [mask_b])) pruned_ready))
    as (H1 & H2 & _).
  - right. exists (Some [w_init]), (Some [b_zero]), (Some [mask_w]), (Some [mask_b]).
    vm_compute. reflexivity.
  - split; [exact H1 | exact H2].
Defined.


Lemma initialize_gives_the_variables_their_initial_values_witness :
  exists s,
    fst (initialize
           (train_all [(batch2, target_same, 1%Q)]
              (after initialize (after create_initializer pruned_with_optimizer))))
    = inr tt /\
    read_variable s 0 = inr w_init.
Proof.
  destruct (initialize_gives_the_variables_their_initial_values (E := StandInEngine)
              pruned_with_optimizer
              (mk_graph [w_init; b_zero; scalar 0]
                 [(PhInput, Some [None; Some 2]); (PhTarget, Some [None; Some 2]);
                  (PhKeepProb, None)])
              [(batch2, target_same, 1%Q)])
    as (s & H1 & H2 & _).
  - reflexivity.
  - exists s. split; [now rewrite H1|]. apply H2. reflexivity.
Defined.

Lemma create_network_without_weights_builds_the_default_network_witness :
  exists m1,
    create_network (E := StandInEngine) None None None BasicLenetModel = (inr tt, m1) /\
    _layer_types m1 = ["conv"; "conv"; "fc"; "fc"]%string.
Proof.
  destruct (create_network_without_weights_builds_the_default_network
              (E := StandInEngine) BasicLenetModel)
    as [(m1 & H1 & H2 & _) _].
  - intro shp. reflexivity.
  - exists m1. split; [apply H1 | exact H2].
Defined.

Lemma second_create_optimizer_replaces_the_first_witness :
  fst (learning_rate (E := StandInEngine)
         (train_all [(batch2, target_same, 1%Q)]
            (after initialize
               (after create_initializer
                  (after (create_optimizer (SelInt 2) (1 # 10) (1 # 2) 1)
                         pruned_with_optimizer)))))
  = inr (Num ((1 # 10) * Qpower (1 # 2) 1)).
Proof.
  destruct (second_create_optimizer_replaces_the_first (E := StandInEngine)
              PrunedFCSoftmaxModel pruned_built pruned_with_optimizer
              (after (create_optimizer (SelInt 2) (1 # 10) (1 # 2) 1)
                     pruned_with_optimizer)
              (train_all [(batch2, target_same, 1%Q)]
                 (after initialize
                    (after create_initializer
                       (after (create_optimizer (SelInt 2) (1 # 10) (1 # 2) 1)
                              pruned_with_optimizer))))
              (SelStr "GD") (SelInt 2) (1 # 100) (95 # 100) 100 (1 # 10) (1 # 2) 1
              [(batch2, target_same, 1%Q)])
    as (g & op & s & _ & _ & _ & _ & _ & H & _).
  - right. exists (Some [w_init]), (Some [b_zero]), (Some [mask_w]), (Some [mask_b]).
    vm_compute. reflexivity.
  - reflexivity.
  - vm_compute. reflexivity.
  - vm_compute. reflexivity.
  - vm_compute. reflexivity.
  - now rewrite H.
Defined.

Lemma failed_lenet_assembly_keeps_the_former_loss_witness :
  fst (_create_initialized_network [conv_weight] (Some [conv_bias])
         (Some ["conv"; "fc"]%string) lenet_built)
  = inl IndexError /\
  _loss (after (_create_initialized_network [conv_weight] (Some [conv_bias])
                  (Some ["conv"; "fc"]%string)) lenet_built)
  = _loss lenet_built /\
  _layer_types (after (_create_initialized_network [conv_weight] (Some [conv_bias])
                         (Some ["conv"; "fc"]%string)) lenet_built)
  = ["conv"; "fc"]%string.
Proof.
  assert (R : _create_initialized_network [conv_weight] (Some [conv_bias])
                (Some ["conv"; "fc"]%string) lenet_built
              = (inl IndexError,
                 after (_create_initialized_network [conv_weight] (Some [conv_bias])
                          (Some ["conv"; "fc"]%string)) lenet_built))
    by (vm_compute; reflexivity).
  destruct (failed_lenet_assembly_keeps_the_former_loss _ _ _ _ _ _ R)
    as (H1 & _ & _ & _ & _ & _ & H7).
  split; [now rewrite R|]. split; [exact H1 | now apply H7].
Defined.

Lemma add_regulizer_returns_or_changes_nothing_witness :
  snd (add_regulizer (RInt 1) RNone three_layer_built) = three_layer_built /\
  _nn_weights three_layer_built <> [].
Proof.
  split.
  - apply (proj2 (add_regulizer_returns_or_changes_nothing
                    (RInt 1) RNone three_layer_built)).
    vm_compute. discriminate.
  - assert (R : fst (add_regulizer (RFloat (1 # 2)) RNone three_layer_built) = inr tt)
      by (vm_compute; reflexivity).
    destruct (proj1 (add_regulizer_returns_or_changes_nothing
                       (RFloat (1 # 2)) RNone three_layer_built) R)
      as ((_ & _ & Hw & _) & _).
    exact Hw.
Defined.

(** * The masked layer, training and the recorded signals *)

(** ** Products of float32 entries *)

Lemma multiply32_finite (a b : list Q) :
  multiply32 (map Finite a) (map Finite b) = map Finite (zip_with Qmult a b).
Proof.
  unfold multiply32. revert b.
  induction a as [|x a IH]; intros [|y b]; simpl; try reflexivity.
  now rewrite IH.
Qed.

Lemma finite_stored_zero_mask (stored : list Q) (mask : list float32) :
  zero_mask_gives_zero (map Finite stored) mask.
Proof.
  unfold zero_mask_gives_zero, multiply32. revert mask.
  induction stored as [|x stored IH]; intros [|k0 mask] i k q Hk Hz Hq;
    simpl in Hq; try (destruct i; discriminate).
  destruct i as [|i]; simpl in Hk, Hq.
  - inversion Hk; subst k0. inversion Hq; subst q.
    destruct k as [k'| |]; simpl in Hz; try contradiction.
    simpl. rewrite Hz. ring.
  - exact (IH mask i k q Hk Hz Hq).
Qed.

(** ** One step, variable by variable *)

Section StepValues.
Context {E : Engine}.

Lemma fold_update_in op fd s vars : forall vals id,
  In (Var id) vars -> id < List.length vals ->
  nth_error (fold_left (update_var op fd s) vars vals) id
  = Some (Some (apply_gradients op fd s id)).
Proof.
  induction vars as [|v vars IH] using rev_ind; intros vals id Hin Hlen.
  - destruct Hin.
  - rewrite fold_left_app. cbn [fold_left].
    apply in_app_or in Hin.
    destruct v as [p|n|c|y shp|y w|y k|y z|y w|y|y|y kp|y z|v2 l lg|y ax|y z|y];
      cbn [update_var];
      try (destruct Hin as [Hin|[Hin|[]]]; [now apply IH | discriminate]).
    destruct (Nat.eq_dec n id) as [->|Hne].
    + apply nth_error_set_nth_eq. now rewrite fold_update_length.
    + rewrite nth_error_set_nth_ne by assumption.
      destruct Hin as [Hin|[Hin|[]]]; [now apply IH | congruence].
Qed.

Lemma apply_step_in op fd s id :
  In (Var id) (op_var_list op) -> Var id <> op_global_step op ->
  id < List.length (s_values s) ->
  nth_error (apply_step op fd s) id = Some (Some (apply_gradients op fd s id)).
Proof.
  intros Hin Hne Hlen. unfold apply_step.
  pose proof (fold_update_in op fd s (op_var_list op) (s_values s) id Hin Hlen) as H.
  destruct (op_global_step op) as [p|c|c0|y shp|y w|y k|y z|y w|y|y|y kp|y z|v2 l lg|y ax|y z|y];
    try exact H.
  destruct (nth_error _ c) as [[cv|]|]; try exact H.
  rewrite nth_error_set_nth_ne; [exact H | congruence].
Qed.

Lemma initialised_below s id :
  initialised s (Var id) = true -> id < List.length (s_values s).
Proof.
  unfold initialised, read_variable.
  destruct (nth_error (s_values s) id) as [o|] eqn:Hn; [|discriminate].
  intros _. apply nth_error_Some. congruence.
Qed.

(** What a [train] call that returns has done. *)
Lemma train_inr m bx bt kp op m' :
  _trainOp m = Some op -> train bx bt kp m = (inr tt, m') ->
  exists s,
    _sess m = Some s /\
    forallb (initialised s) (op_global_step op :: op_var_list op) = true /\
    m' = set_sess (Some (mk_session (apply_step op (train_feed m bx bt kp) s)
                                    (update_slots op (train_feed m bx bt kp) s))) m.
Proof.
  intros Hop H. rewrite (train_attached _ _ _ _ _ Hop) in H.
  destruct (_sess m) as [s|]; [|discriminate].
  unfold sess_run_train in H.
  destruct (feed_ok _); [|discriminate].
  destruct (forallb _ _) eqn:Hall; [|discriminate].
  inversion H. exists s. auto.
Qed.

Lemma train_inl m bx bt kp e m' :
  train bx bt kp m = (inl e, m') -> m' = m.
Proof.
  destruct (_trainOp m) as [op|] eqn:Hop.
  - rewrite (train_attached _ _ _ _ _ Hop).
    destruct (_sess m) as [s|]; [|intro H; now inversion H].
    destruct (sess_run_train _ _ _); intro H; now inversion H.
  - rewrite (train_unattached _ _ _ _ Hop). intro H. now inversion H.
Qed.

End StepValues.

(** ** C1: the masked layer *)

(** C1 as stated fails on float32 entries: an infinite stored entry under
    a zero mask entry gives a product that is not a number, not zero. *)
Lemma infinite_entry_under_zero_mask_is_not_zero :
  ~ zero_mask_gives_zero [Infinity false] [Finite 0].
Proof.
  intro H.
  exact (H 0 (Finite 0) NotANumber eq_refl (Qeq_refl 0) eq_refl).
Qed.

Section MaskedLayerClaim.
Context {E : Engine}.

(** C1 (amended). Whenever [_add_masked_fully_connected_layer] returns, it
    has stored the weight and the bias as two new variables of the graph,
    appended these two variables to the trainable-parameter lists and the
    layer's input to the trace, and its result is
    [activation(x . (w * mask_w) + b * mask_b)] over these two variables
    and the masks as constants.  In every session in which the two
    variables hold values of the shapes of the masks, the weight and the
    bias that enter the forward computation are the entrywise products of
    the stored values with the masks, every entry of a product at a
    position where the mask is zero is zero, and the output evaluates to
    the activation of the masked affine map; in float32 terms the
    products are those of the finite entries, and a finite stored entry
    under a zero mask entry gives zero.  Such sessions are the ones the
    model reaches: for a weight and a bias of the shapes of their masks,
    after [create_initializer] and [initialize] the two variables hold the
    weight and the bias, and after every sequence of [train] calls they
    still hold values of the shapes of the masks, one optimizer step
    keeping the shape of a variable. *)
Theorem masked_layer_uses_masked_parameters
    (m : model) (g : graph) (x : tnode)
    (weight bias weight_mask bias_mask : ndarray) (func : string) :
  _graph m = Some g ->
  let wid := List.length (g_variables g) in
  let bid := S wid in
  let w_used := Multiply (Var wid) (Constant weight_mask) in
  let b_used := Multiply (Var bid) (Constant bias_mask) in
  let out := apply_activation func (Add (MatMul x w_used) b_used) in
  (forall out' m',
     _add_masked_fully_connected_layer x weight bias weight_mask bias_mask func m
     = (inr out', m') ->
     out' = out /\
     _graph m' = Some (mk_graph (g_variables g ++ [weight; bias]) (g_placeholders g)) /\
     _nn_weights m' = _nn_weights m ++ [Var wid] /\
     _nn_biases m' = _nn_biases m ++ [Var bid] /\
     _fw_signals m' = _fw_signals m ++ [Some x]) /\
  (forall (s : session) (fd : feed_dict) (vw vb : ndarray),
     read_variable s wid = inr vw -> read_variable s bid = inr vb ->
     shape vw = shape weight_mask -> shape vb = shape bias_mask ->
     eval s fd w_used
     = inr (mk_ndarray (shape vw) (zip_with Qmult (data vw) (data weight_mask))) /\
     eval s fd b_used
     = inr (mk_ndarray (shape vb) (zip_with Qmult (data vb) (data bias_mask))) /\
     (forall i k q, nth_error (data weight_mask) i = Some k -> (k == 0)%Q ->
        nth_error (data (tf_multiply vw weight_mask)) i = Some q -> (q == 0)%Q) /\
     (forall i k q, nth_error (data bias_mask) i = Some k -> (k == 0)%Q ->
        nth_error (data (tf_multiply vb bias_mask)) i = Some q -> (q == 0)%Q) /\
     (forall xv, eval s fd x = inr xv ->
        eval s fd out
        = inr (activation_value func
                 (tf_add (tf_matmul xv (tf_multiply vw weight_mask))
                         (tf_multiply vb bias_mask)))) /\
     map Finite (data (tf_multiply vw weight_mask))
     = multiply32 (map Finite (data vw)) (map Finite (data weight_mask)) /\
     map Finite (data (tf_multiply vb bias_mask))
     = multiply32 (map Finite (data vb)) (map Finite (data bias_mask))) /\
  (forall stored : list Q,
     zero_mask_gives_zero (map Finite stored) (map Finite (data weight_mask)) /\
     zero_mask_gives_zero (map Finite stored) (map Finite (data bias_mask))) /\
  (shape weight = shape weight_mask -> shape bias = shape bias_mask ->
   forall m1 g1,
     _graph m1 = Some g1 ->
     nth_error (g_variables g1) wid = Some weight ->
     nth_error (g_variables g1) bid = Some bias ->
     let m2 := after initialize (after create_initializer m1) in
     (exists s0, _sess m2 = Some s0 /\
                 read_variable s0 wid = inr weight /\ read_variable s0 bid = inr bias) /\
     (step_keeps_shapes ->
      forall batches, exists s' vw' vb',
        _sess (train_all batches m2) = Some s' /\
        read_variable s' wid = inr vw' /\ read_variable s' bid = inr vb' /\
        shape vw' = shape weight_mask /\ shape vb' = shape bias_mask)).
Proof.
  intros Hg wid bid w_used b_used out.
  split; [|split; [|split]].
  - intros out' m' H.
    pose proof (masked_layer_run x weight bias weight_mask bias_mask func m g Hg) as HH.
    cbv zeta in HH. rewrite H in HH. cbn [fst snd] in HH.
    destruct HH as (H1 & H2 & H3 & H4 & H5).
    injection H1 as H1.
    split; [exact H1|]. auto.
  - intros s fd vw vb Hw Hb Sw Sb.
    assert (Ew : eval s fd w_used = inr (tf_multiply vw weight_mask)).
    { unfold w_used. simpl. now rewrite Hw. }
    assert (Eb : eval s fd b_used = inr (tf_multiply vb bias_mask)).
    { unfold b_used. simpl. now rewrite Hb. }
    split; [rewrite Ew; now rewrite tf_multiply_same_shape|].
    split; [rewrite Eb; now rewrite tf_multiply_same_shape|].
    split; [intros i k q; now apply masked_entry_zero|].
    split; [intros i k q; now apply masked_entry_zero|].
    split.
    + intros xv Hx. apply eval_apply_activation.
      change (eval s fd (Add (MatMul x w_used) b_used)) with
        (ebind (ebind (eval s fd x) (fun a => ebind (eval s fd w_used)
                  (fun b => inr (tf_matmul a b))))
               (fun a => ebind (eval s fd b_used) (fun b => inr (tf_add a b)))).
      now rewrite Hx, Ew, Eb.
    + rewrite !tf_multiply_same_shape by assumption. cbn [data].
      now rewrite !multiply32_finite.
  - intro stored. split; apply finite_stored_zero_mask.
  - intros Sw Sb m1 g1 Hg1 Hw Hb m2.
    assert (Hm2 : _sess m2 = Some (mk_session (map Some (g_variables g1)) [])).
    { unfold m2. now rewrite (initialized_model m1 g1 Hg1). }
    assert (Rw : read_variable (mk_session (map Some (g_variables g1)) []) wid
                 = inr weight).
    { unfold read_variable. cbn [s_values]. now rewrite nth_error_map, Hw. }
    assert (Rb : read_variable (mk_session (map Some (g_variables g1)) []) bid
                 = inr bias).
    { unfold read_variable. cbn [s_values]. now rewrite nth_error_map, Hb. }
    split.
    + eexists. split; [exact Hm2|]. split; assumption.
    + intros Hlaw batches.
      destruct (train_all_keeps_shapes batches m2 _ Hlaw Hm2) as (s' & Hs' & K).
      destruct (K wid weight Rw) as (vw' & Hw' & Sw').
      destruct (K bid bias Rb) as (vb' & Hb' & Sb').
      exists s', vw', vb'.
      split; [exact Hs'|]. split; [exact Hw'|]. split; [exact Hb'|].
      split; congruence.
Qed.

End MaskedLayerClaim.

Lemma masked_layer_uses_masked_parameters_witness :
  _nn_weights (after (_add_masked_fully_connected_layer (Placeholder PhInput)
                        w_init b_zero mask_w mask_b "relu") graph_only) = [Var 0] /\
  eval (E := StandInEngine) session_w7 [(Some PhInput, batch2)]
       (Multiply (Var 0) (Constant mask_w))
  = inr (mk_ndarray [2; 2] [4 * 1; 7 * 0; 2 * 1; 9 * 1]%Q) /\
  (forall i k q, nth_error (data mask_w) i = Some k -> (k == 0)%Q ->
     nth_error (data (tf_multiply (mk_ndarray [2; 2] [4; 7; 2; 9]%Q) mask_w)) i = Some q ->
     (q == 0)%Q) /\
  exists s' vw',
    _sess (train_all (E := StandInEngine)
             [(batch2, target_same, 1%Q); (batch2, target_other, 1%Q)] pruned_ready)
    = Some s' /\
    read_variable s' 0 = inr vw' /\ shape vw' = shape mask_w.
Proof.
  destruct (masked_layer_uses_masked_parameters (E := StandInEngine)
              graph_only empty_graph (Placeholder PhInput)
              w_init b_zero mask_w mask_b "relu" eq_refl) as (H1 & H2 & _ & H4).
  split; [|split; [|split]].
  - assert (R : _add_masked_fully_connected_layer (Placeholder PhInput)
                  w_init b_zero mask_w mask_b "relu" graph_only
                = (inr (Relu (Add (MatMul (Placeholder PhInput)
                                          (Multiply (Var 0) (Constant mask_w)))
                                  (Multiply (Var 1) (Constant mask_b)))),
                   after (_add_masked_fully_connected_layer (Placeholder PhInput)
                            w_init b_zero mask_w mask_b "relu") graph_only))
      by (vm_compute; reflexivity).
    destruct (H1 _ _ R) as (_ & _ & Hw & _). exact Hw.
  - destruct (H2 session_w7 [(Some PhInput, batch2)]
                (mk_ndarray [2; 2] [4; 7; 2; 9]%Q) (mk_ndarray [2] [5; 6]%Q)
                eq_refl eq_refl eq_refl eq_refl) as (Hw & _).
    exact Hw.
  - destruct (H2 session_w7 [(Some PhInput, batch2)]
                (mk_ndarray [2; 2] [4; 7; 2; 9]%Q) (mk_ndarray [2] [5; 6]%Q)
                eq_refl eq_refl eq_refl eq_refl) as (_ & _ & Hz & _).
    exact Hz.
  - destruct (H4 eq_refl eq_refl pruned_with_optimizer
                (mk_graph [w_init; b_zero; scalar 0]
                   [(PhInput, Some [None; Some 2]); (PhTarget, Some [None; Some 2]);
                    (PhKeepProb, None)])
                eq_refl eq_refl eq_refl) as (_ & Ht).
    destruct (Ht stand_in_keeps_shapes
                [(batch2, target_same, 1%Q); (batch2, target_other, 1%Q)])
      as (s' & vw' & vb' & Hs & Hw & _ & Sw & _).
    exists s', vw'. split; [exact Hs|]. split; [exact Hw | exact Sw].
Defined.

(** ** C2 and C3: what training changes *)

Section TrainingClaims.
Context {E : Engine}.

(** C2 (amended). The masks enter the graph as constants and only the
    weight and the bias variable of a masked layer are appended to the
    trainable-parameter lists; the optimizer minimizes over exactly these
    lists; and over every sequence of [train] calls every attribute of the
    model but the session is unchanged -- so are the masks and the layers,
    which live in the graph -- while in the session what can change is the
    stored value of the variables of the two lists and of the optimizer's
    step counter, and the optimizer's own accumulators: a step that
    returns replaces these by what the optimizer computes, and a call that
    raises changes nothing. *)
Theorem training_changes_only_trainables_and_step_counter :
  (forall m g x weight bias weight_mask bias_mask func out m',
     _graph m = Some g ->
     let wid := List.length (g_variables g) in
     _add_masked_fully_connected_layer x weight bias weight_mask bias_mask func m
     = (inr out, m') ->
     out = apply_activation func
             (Add (MatMul x (Multiply (Var wid) (Constant weight_mask)))
                  (Multiply (Var (S wid)) (Constant bias_mask))) /\
     _nn_weights m' = _nn_weights m ++ [Var wid] /\
     _nn_biases m' = _nn_biases m ++ [Var (S wid)] /\
     option_map g_variables (_graph m') = Some (g_variables g ++ [weight; bias])) /\
  (forall sel lr dr ds m,
     fst (create_optimizer sel lr dr ds m) = inr tt ->
     exists op, _trainOp (snd (create_optimizer sel lr dr ds m)) = Some op /\
                op_var_list op = _nn_weights m ++ _nn_biases m) /\
  (forall batches m,
     same_but_session m (train_all batches m) /\
     forall op s, _trainOp m = Some op -> _sess m = Some s ->
       exists s', _sess (train_all batches m) = Some s' /\
         forall id, ~ In (Var id) (op_var_list op) -> Var id <> op_global_step op ->
           nth_error (s_values s') id = nth_error (s_values s) id) /\
  (forall m bx bt kp op s,
     _trainOp m = Some op -> _sess m = Some s ->
     (forall m', train bx bt kp m = (inr tt, m') ->
        exists s', _sess m' = Some s' /\
                   s_slots s' = update_slots op (train_feed m bx bt kp) s) /\
     (forall e m', train bx bt kp m = (inl e, m') -> m' = m)).
Proof.
  split; [|split; [|split]].
  - intros m g x weight bias weight_mask bias_mask func out m' Hg wid H.
    pose proof (masked_layer_run x weight bias weight_mask bias_mask func m g Hg) as HH.
    cbv zeta in HH. rewrite H in HH. cbn [fst snd] in HH.
    destruct HH as (H1 & H2 & H3 & _ & H5).
    injection H1 as H1.
    split; [exact H1|]. split; [exact H2|]. split; [exact H3|]. now rewrite H5.
  - apply create_optimizer_var_list.
  - intros batches m. split.
    + apply train_all_same_but_session.
    + apply train_all_frame.
  - intros m bx bt kp op s Hop Hs. split.
    + intros m' H.
      destruct (train_inr m bx bt kp op m' Hop H) as (s0 & Hs0 & _ & ->).
      rewrite Hs in Hs0. injection Hs0 as <-.
      eexists. split; reflexivity.
    + intros e m'. apply train_inl.
Qed.

End TrainingClaims.

Lemma training_changes_only_trainables_and_step_counter_witness :
  _nn_weights (after (_add_masked_fully_connected_layer (Placeholder PhInput)
                        w_init b_zero mask_w mask_b "relu") graph_only) = [Var 0] /\
  (exists op, _trainOp pruned_with_optimizer = Some op /\
              op_var_list op = _nn_weights pruned_built ++ _nn_biases pruned_built) /\
  (exists s', _sess (train_all (E := StandInEngine)
                       [(batch2, target_same, 1%Q); (batch2, target_other, 1%Q)]
                       pruned_two_optimizers) = Some s' /\
     nth_error (s_values s') 2 = Some (Some (scalar 0))).
Proof.
  destruct (training_changes_only_trainables_and_step_counter (E := StandInEngine))
    as (H1 & H2 & H3 & _).
  split; [|split].
  - assert (R : _add_masked_fully_connected_layer (Placeholder PhInput)
                  w_init b_zero mask_w mask_b "relu" graph_only
                = (inr (Relu (Add (MatMul (Placeholder PhInput)
                                          (Multiply (Var 0) (Constant mask_w)))
                                  (Multiply (Var 1) (Constant mask_b)))),
                   after (_add_masked_fully_connected_layer (Placeholder PhInput)
                            w_init b_zero mask_w mask_b "relu") graph_only))
      by (vm_compute; reflexivity).
    destruct (H1 graph_only empty_graph (Placeholder PhInput)
                w_init b_zero mask_w mask_b "relu"%string _ _ eq_refl R) as (_ & Hw & _).
    exact Hw.
  - exact (H2 (SelStr "GD") (1 # 100)%Q (95 # 100)%Q 100%Q pruned_built eq_refl).
  - destruct (H3 [(batch2, target_same, 1%Q); (batch2, target_other, 1%Q)]
                pruned_two_optimizers) as [_ H].
    destruct (H (mk_train_op Adam
                   (ExponentialDecay (1 # 10) (Var 3) 1 (1 # 2))
                   (ReduceMean (SoftmaxCrossEntropy false (Placeholder PhTarget)
                      (Add (MatMul (Dropout (Placeholder PhInput) (Placeholder PhKeepProb))
                                   (Multiply (Var 0) (Constant mask_w)))
                           (Multiply (Var 1) (Constant mask_b)))))
                   [Var 0; Var 1] (Var 3))
                (mk_session [Some w_init; Some b_zero; Some (scalar 0); Some (scalar 0)] [])
                eq_refl eq_refl) as (s' & Hs' & F).
    exists s'. split; [exact Hs'|].
    rewrite (F 2).
    + reflexivity.
    + simpl. intros [H0|[H0|[]]]; discriminate.
    + discriminate.
Defined.

Section TrainClaim.
Context {E : Engine}.

(** C3 (amended). On a model with no optimizer attached [train] fails with
    the not-ready error and leaves the whole model, its parameters
    included, as it was.  With an optimizer attached and no session, it
    raises an attribute error and changes nothing.  With an optimizer
    attached, whenever the call returns it has performed exactly one
    optimizer step on the batch it was given: the session is the result
    of one run of the training operation on that batch -- every variable
    the optimizer minimizes over holds the value one step computes for it
    from the state before the call, the step counter has gone up by one,
    every other variable is as it was -- and nothing else of the model
    has changed. *)
Theorem train_not_ready_or_one_step
    (m : model) (batch_x batch_y : ndarray) (keep_prob : Q) :
  (_trainOp m = None ->
   train batch_x batch_y keep_prob m
   = (inl (ValueError "Training algorithm has not been set."), m)) /\
  (forall op, _trainOp m = Some op -> _sess m = None ->
     train batch_x batch_y keep_prob m = (inl AttributeError, m)) /\
  (forall op m',
     _trainOp m = Some op ->
     train batch_x batch_y keep_prob m = (inr tt, m') ->
     exists s,
       _sess m = Some s /\
       let fd := train_feed m batch_x batch_y keep_prob in
       let s' := mk_session (apply_step op fd s) (update_slots op fd s) in
       m' = set_sess (Some s') m /\
       (forall id, In (Var id) (op_var_list op) -> Var id <> op_global_step op ->
          read_variable s' id = inr (apply_gradients op fd s id)) /\
       (forall c v, op_global_step op = Var c -> ~ In (Var c) (op_var_list op) ->
          read_variable s c = inr v -> read_variable s' c = inr (assign_add v 1)) /\
       (forall id, ~ In (Var id) (op_var_list op) -> Var id <> op_global_step op ->
          nth_error (s_values s') id = nth_error (s_values s) id)).
Proof.
  split; [|split].
  - apply train_unattached.
  - intros op Hop Hs. rewrite (train_attached _ _ _ _ _ Hop), Hs. reflexivity.
  - intros op m' Hop H.
    destruct (train_inr m batch_x batch_y keep_prob op m' Hop H) as (s & Hs & Hall & Hm').
    exists s. split; [exact Hs|]. cbv zeta. split; [exact Hm'|]. split; [|split].
    + intros id Hin Hne. unfold read_variable. cbn [s_values].
      rewrite apply_step_in; auto.
      apply initialised_below.
      cbn [forallb] in Hall. apply andb_prop in Hall as [_ Hvars].
      eapply forallb_forall in Hvars; [exact Hvars | exact Hin].
    + intros c v. apply apply_step_counter.
    + intros id Hin Hne. cbn [s_values]. now apply apply_step_frame.
Qed.

End TrainClaim.

Lemma train_not_ready_or_one_step_witness :
  train (E := StandInEngine) batch2 target_same 1 pruned_built
  = (inl (ValueError "Training algorithm has not been set."), pruned_built) /\
  train (E := StandInEngine) batch2 target_same 1 pruned_with_optimizer
  = (inl AttributeError, pruned_with_optimizer) /\
  exists s,
    _sess (after (train (E := StandInEngine) batch2 target_same 1) pruned_ready) = Some s /\
    read_variable s 2 = inr (assign_add (scalar 0) 1).
Proof.
  split; [|split].
  - apply (proj1 (train_not_ready_or_one_step (E := StandInEngine)
                    pruned_built batch2 target_same 1)).
    reflexivity.
  - destruct (train_not_ready_or_one_step (E := StandInEngine)
                pruned_with_optimizer batch2 target_same 1) as (_ & H & _).
    eapply H; reflexivity.
  - assert (R : train (E := StandInEngine) batch2 target_same 1 pruned_ready
                = (inr tt, after (train (E := StandInEngine) batch2 target_same 1)
                                 pruned_ready))
      by (vm_compute; reflexivity).
    destruct (train_not_ready_or_one_step (E := StandInEngine)
                pruned_ready batch2 target_same 1) as (_ & _ & H).
    destruct (H (mk_train_op GradientDescent
                   (ExponentialDecay (1 # 100) (Var 2) 100 (95 # 100))
                   (ReduceMean (SoftmaxCrossEntropy false (Placeholder PhTarget)
                      (Add (MatMul (Dropout (Placeholder PhInput) (Placeholder PhKeepProb))
                                   (Multiply (Var 0) (Constant mask_w)))
                           (Multiply (Var 1) (Constant mask_b)))))
                   [Var 0; Var 1] (Var 2))
                _ eq_refl R) as (s & Hs & Hm' & _ & Hc & _).
    eexists. split.
    + rewrite Hm'. reflexivity.
    + apply (Hc 2 (scalar 0)).
      * reflexivity.
      * simpl. intros [H0|[H0|[]]]; discriminate.
      * injection Hs as <-. reflexivity.
Defined.

(** ** C5: the recorded signals *)

Lemma inputs_of_apply_activation func n :
  inputs_of (apply_activation func n) = inputs_of n.
Proof.
  unfold apply_activation.
  destruct (String.eqb func "relu"); [|destruct (String.eqb func "softmax")];
    reflexivity.
Qed.

(** Each position of the convolutional loop keeps the trace the list of
    the layer inputs of the signal. *)
Lemma lenet_layer_trace iw ib lts num kp n x m x' m' :
  lenet_layer iw ib lts num kp n x m = (inr x', m') ->
  _fw_signals m = map Some (inputs_of x) ->
  _fw_signals m' = map Some (inputs_of x').
Proof.
  unfold lenet_layer. intros H H0.
  apply bind_inr in H as (ty & m1 & Hty & H). apply lift_inr in Hty as [Hty ->].
  destruct (String.eqb ty "conv").
  - apply bind_inr in H as (w & m1 & Hw & H). apply lift_inr in Hw as [Hw ->].
    apply bind_inr in H as (b & m1 & Hb & H). apply lift_inr in Hb as [Hb ->].
    apply add_convolution_layer_inr in H as (g & Hg & -> & _ & Hfw & _).
    rewrite Hfw, H0. cbn. now rewrite map_app.
  - destruct (String.eqb ty "fc").
    + apply bind_inr in H as (prev & m1 & Hp & H). apply lift_inr in Hp as [Hp ->].
      apply bind_inr in H as (x1 & m1 & Hx1 & H).
      assert (Hx : m1 = m /\ inputs_of x1 = inputs_of x).
      { destruct (String.eqb prev "conv").
        - apply bind_inr in Hx1 as (w & m2 & Hw & Hx1). apply lift_inr in Hw as [_ ->].
          apply bind_inr in Hx1 as (k & m2 & Hk & Hx1). apply lift_inr in Hk as [_ ->].
          apply ret_inr in Hx1 as [-> ->]. auto.
        - apply ret_inr in Hx1 as [-> ->]. auto. }
      destruct Hx as [-> Hin].
      apply bind_inr in H as (w & m1 & Hw & H). apply lift_inr in Hw as [Hw ->].
      apply bind_inr in H as (b & m1 & Hb & H). apply lift_inr in Hb as [Hb ->].
      destruct (n =? num - 1);
        apply add_fully_connected_layer_inr in H as (g & Hg & -> & _ & Hfw & _);
        rewrite Hfw, H0, inputs_of_apply_activation; cbn [inputs_of];
        now rewrite map_app, Hin.
    + apply ret_inr in H as [-> ->]. exact H0.
Qed.

Lemma masked_layer_trace iw ib wm bm num kp n x m x' m' :
  masked_layer iw ib wm bm num kp n x m = (inr x', m') ->
  _fw_signals m = map Some (inputs_of x) ->
  _fw_signals m' = map Some (inputs_of x').
Proof.
  unfold masked_layer. intros H H0.
  apply bind_inr in H as (w & m1 & Hw & H). apply lift_inr in Hw as [Hw ->].
  apply bind_inr in H as (b & m1 & Hb & H). apply lift_inr in Hb as [Hb ->].
  apply bind_inr in H as (mw & m1 & Hmw & H). apply lift_inr in Hmw as [Hmw ->].
  apply bind_inr in H as (mb & m1 & Hmb & H). apply lift_inr in Hmb as [Hmb ->].
  destruct (n =? num - 1);
    apply add_masked_fully_connected_layer_inr in H as (g & Hg & -> & _ & Hfw & _);
    rewrite Hfw, H0, inputs_of_apply_activation; cbn [inputs_of];
    now rewrite map_app.
Qed.

(** The trace of an assembled network: the inputs of the layers of the
    output, then the logit, then the output. *)
Lemma create_initialized_network_trace iw ib lts m m' :
  _create_initialized_network iw ib (Some lts) m = (inr tt, m') ->
  exists pre out,
    _logit m' = Some pre /\ _output m' = Some out /\
    _fw_signals m' = map Some (inputs_of out) ++ [Some pre; Some out].
Proof.
  rewrite create_initialized_network_unfold. intro H.
  apply bind_inr in H as (x & m1 & Hloop & H).
  assert (Ht : _fw_signals m1 = map Some (inputs_of x)).
  { unfold range in Hloop.
    refine (for_each_seq_invariant
              (lenet_layer iw ib lts (List.length lts) PhKeepProb)
              (fun _ y p => _fw_signals p = map Some (inputs_of y))
              (List.length lts) 0 _ _ x m1 _ _ Hloop); [|reflexivity].
    intros i y p y' p' _ HP Hb. eapply lenet_layer_trace; eauto. }
  apply wire_outputs_inr in H as (pre & _ & Hout & Hlog & Hfw & _).
  exists pre, x. rewrite Hfw, Ht. auto.
Qed.

Lemma create_masked_network_trace iw ib wm bm m m' :
  _create_masked_network iw ib wm bm m = (inr tt, m') ->
  exists pre out,
    _logit m' = Some pre /\ _output m' = Some out /\
    _fw_signals m' = map Some (inputs_of out) ++ [Some pre; Some out].
Proof.
  intro H.
  destruct (create_masked_network_prelude _ _ _ _ _ _ H)
    as (ws & w0 & wl & il & ol & -> & H1 & H2 & H3 & H4).
  rewrite (create_masked_network_unfold _ _ _ _ _ _ _ _ _ H1 H2 H3 H4) in H.
  apply bind_inr in H as (x & m1 & Hloop & H).
  assert (Ht : _fw_signals m1 = map Some (inputs_of x)).
  { unfold range in Hloop.
    refine (for_each_seq_invariant
              (masked_layer (Some ws) ib wm bm (List.length ws) PhKeepProb)
              (fun _ y p => _fw_signals p = map Some (inputs_of y))
              (List.length ws) 0 _ _ x m1 _ _ Hloop); [|reflexivity].
    intros i y p y' p' _ HP Hb. eapply masked_layer_trace; eauto. }
  apply wire_outputs_inr in H as (pre & _ & Hout & Hlog & Hfw & _).
  exists pre, x. rewrite Hfw, Ht. auto.
Qed.

Lemma trace_length (ins ins' : list tnode) (l : list (option tnode)) :
  map Some ins ++ l = map Some ins' ++ l -> List.length ins = List.length ins'.
Proof.
  intro H. apply (f_equal (@List.length _)) in H.
  rewrite !length_app, !length_map in H. lia.
Qed.

Section ForwardSignalsClaim.
Context {E : Engine}.

(** C5 (amended). On a model whose session has not been created
    [get_fw_signals] fails with the not-ready error.  The call never
    changes the model, whether it returns or raises; whenever it returns,
    the session exists and the result holds one value per recorded
    signal, in order: the value of that signal in the session with the
    input fed and keep-probability 1.0.  The recorded signals of an
    assembled network are the input of every layer, in order, then the
    logit, then the output, which is the softmax of the logit. *)
Theorem get_fw_signals_not_ready_or_signals :
  (forall m x, _sess m = None ->
     get_fw_signals x m
     = (inl (ValueError "The model has not been created and initialized."), m)) /\
  (forall m x,
     snd (get_fw_signals x m) = m /\
     fw_feed m x = [(_input m, x); (_keep_prob m, scalar 1)]) /\
  (forall m x vals m',
     get_fw_signals x m = (inr vals, m') ->
     m' = m /\
     exists s,
       _sess m = Some s /\
       Forall2 (fun f v => exists n, f = Some n /\ eval s (fw_feed m x) n = inr v)
               (_fw_signals m) vals) /\
  (forall iw ib lts m m', _logit m = None ->
     _create_initialized_network iw ib (Some lts) m = (inr tt, m') ->
     exists pre out,
       _fw_signals m' = map Some (inputs_of out) ++ [Some pre; Some out] /\
       _logit m' = Some pre /\ _output m' = Some out /\ out = Softmax pre /\
       List.length (inputs_of out) = List.length (_nn_weights m')) /\
  (forall iw ib wm bm m m', _logit m = None ->
     _create_masked_network iw ib wm bm m = (inr tt, m') ->
     exists pre out,
       _fw_signals m' = map Some (inputs_of out) ++ [Some pre; Some out] /\
       _logit m' = Some pre /\ _output m' = Some out /\ out = Softmax pre /\
       List.length (inputs_of out) = List.length (_nn_weights m')).
Proof.
  split; [|split; [|split; [|split]]].
  - apply get_fw_signals_no_session.
  - intros m x. split; [|reflexivity].
    destruct (_sess m) as [s|] eqn:Hs.
    + now rewrite (get_fw_signals_session m x s Hs).
    + now rewrite (get_fw_signals_no_session m x Hs).
  - intros m x vals m' H.
    destruct (_sess m) as [s|] eqn:Hs.
    + rewrite (get_fw_signals_session m x s Hs) in H.
      injection H as Hrun <-. split; [reflexivity|].
      exists s. split; [reflexivity|]. now apply sess_run_list_inr.
    + rewrite (get_fw_signals_no_session m x Hs) in H. discriminate.
  - intros iw ib lts m m' Hl H.
    destruct (create_initialized_network_trace _ _ _ _ _ H)
      as (pre & out & Hlog & Hout & Hfw).
    destruct (create_initialized_network_inr _ _ _ _ _ H Hl)
      as (out' & pre' & ins & Hout' & Hlog' & Hsm & _ & _ & _ & Hfw' & Hlen & _).
    assert (Eo : out' = out) by congruence.
    assert (Ep : pre' = pre) by congruence.
    rewrite Eo, Ep in Hfw'.
    exists pre, out.
    split; [exact Hfw|]. split; [exact Hlog|]. split; [exact Hout|].
    split; [congruence|].
    rewrite <- Hlen. symmetry. eapply trace_length. rewrite <- Hfw'. exact Hfw.
  - intros iw ib wm bm m m' Hl H.
    destruct (create_masked_network_trace _ _ _ _ _ _ H)
      as (pre & out & Hlog & Hout & Hfw).
    destruct (create_masked_network_inr _ _ _ _ _ _ H Hl)
      as (ws & out' & pre' & ins & _ & Hout' & Hlog' & Hsm & _ & _ & Hfw' & Hlen & _).
    assert (Eo : out' = out) by congruence.
    assert (Ep : pre' = pre) by congruence.
    rewrite Eo, Ep in Hfw'.
    exists pre, out.
    split; [exact Hfw|]. split; [exact Hlog|]. split; [exact Hout|].
    split; [congruence|].
    rewrite <- Hlen. symmetry. eapply trace_length. rewrite <- Hfw'. exact Hfw.
Qed.

End ForwardSignalsClaim.

Lemma get_fw_signals_not_ready_or_signals_witness :
  get_fw_signals (E := StandInEngine) batch2 pruned_built
  = (inl (ValueError "The model has not been created and initialized."), pruned_built) /\
  (exists vals,
     fst (get_fw_signals (E := StandInEngine) batch2 pruned_ready) = inr vals /\
     List.length vals = 3) /\
  _fw_signals pruned_built
  = [Some (Dropout (Placeholder PhInput) (Placeholder PhKeepProb));
     Some pruned_logit; Some (Softmax pruned_logit)].
Proof.
  destruct (get_fw_signals_not_ready_or_signals (E := StandInEngine))
    as (H1 & _ & H3 & _ & H5).
  split; [|split].
  - apply H1. reflexivity.
  - destruct (get_fw_signals (E := StandInEngine) batch2 pruned_ready)
      as [[e|vals] m'] eqn:Hrun.
    + exfalso. revert Hrun. vm_compute. discriminate.
    + destruct (H3 pruned_ready batch2 vals m' Hrun) as (_ & s & _ & Hall).
      exists vals. split; [reflexivity|].
      apply Forall2_length in Hall. rewrite <- Hall. reflexivity.
  - assert (R : _create_masked_network (Some [w_init]) (Some [b_zero])
                  (Some [mask_w]) (Some [mask_b]) PrunedFCSoftmaxModel
                = (inr tt, pruned_built)) by (vm_compute; reflexivity).
    destruct (H5 _ _ _ _ PrunedFCSoftmaxModel _ eq_refl R)
      as (pre & out & Hfw & Hlog & Hout & _).
    rewrite Hfw.
    assert (Eo : out = Softmax pruned_logit).
    { assert (Ho : _output pruned_built = Some (Softmax pruned_logit)) by reflexivity.
      rewrite Ho in Hout. now injection Hout as <-. }
    assert (Ep : pre = pruned_logit).
    { assert (Hp : _logit pruned_built = Some pruned_logit) by reflexivity.
      rewrite Hp in Hlog. now injection Hlog as <-. }
    subst out pre. reflexivity.
Defined.

(** ** C8: regularization *)

Lemma per_tensor_weights_float_nth s n i :
  i < n ->
  nth_error (repeat 0%Q 2 ++ repeat s (n - 2)) i = Some (if i <? 2 then 0%Q else s).
Proof.
  intro Hi. destruct i as [|[|i]]; simpl; auto.
  apply nth_error_repeat. lia.
Qed.

(** C8 as stated fails for a scalar that is not a Python float: with the
    int 1 as the L1 weight the rewrite to a per-tensor list is skipped and
    the call raises. *)
Lemma int_regularization_weight_is_refused :
  ~ scalar_weight_is_accepted three_layer_built (RInt 1).
Proof.
  unfold scalar_weight_is_accepted. intro H. specialize (H I).
  revert H. vm_compute. discriminate.
Qed.

Section RegularizerValue.
Context {E : Engine}.

Lemma eval_s_weighted_terms s fd (node : tnode -> snode) (f : ndarray -> Q) :
  (forall w v, eval s fd w = inr v -> eval_s s fd (node w) = inr (Num (f v))) ->
  forall ws vals a,
    Forall2 (fun w v => eval s fd w = inr v) ws vals ->
    (fix sum_all (l : list snode) : exn + npfloat :=
       match l with
       | [] => inr (Num 0)
       | x :: l' =>
           ebind (eval_s s fd x) (fun a => ebind (sum_all l') (fun b => inr (fadd a b)))
       end) (map (fun ws => Scale (snd ws) (node (fst ws))) (combine ws a))
    = inr (Num (weighted_sum f vals a)).
Proof.
  intros Hnode ws vals a H. revert a.
  induction H as [|w v ws vals Hwv H IH]; intros [|q a]; simpl; try reflexivity.
  - rewrite (Hnode _ _ Hwv). simpl. rewrite IH. reflexivity.
Qed.

Lemma eval_s_weighted_sum s fd (node : tnode -> snode) (f : ndarray -> Q) :
  (forall w v, eval s fd w = inr v -> eval_s s fd (node w) = inr (Num (f v))) ->
  forall ws vals a,
    Forall2 (fun w v => eval s fd w = inr v) ws vals ->
    combine ws a <> [] ->
    eval_s s fd (AddN (map (fun ws => Scale (snd ws) (node (fst ws))) (combine ws a)))
    = inr (Num (weighted_sum f vals a)).
Proof.
  intros Hnode ws vals a H Hne.
  pose proof (eval_s_weighted_terms s fd node f Hnode ws vals a H) as Hs.
  destruct (combine ws a) as [|p c] eqn:Ec; [congruence|].
  simpl in *. exact Hs.
Qed.

(** C8 (amended). Whenever [add_regulizer] returns, it has replaced the
    loss by the loss plus two sums over the trainable weight tensors (the
    biases are not in them): the L1 norms and the half squared norms, each
    tensor's term scaled by its weight, and has changed nothing else; in a
    session the two sums evaluate to [sum_i a_i * |w_i|_1] and
    [sum_i b_i * |w_i|^2 / 2].  A single Python float gives weight zero
    to the first two tensors and the float to every later one; no argument
    gives weight zero to every tensor; a list is used as it is.  A scalar
    whose type is not [float] -- an int, a numpy scalar -- is given to no
    tensor: the call raises a type error and the model is as it was. *)
Theorem add_regulizer_adds_weighted_norms
    (l1_weight l2_weight : reg_weight) (m : model) :
  let ws := _nn_weights m in
  let n := List.length ws in
  (forall m',
     add_regulizer l1_weight l2_weight m = (inr tt, m') ->
     exists loss a1 a2,
       _loss m = Some loss /\
       weight_list l1_weight n = Some a1 /\ weight_list l2_weight n = Some a2 /\
       let l1_loss :=
         AddN (map (fun ws => Scale (snd ws) (Norm1 (fst ws))) (combine ws a1)) in
       let l2_loss :=
         AddN (map (fun ws => Scale (snd ws) (L2Loss (fst ws))) (combine ws a2)) in
       m' = set_loss (Some (SAdd loss (SAdd l1_loss l2_loss))) m /\
       forall s fd vals,
         Forall2 (fun w v => eval s fd w = inr v) ws vals ->
         eval_s s fd l1_loss = inr (Num (weighted_sum tf_norm1 vals a1)) /\
         eval_s s fd l2_loss = inr (Num (weighted_sum tf_l2_loss vals a2))) /\
  (forall s,
     weight_list (RFloat s) n = Some (repeat 0%Q 2 ++ repeat s (n - 2)) /\
     forall i, i < n ->
       nth_error (repeat 0%Q 2 ++ repeat s (n - 2)) i
       = Some (if i <? 2 then 0%Q else s)) /\
  weight_list RNone n = Some (repeat 0%Q n) /\
  (forall l, weight_list (RList l) n = Some l) /\
  (forall w, (exists z, w = RInt z) \/ (exists q, w = RNumpyScalar q) ->
     weight_list w n = None /\
     (_graph m <> None -> add_regulizer w l2_weight m = (inl TypeError, m)) /\
     fst (add_regulizer l1_weight w m) <> inr tt /\
     snd (add_regulizer l1_weight w m) = m).
Proof.
  intros ws n.
  split; [|split; [|split; [|split]]].
  - intros m' H.
    destruct (add_regulizer_cases l1_weight l2_weight m)
      as [(e & He)|(g & loss & z1 & z2 & Hg & Hl & Z1 & N1 & Z2 & N2 & Hrun)];
      [rewrite He in H; discriminate|].
    rewrite Hrun in H. injection H as <-.
    destruct (py_zip_weight_list _ _ _ _ Z1) as (a1 & W1 & ->).
    destruct (py_zip_weight_list _ _ _ _ Z2) as (a2 & W2 & ->).
    exists loss, a1, a2.
    split; [exact Hl|]. split; [exact W1|]. split; [exact W2|].
    cbv zeta. split; [reflexivity|].
    intros s fd vals Hv. split.
    + apply eval_s_weighted_sum; auto. intros w v Hw. simpl. now rewrite Hw.
    + apply eval_s_weighted_sum; auto. intros w v Hw. simpl. now rewrite Hw.
  - intro s. split; [reflexivity|]. intro i. apply per_tensor_weights_float_nth.
  - reflexivity.
  - reflexivity.
  - intros w Hw.
    assert (Hz : forall ts k, py_zip ts (per_tensor_weights w k) = inl TypeError).
    { intros ts k. destruct Hw as [(z & ->)|(q & ->)]; reflexivity. }
    split; [destruct Hw as [(z & ->)|(q & ->)]; reflexivity|].
    split; [|split].
    + intro Hg. unfold add_regulizer, as_default. run.
      destruct (_graph m) as [g|]; [|congruence]. simpl.
      rewrite Hz. reflexivity.
    + destruct (add_regulizer_cases l1_weight w m)
        as [(e & ->)|(g & loss & z1 & z2 & _ & _ & _ & _ & Z2 & _)];
        [discriminate|].
      rewrite Hz in Z2. discriminate.
    + destruct (add_regulizer_cases l1_weight w m)
        as [(e & ->)|(g & loss & z1 & z2 & _ & _ & _ & _ & Z2 & _)];
        [reflexivity|].
      rewrite Hz in Z2. discriminate.
Qed.

End RegularizerValue.

Lemma add_regulizer_adds_weighted_norms_witness :
  exists loss,
    _loss three_layer_built = Some loss /\
    _loss (after (add_regulizer (RFloat (1 # 2)) RNone) three_layer_built)
    = Some (SAdd loss
              (SAdd (AddN [Scale 0 (Norm1 (Var 0)); Scale 0 (Norm1 (Var 2));
                           Scale (1 # 2) (Norm1 (Var 4))])
                    (AddN [Scale 0 (L2Loss (Var 0)); Scale 0 (L2Loss (Var 2));
                           Scale 0 (L2Loss (Var 4))]))).
Proof.
  assert (R : add_regulizer (RFloat (1 # 2)) RNone three_layer_built
              = (inr tt, after (add_regulizer (RFloat (1 # 2)) RNone) three_layer_built))
    by (vm_compute; reflexivity).
  destruct (add_regulizer_adds_weighted_norms (E := StandInEngine)
              (RFloat (1 # 2)) RNone three_layer_built) as (H & _).
  destruct (H _ R) as (loss & a1 & a2 & Hl & W1 & W2 & Hm' & _).
  exists loss. split; [exact Hl|].
  rewrite Hm'.
  assert (E1 : a1 = [0; 0; 1 # 2]%Q).
  { revert W1. vm_compute. intro W1. now injection W1 as <-. }
  assert (E2 : a2 = [0; 0; 0]%Q).
  { revert W2. vm_compute. intro W2. now injection W2 as <-. }
  subst a1 a2. reflexivity.
Defined.
